(** * PixelArt Controller: the device session controller

    A shallow embedding of the TypeScript front end of the LED panel
    controller: the HTTP/WebSocket client ([services/api.ts]), the shared
    store ([context/AppContext.tsx]), the stand-alone page ([App.tsx]) and
    the cards built on the store ([components/cards]).

    Asynchronous functions are written in a small free monad [Prog]: an
    [Await] node is an [await fetch(...)], an [Act] node a synchronous side
    effect (a React state setter, a toast, a console line).  A program can
    be run in one go against a scripted backend ([run]) or turn by turn
    ([advance]), the latter exposing the points where other callbacks of
    the event loop may interleave. *)

From Stdlib Require Import ZArith Ascii String.
From stdpp Require Import base option strings list gmap pretty.

Local Open Scope Z_scope.
Local Open Scope string_scope.
Local Open Scope list_scope.

(** ** types/led-panel.ts *)

(** Record projections share one name space in Rocq: where two interfaces
    of the source use the same field name, the later one gets the
    interface's initials as a prefix.  The module gives every field a
    qualified name that the components' own state fields cannot hide. *)

Module led_panel.

Record Device := {
  name : string;
  address : string;
  rssi : option Z
}.

Record DeviceStatus := {
  connected : bool;
  device_address : option string
}.

Record DeviceInfo := {
  width : Z;
  height : Z;
  device_type : Z;
  led_type : Z;
  has_wifi : bool
}.

Record TextRequest := {
  text : string;
  color : option string;
  font : option string;
  animation : option Z;
  speed : option Z;
  rainbow_mode : option Z;
  char_height : option Z
}.

Record BrightnessRequest := { brightness : Z }.

Record OrientationRequest := { orientation : Z }.

Record PixelData := {
  x : Z;
  y : Z;
  px_color : string
}.

Record ClockSettings := {
  style : Z;
  format_24 : bool;
  show_date : bool
}.

Record RhythmSettings := {
  rs_style : Z;
  levels : list Z
}.

Record RhythmSettings2 := {
  rs2_style : Z;
  time : Z
}.

Record PowerRequest := { on : bool }.

Record ApiResponse := { status : string }.

Record WebSocketMessage := {
  type : string;
  ws_connected : bool;
  ws_device_address : option string
}.

Inductive PanelMode := clock | rhythm | diy.

Definition PanelMode_str (m : PanelMode) : string :=
  match m with clock => "clock" | rhythm => "rhythm" | diy => "diy" end.

(** A [File] of the DOM: opaque to this program, which only forwards it. *)
Record File := { file_name : string; file_data : list Byte.byte }.

End led_panel.
Import led_panel.

(** ** JavaScript values the code tests for truthiness *)

(** [if (s)] on a [string | undefined]: false when undefined or empty. *)
Definition truthy_str (s : option string) : bool :=
  match s with
  | Some s => negb (String.eqb s "")
  | None => false
  end.

(** [if (n)] on a [number | null]: false when null or zero. *)
Definition truthy_num (n : option Z) : bool :=
  match n with
  | Some n => negb (Z.eqb n 0)
  | None => false
  end.

(** [a || b] on an optional string with a string default. *)
Definition or_else (a : option string) (b : string) : string :=
  match a with
  | Some s => if String.eqb s "" then b else s
  | None => b
  end.

(** [color.replace('#', '')]: drops the first ['#']. *)
Fixpoint replace_hash (s : string) : string :=
  match s with
  | EmptyString => EmptyString
  | String c rest => if Ascii.eqb c "#"%char then rest else String c (replace_hash rest)
  end.

(** ** The remote control service, as seen through [fetch] *)

Inductive Error := JsError (message : string).

(** The result of [response.json()]: a value of the declared type, or a
    rejection. *)
Inductive Json (A : Type) :=
| Parsed (a : A)
| Unparsable (e : Error).
Arguments Parsed {A} a.
Arguments Unparsable {A} e.

(** A value read from JSON at no declared type.  Of a number the code
    can see whether it is zero and the text [String(...)] prints for
    it, so that is what a number is here. *)
#[warnings="-register-all"] Inductive JSON :=
| JNull
| JBool (b : bool)
| JNumber (zero : bool) (printed : string)
| JString (s : string)
| JArray (items : list JSON)
| JObject (fields : list (string * JSON)).

(** [if (v)] *)
Definition truthy (v : JSON) : bool :=
  match v with
  | JNull => false
  | JBool b => b
  | JNumber zero _ => negb zero
  | JString s => negb (String.eqb s "")
  | JArray _ | JObject _ => true
  end.

(** [String(v)], which is what [new Error(v)] keeps as its message: a
    list prints its items separated by commas, a [null] item as
    nothing, and every object as ["[object Object]"]. *)
Fixpoint to_string (v : JSON) : string :=
  match v with
  | JNull => "null"
  | JBool true => "true"
  | JBool false => "false"
  | JNumber _ printed => printed
  | JString s => s
  | JArray items =>
      String.concat ","
        (List.map (fun item => match item with JNull => "" | _ => to_string item end) items)
  | JObject _ => "[object Object]"
  end.

(** The [TypeError] of a property read on [null]; the text is the
    engine's. *)
Definition TypeError (field : string) : Error :=
  JsError ("Cannot read properties of null (reading '" +:+ field +:+ "')").

(** [v.field] on a value that is not [null]: [undefined] (here [None])
    unless [v] is an object with that field; of two fields of one name
    [JSON.parse] keeps the last. *)
Definition get (field : string) (v : JSON) : option JSON :=
  match v with
  | JObject fields => snd <$> last (filter (fun kv => kv.1 = field) fields)
  | _ => None
  end.

(** [new Error(v || default).message] *)
Definition message_or (v : option JSON) (default : string) : string :=
  match v with
  | Some v => if truthy v then to_string v else default
  | None => default
  end.

(** [v === s] for a string [s] *)
Definition is_string (s : string) (v : option JSON) : bool :=
  match v with
  | Some (JString t) => String.eqb t s
  | _ => false
  end.

(** A [Response].  [json] is the body read at the type the method
    declares, [error_json] the same body read as an error payload, of
    no declared type; the code reads the first only when [ok] and the
    second only when not. *)
Record Response (A : Type) := {
  ok : bool;
  statusText : string;
  json : Json A;
  error_json : Json JSON
}.
Arguments ok {A} r.
Arguments statusText {A} r.
Arguments json {A} r.
Arguments error_json {A} r.

(** What [fetch] resolves to: a response, or a rejection when the service
    cannot be reached. *)
Inductive Http (A : Type) :=
| Responded (r : Response A)
| Rejected (e : Error).
Arguments Responded {A} r.
Arguments Rejected {A} e.

(** One constructor per request the client issues, with its payload. *)
Inductive Call :=
| GET_root
| GET_devices_scan
| POST_devices_connect (deviceAddress : string)
| POST_devices_disconnect
| GET_devices_status
| POST_panel_text (request : TextRequest)
| POST_panel_image (file : File)
| POST_panel_mode (mode : PanelMode)
| POST_panel_brightness (request : BrightnessRequest)
| POST_panel_orientation (request : OrientationRequest)
| GET_panel_device_info
| POST_panel_pixels (pixels : list PixelData)
| POST_panel_mode_clock (settings : ClockSettings)
| POST_panel_mode_rhythm (settings : RhythmSettings)
| POST_panel_mode_rhythm2 (settings : RhythmSettings2)
| POST_panel_power (request : PowerRequest).

Definition path (c : Call) : string :=
  match c with
  | GET_root => "/"
  | GET_devices_scan => "/devices/scan"
  | POST_devices_connect _ => "/devices/connect"
  | POST_devices_disconnect => "/devices/disconnect"
  | GET_devices_status => "/devices/status"
  | POST_panel_text _ => "/panel/text"
  | POST_panel_image _ => "/panel/image"
  | POST_panel_mode m => "/panel/mode/" +:+ PanelMode_str m
  | POST_panel_brightness _ => "/panel/brightness"
  | POST_panel_orientation _ => "/panel/orientation"
  | GET_panel_device_info => "/panel/device-info"
  | POST_panel_pixels _ => "/panel/pixels"
  | POST_panel_mode_clock _ => "/panel/mode/clock"
  | POST_panel_mode_rhythm _ => "/panel/mode/rhythm"
  | POST_panel_mode_rhythm2 _ => "/panel/mode/rhythm2"
  | POST_panel_power _ => "/panel/power"
  end.

(** The declared type of the body of a successful response; the body
    [ping] reads has none. *)
Definition Body (c : Call) : Type :=
  match c with
  | GET_root => JSON
  | GET_devices_scan => list Device
  | GET_devices_status => DeviceStatus
  | GET_panel_device_info => DeviceInfo
  | _ => ApiResponse
  end.

(** ** Asynchronous programs *)

Inductive Toast :=
| toast_success (msg : string)
| toast_error (msg : string).

(** Synchronous effects on a component whose React state has type [S]. *)
Inductive Action (S : Type) :=
| SetState (f : S -> S)
| Notify (t : Toast)
| ConsoleError (label : string) (e : Error).
Arguments SetState {S} f.
Arguments Notify {S} t.
Arguments ConsoleError {S} label e.

Inductive Prog (S A : Type) :=
| Ret (a : A)
| Throw (e : Error)
| Act (a : Action S) (k : Prog S A)
| Await (c : Call) (k : Http (Body c) -> Prog S A).
Arguments Ret {S A} a.
Arguments Throw {S A} e.
Arguments Act {S A} a k.
Arguments Await {S A} c k.

Fixpoint bind {S A B} (f : A -> Prog S B) (p : Prog S A) : Prog S B :=
  match p with
  | Ret a => f a
  | Throw e => Throw e
  | Act a k => Act a (bind f k)
  | Await c k => Await c (fun r => bind f (k r))
  end.

#[global] Instance Prog_ret {S} : MRet (Prog S) := fun A a => Ret a.
#[global] Instance Prog_bind {S} : MBind (Prog S) := fun A B f p => bind f p.

(** [try { body } catch (error) { handler error }] *)
Fixpoint try_catch {S A} (body : Prog S A) (handler : Error -> Prog S A) : Prog S A :=
  match body with
  | Ret a => Ret a
  | Throw e => handler e
  | Act a k => Act a (try_catch k handler)
  | Await c k => Await c (fun r => try_catch (k r) handler)
  end.

(** [try { body } finally { fin }]: [fin] runs on both exits; if it throws,
    its error replaces the outcome of [body]. *)
Fixpoint try_finally {S A} (body : Prog S A) (fin : Prog S unit) : Prog S A :=
  match body with
  | Ret a => fin ;; Ret a
  | Throw e => fin ;; Throw e
  | Act a k => Act a (try_finally k fin)
  | Await c k => Await c (fun r => try_finally (k r) fin)
  end.

Definition act {S} (a : Action S) : Prog S unit := Act a (Ret tt).
Definition throw {S A} (e : Error) : Prog S A := Throw e.
Definition set_state {S} (f : S -> S) : Prog S unit := act (SetState f).
Definition console_error {S} (label : string) (e : Error) : Prog S unit :=
  act (ConsoleError label e).

Module toast.
Definition success {S} (msg : string) : Prog S unit := act (Notify (toast_success msg)).
Definition error {S} (msg : string) : Prog S unit := act (Notify (toast_error msg)).
End toast.

(** [await fetch(...)] *)
Definition fetch {S} (c : Call) : Prog S (Response (Body c)) :=
  Await c (fun r => match r with
                    | Responded resp => Ret resp
                    | Rejected e => Throw e
                    end).

(** [await response.json()].  The body is taken to arrive with the
    response: reading it is part of the turn the response resumes. *)
Definition await_json {S A} (j : Json A) : Prog S A :=
  match j with
  | Parsed a => Ret a
  | Unparsable e => Throw e
  end.

(** A component that embeds another one runs the inner component's
    programs on its part of the state. *)
Definition lift_action {S T} (up : (S -> S) -> T -> T) (a : Action S) : Action T :=
  match a with
  | SetState f => SetState (up f)
  | Notify t => Notify t
  | ConsoleError l e => ConsoleError l e
  end.

Fixpoint lift {S T A} (up : (S -> S) -> T -> T) (p : Prog S A) : Prog T A :=
  match p with
  | Ret a => Ret a
  | Throw e => Throw e
  | Act a k => Act (lift_action up a) (lift up k)
  | Await c k => Await c (fun r => lift up (k r))
  end.

(** *** Running a program *)

(** What a handler leaves behind: the component state, the requests issued
    (oldest first) and what the user was shown. *)
Record World (S : Type) := {
  store : S;
  calls : list Call;
  toasts : list Toast;
  console : list (string * Error)
}.
Arguments store {S} w.
Arguments calls {S} w.
Arguments toasts {S} w.
Arguments console {S} w.

Definition perform {S} (a : Action S) (w : World S) : World S :=
  match a with
  | SetState f =>
      {| store := f (store w); calls := calls w; toasts := toasts w; console := console w |}
  | Notify t =>
      {| store := store w; calls := calls w; toasts := toasts w ++ [t]; console := console w |}
  | ConsoleError l e =>
      {| store := store w; calls := calls w; toasts := toasts w; console := console w ++ [(l, e)] |}
  end.

Definition issue {S} (c : Call) (w : World S) : World S :=
  {| store := store w; calls := calls w ++ [c]; toasts := toasts w; console := console w |}.

Inductive Outcome (A : Type) :=
| Returned (a : A)
| Thrown (e : Error).
Arguments Returned {A} a.
Arguments Thrown {A} e.

(** The service: its answer to a request may depend on the requests seen
    before. *)
Definition Backend := list Call -> forall c : Call, Http (Body c).

(** Run to completion, every request answered at once by the backend. *)
Fixpoint run {S A} (b : Backend) (p : Prog S A) (w : World S) : Outcome A * World S :=
  match p with
  | Ret a => (Returned a, w)
  | Throw e => (Thrown e, w)
  | Act a k => run b k (perform a w)
  | Await c k => run b (k (b (calls w) c)) (issue c w)
  end.

(** One turn of the event loop: run up to the next [await]. *)
Inductive Turn (S A : Type) :=
| Finished (o : Outcome A)
| Pending (c : Call) (k : Http (Body c) -> Prog S A).
Arguments Finished {S A} o.
Arguments Pending {S A} c k.

Fixpoint advance {S A} (p : Prog S A) (w : World S) : Turn S A * World S :=
  match p with
  | Ret a => (Finished (Returned a), w)
  | Throw e => (Finished (Thrown e), w)
  | Act a k => advance k (perform a w)
  | Await c k => (Pending c k, issue c w)
  end.

Definition new_world {S} (s : S) : World S :=
  {| store := s; calls := []; toasts := []; console := [] |}.

(** ** services/api.ts: the request/response methods of [LEDPanelAPI] *)

Module api.
Section Methods.
Context {S : Type}.

(** [error.detail]: a [TypeError] when [error] is [null]. *)
Definition detail (error : JSON) : Prog S (option JSON) :=
  match error with
  | JNull => throw (TypeError "detail")
  | _ => mret (get "detail" error)
  end.

Definition ping : Prog S bool :=
  try_catch
    (response ← fetch GET_root;
     data ← await_json (json response);
     match data with
     | JNull => throw (TypeError "status")
     | _ => mret (is_string "ok" (get "status" data))
     end)
    (fun error => console_error "Backend ping failed:" error;; mret false).

Definition scanDevices : Prog S (list Device) :=
  response ← fetch GET_devices_scan;
  if negb (ok response) then
    throw (JsError ("Scan failed: " +:+ statusText response))
  else await_json (json response).

Definition connect (deviceAddress : string) : Prog S ApiResponse :=
  response ← fetch (POST_devices_connect deviceAddress);
  if negb (ok response) then
    throw (JsError ("Connection failed: " +:+ statusText response))
  else await_json (json response).

Definition disconnect : Prog S ApiResponse :=
  response ← fetch POST_devices_disconnect;
  if negb (ok response) then
    throw (JsError ("Disconnection failed: " +:+ statusText response))
  else await_json (json response).

Definition getStatus : Prog S DeviceStatus :=
  response ← fetch GET_devices_status;
  if negb (ok response) then
    throw (JsError ("Get status failed: " +:+ statusText response))
  else await_json (json response).

Definition sendText (request : TextRequest) : Prog S ApiResponse :=
  response ← fetch (POST_panel_text request);
  if negb (ok response) then
    error ← await_json (error_json response);
    detail ← detail error;
    throw (JsError (message_or detail "Failed to send text"))
  else await_json (json response).

Definition sendImage (file : File) : Prog S ApiResponse :=
  response ← fetch (POST_panel_image file);
  if negb (ok response) then
    error ← await_json (error_json response);
    detail ← detail error;
    throw (JsError (message_or detail "Failed to send image"))
  else await_json (json response).

Definition setMode (mode : PanelMode) : Prog S ApiResponse :=
  response ← fetch (POST_panel_mode mode);
  if negb (ok response) then
    error ← await_json (error_json response);
    detail ← detail error;
    throw (JsError (message_or detail
                      ("Failed to set " +:+ PanelMode_str mode +:+ " mode")))
  else await_json (json response).

Definition setBrightness (request : BrightnessRequest) : Prog S ApiResponse :=
  response ← fetch (POST_panel_brightness request);
  if negb (ok response) then
    error ← await_json (error_json response);
    detail ← detail error;
    throw (JsError (message_or detail "Failed to set brightness"))
  else await_json (json response).

Definition setOrientation (request : OrientationRequest) : Prog S ApiResponse :=
  response ← fetch (POST_panel_orientation request);
  if negb (ok response) then
    error ← await_json (error_json response);
    detail ← detail error;
    throw (JsError (message_or detail "Failed to set orientation"))
  else await_json (json response).

Definition getDeviceInfo : Prog S DeviceInfo :=
  response ← fetch GET_panel_device_info;
  if negb (ok response) then
    throw (JsError "Failed to get device info")
  else await_json (json response).

Definition sendPixels (pixels : list PixelData) : Prog S ApiResponse :=
  response ← fetch (POST_panel_pixels pixels);
  if negb (ok response) then
    throw (JsError "Failed to send pixels")
  else await_json (json response).

Definition setClockMode (settings : ClockSettings) : Prog S ApiResponse :=
  response ← fetch (POST_panel_mode_clock settings);
  if negb (ok response) then
    throw (JsError "Failed to set clock mode")
  else await_json (json response).

Definition setRhythmMode (settings : RhythmSettings) : Prog S ApiResponse :=
  response ← fetch (POST_panel_mode_rhythm settings);
  if negb (ok response) then
    throw (JsError "Failed to set rhythm mode")
  else await_json (json response).

Definition setRhythmMode2 (settings : RhythmSettings2) : Prog S ApiResponse :=
  response ← fetch (POST_panel_mode_rhythm2 settings);
  if negb (ok response) then
    throw (JsError "Failed to set rhythm mode 2")
  else await_json (json response).

Definition setPower (request : PowerRequest) : Prog S ApiResponse :=
  response ← fetch (POST_panel_power request);
  if negb (ok response) then
    error ← await_json (error_json response);
    detail ← detail error;
    throw (JsError (message_or detail "Failed to set power"))
  else await_json (json response).

End Methods.
End api.

(** ** context/AppContext.tsx: the shared store and its methods *)

Module AppContext.

#[projections(primitive)] Record State := {
  deviceInfo : option DeviceInfo;
  connected : bool;
  deviceAddress : option string;
  devices : list Device;
  scanning : bool;
  status : DeviceStatus
}.

(** The [useState] initial values. *)
Definition initial : State :=
  {| deviceInfo := None; connected := false; deviceAddress := None;
     devices := []; scanning := false;
     status := {| led_panel.connected := false; device_address := None |} |}.

Definition setDeviceInfo (v : option DeviceInfo) : Prog State unit :=
  set_state (fun s => let 'Build_State _ b c d e f := s in Build_State v b c d e f).
Definition setConnected (v : bool) : Prog State unit :=
  set_state (fun s => let 'Build_State a _ c d e f := s in Build_State a v c d e f).
Definition setDeviceAddress (v : option string) : Prog State unit :=
  set_state (fun s => let 'Build_State a b _ d e f := s in Build_State a b v d e f).
Definition setDevices (v : list Device) : Prog State unit :=
  set_state (fun s => let 'Build_State a b c _ e f := s in Build_State a b c v e f).
Definition setScanning (v : bool) : Prog State unit :=
  set_state (fun s => let 'Build_State a b c d _ f := s in Build_State a b c d v f).
Definition setStatus (v : DeviceStatus) : Prog State unit :=
  set_state (fun s => let 'Build_State a b c d e _ := s in Build_State a b c d e v).

(** The callback the provider's effect hands to [api.connectWebSocket]. *)
Definition onStatusMessage (msg : WebSocketMessage) : Prog State unit :=
  setStatus {| led_panel.connected := ws_connected msg;
               device_address := ws_device_address msg |};;
  setConnected (ws_connected msg);;
  if truthy_str (ws_device_address msg) then
    setDeviceAddress (ws_device_address msg)
  else mret tt.

Definition scanDevices : Prog State unit :=
  setScanning true;;
  try_finally
    (try_catch
       (foundDevices ← api.scanDevices;
        setDevices foundDevices)
       (fun error => console_error "Scan failed:" error;; throw error))
    (setScanning false).

Definition connect (address : string) : Prog State unit :=
  try_catch
    (_ ← api.connect address;
     info ← api.getDeviceInfo;
     setDeviceInfo (Some info);;
     setConnected true;;
     setDeviceAddress (Some address))
    (fun error => console_error "Connection failed:" error;; throw error).

Definition disconnect : Prog State unit :=
  try_catch
    (_ ← api.disconnect;
     setConnected false;;
     setDeviceAddress None;;
     setDeviceInfo None)
    (fun error => console_error "Disconnect failed:" error;; throw error).

Definition sendText (request : TextRequest) : Prog State unit :=
  try_catch
    (_ ← api.sendText request; mret tt)
    (fun error => console_error "Send text failed:" error;; throw error).

Definition sendImage (file : File) : Prog State unit :=
  try_catch
    (_ ← api.sendImage file; mret tt)
    (fun error => console_error "Send image failed:" error;; throw error).

Definition setMode (mode : PanelMode) : Prog State unit :=
  try_catch
    (_ ← api.setMode mode; mret tt)
    (fun error => console_error "Set mode failed:" error;; throw error).

Definition setBrightness (request : BrightnessRequest) : Prog State unit :=
  try_catch
    (_ ← api.setBrightness request; mret tt)
    (fun error => console_error "Set brightness failed:" error;; throw error).

Definition setOrientation (request : OrientationRequest) : Prog State unit :=
  try_catch
    (_ ← api.setOrientation request; mret tt)
    (fun error => console_error "Set orientation failed:" error;; throw error).

Definition setPower (request : PowerRequest) : Prog State unit :=
  try_catch
    (_ ← api.setPower request; mret tt)
    (fun error => console_error "Set power failed:" error;; throw error).

(** The mutations of the session the store receives: the two lifecycle
    methods and the frames of the push channel. *)
Inductive Mutation :=
| Connect (address : string)
| Disconnect
| StatusFrame (msg : WebSocketMessage).

Definition mutation (m : Mutation) : Prog State unit :=
  match m with
  | Connect address => connect address
  | Disconnect => disconnect
  | StatusFrame msg => onStatusMessage msg
  end.

Definition apply (b : Backend) (w : World State) (m : Mutation) : World State :=
  (run b (mutation m) w).2.

Definition apply_all (b : Backend) (ms : list Mutation) (w : World State) : World State :=
  foldl (apply b) w ms.

(** The command methods the store offers to the cards. *)
Inductive Command :=
| SendText (request : TextRequest)
| SendImage (file : File)
| SetMode (mode : PanelMode)
| SetBrightness (request : BrightnessRequest)
| SetOrientation (request : OrientationRequest)
| SetPower (request : PowerRequest).

Definition command (c : Command) : Prog State unit :=
  match c with
  | SendText request => sendText request
  | SendImage file => sendImage file
  | SetMode mode => setMode mode
  | SetBrightness request => setBrightness request
  | SetOrientation request => setOrientation request
  | SetPower request => setPower request
  end.

(** The request a command method issues. *)
Definition request_of (c : Command) : Call :=
  match c with
  | SendText request => POST_panel_text request
  | SendImage file => POST_panel_image file
  | SetMode mode => POST_panel_mode mode
  | SetBrightness request => POST_panel_brightness request
  | SetOrientation request => POST_panel_orientation request
  | SetPower request => POST_panel_power request
  end.

(** "The address is defined if and only if connected is true." *)
Definition address_iff_connected (s : State) : Prop :=
  is_Some (deviceAddress s) <-> connected s = true.

End AppContext.

(** ** App.tsx: the stand-alone page *)

Module App.

(** The [useState] cells the modelled handlers read or write.  The tab
    selector and the saved designs (kept in [localStorage]) belong to
    handlers that issue no command and are left out. *)
#[projections(primitive)] Record State := {
  status : DeviceStatus;
  deviceInfo : option DeviceInfo;
  devices : list Device;
  scanning : bool;
  text : string;
  textColor : string;
  font : string;
  animation : Z;
  speed : Z;
  rainbowMode : Z;
  charHeight : option Z;
  clockStyle : Z;
  format24 : bool;
  showDate : bool;
  brightness : Z;
  orientation : Z;
  isPowered : bool;
  pixelColor : string;
  pixelGrid : gmap string string;
  imagePreview : option string
}.

Definition initial : State :=
  {| status := {| connected := false; device_address := None |};
     deviceInfo := None; devices := []; scanning := false;
     text := "Hello!"; textColor := "FF00FF"; font := "CUSONG";
     animation := 0; speed := 80; rainbowMode := 0; charHeight := Some 16;
     clockStyle := 1; format24 := true; showDate := true;
     brightness := 50; orientation := 0; isPowered := true;
     pixelColor := "#FF00FF"; pixelGrid := ∅; imagePreview := None |}.

Definition setStatus (v : DeviceStatus) : Prog State unit :=
  set_state (fun s =>
    let 'Build_State _ b c d e f g h i j k l m n o p q r t u := s in
    Build_State v b c d e f g h i j k l m n o p q r t u).
Definition setDeviceInfo (v : option DeviceInfo) : Prog State unit :=
  set_state (fun s =>
    let 'Build_State a _ c d e f g h i j k l m n o p q r t u := s in
    Build_State a v c d e f g h i j k l m n o p q r t u).
Definition setDevices (v : list Device) : Prog State unit :=
  set_state (fun s =>
    let 'Build_State a b _ d e f g h i j k l m n o p q r t u := s in
    Build_State a b v d e f g h i j k l m n o p q r t u).
Definition setScanning (v : bool) : Prog State unit :=
  set_state (fun s =>
    let 'Build_State a b c _ e f g h i j k l m n o p q r t u := s in
    Build_State a b c v e f g h i j k l m n o p q r t u).
Definition setBrightness (v : Z) : Prog State unit :=
  set_state (fun s =>
    let 'Build_State a b c d e f g h i j k l m n _ p q r t u := s in
    Build_State a b c d e f g h i j k l m n v p q r t u).
Definition setOrientation (v : Z) : Prog State unit :=
  set_state (fun s =>
    let 'Build_State a b c d e f g h i j k l m n o _ q r t u := s in
    Build_State a b c d e f g h i j k l m n o v q r t u).
Definition setIsPowered (v : bool) : Prog State unit :=
  set_state (fun s =>
    let 'Build_State a b c d e f g h i j k l m n o p _ r t u := s in
    Build_State a b c d e f g h i j k l m n o p v r t u).
Definition setPixelColor (v : string) : Prog State unit :=
  set_state (fun s =>
    let 'Build_State a b c d e f g h i j k l m n o p q _ t u := s in
    Build_State a b c d e f g h i j k l m n o p q v t u).
(** [setPixelGrid(prev => f(prev))] *)
Definition setPixelGrid (f : gmap string string -> gmap string string) : Prog State unit :=
  set_state (fun s =>
    let 'Build_State a b c d e f' g h i j k l m n o p q r t u := s in
    Build_State a b c d e f' g h i j k l m n o p q r (f t) u).
Definition setImagePreview (v : option string) : Prog State unit :=
  set_state (fun s =>
    let 'Build_State a b c d e f g h i j k l m n o p q r t _ := s in
    Build_State a b c d e f g h i j k l m n o p q r t v).

(** [URL.createObjectURL(file)]: the browser returns a fresh opaque URL;
    only the preview image uses it. *)
Definition createObjectURL (file : File) : string := "blob:" +:+ file_name file.

(** The key [`${x},${y}`] of a cell. *)
Definition key (x y : Z) : string := pretty x +:+ "," +:+ pretty y.

(** The updater [handlePixelClick] passes to [setPixelGrid].  The grid
    is taken as the colour it holds at each key; the order in which the
    object lists its keys, which is the order of their insertion, is
    not part of the map. *)
Definition toggle (key pixelColor : string) (prev : gmap string string)
  : gmap string string :=
  let newGrid := prev in
  if decide (newGrid !! key = Some pixelColor) then delete key newGrid
  else <[key := pixelColor]> newGrid.

Section Handlers.

(** [coords.split(',').map(Number)], destructured as [[x, y]]: the
    numbers a key of the grid stands for. *)
Variable parse_coords : string -> Z * Z.

(** A handler closes over the state of the render it was created in:
    [s] is that snapshot. *)
Variable s : State.

Definition handleScan : Prog State unit :=
  setScanning true;;
  try_finally
    (try_catch
       (foundDevices ← api.scanDevices;
        setDevices foundDevices;;
        toast.success ("Found " +:+ pretty (length foundDevices) +:+ " device(s)"))
       (fun error => console_error "Scan failed:" error;; toast.error "Scan failed"))
    (setScanning false).

Definition handleConnect (address : string) : Prog State unit :=
  try_catch
    (_ ← api.connect address;
     newStatus ← api.getStatus;
     setStatus newStatus;;
     if connected newStatus then
       info ← api.getDeviceInfo;
       setDeviceInfo (Some info);;
       toast.success "Connected!"
     else mret tt)
    (fun error => console_error "Connection failed:" error;;
                  toast.error "Connection failed").

Definition handleDisconnect : Prog State unit :=
  try_catch
    (_ ← api.disconnect;
     newStatus ← api.getStatus;
     setStatus newStatus;;
     setDeviceInfo None;;
     toast.success "Disconnected")
    (fun error => console_error "Disconnect failed:" error;;
                  toast.error "Disconnect failed").

Definition handleSendText : Prog State unit :=
  if negb (connected (status s)) then
    toast.error "Connect to device first"
  else
    try_catch
      (_ ← api.sendText {| led_panel.text := text s;
                           color := Some (textColor s);
                           led_panel.font := Some (font s);
                           led_panel.animation := Some (animation s);
                           led_panel.speed := Some (speed s);
                           rainbow_mode := Some (rainbowMode s);
                           char_height := charHeight s |};
       toast.success "Text sent")
      (fun error => console_error "Send text failed:" error;;
                    toast.error "Failed to send text").

(** [file] is [event.target.files?.[0]]. *)
Definition handleImageUpload (file : option File) : Prog State unit :=
  match file with
  | None => mret tt
  | Some file =>
      setImagePreview (Some (createObjectURL file));;
      if negb (connected (status s)) then
        toast.error "Connect to device first"
      else
        try_catch
          (_ ← api.sendImage file;
           toast.success "Image sent!")
          (fun error => console_error "Image upload failed:" error;;
                        toast.error "Failed to send image")
  end.

Definition handlePixelClick (x y : Z) : Prog State unit :=
  let key := key x y in
  setPixelGrid (toggle key (pixelColor s)).

(** [Object.entries] lists the grid in insertion order, which the map
    does not keep: here the pixels are listed in the order of their
    keys.  The request of the code carries the same pixels, in another
    order; what is stated of the request is stated up to that order. *)
Definition handleSendPixels : Prog State unit :=
  if negb (connected (status s)) then
    toast.error "Connect to device first"
  else
    let pixelCount := size (pixelGrid s) in
    if decide (pixelCount = 0%nat) then
      toast.error "No pixels to send"
    else
      try_catch
        (_ ← api.setMode diy;
         let pixels :=
           (fun '(coords, color) =>
              let '(x, y) := parse_coords coords in
              {| x := x; y := y; px_color := replace_hash color |})
             <$> map_to_list (pixelGrid s) in
         _ ← api.sendPixels pixels;
         toast.success (pretty pixelCount +:+ " pixels sent!"))
        (fun error => console_error "Send pixels failed:" error;;
                      toast.error "Failed to send pixels").

Definition handleSetClockMode : Prog State unit :=
  if negb (connected (status s)) then
    toast.error "Connect to device first"
  else
    try_catch
      (_ ← api.setClockMode {| style := clockStyle s;
                               format_24 := format24 s;
                               show_date := showDate s |};
       toast.success "Clock mode activated")
      (fun error => console_error "Failed to set clock mode:" error;;
                    toast.error "Failed to set clock mode").

Definition handleSetBrightness (value : Z) : Prog State unit :=
  setBrightness value;;
  if negb (connected (status s)) then mret tt
  else
    try_catch
      (_ ← api.setBrightness {| led_panel.brightness := value |}; mret tt)
      (fun error => console_error "Failed to set brightness:" error).

Definition handleSetOrientation (value : Z) : Prog State unit :=
  setOrientation value;;
  if negb (connected (status s)) then mret tt
  else
    try_catch
      (_ ← api.setOrientation {| led_panel.orientation := value |};
       toast.success "Orientation updated")
      (fun error => console_error "Failed to set orientation:" error;;
                    toast.error "Failed to set orientation").

Definition handleTogglePower : Prog State unit :=
  if negb (connected (status s)) then
    toast.error "Connect to device first"
  else
    try_catch
      (_ ← api.setPower {| on := negb (isPowered s) |};
       setIsPowered (negb (isPowered s));;
       toast.success (if isPowered s then "Power OFF" else "Power ON"))
      (fun error => console_error "Failed to toggle power:" error;;
                    toast.error "Failed to toggle power").

End Handlers.

(** The seven command families and what the page's handler for each is
    given. *)
Inductive Command :=
| SendText
| SendImage (file : File)
| SendPixels
| SetMode
| SetBrightness (value : Z)
| SetOrientation (value : Z)
| SetPower.

Definition handler (parse_coords : string -> Z * Z) (s : State) (c : Command)
  : Prog State unit :=
  match c with
  | SendText => handleSendText s
  | SendImage file => handleImageUpload s (Some file)
  | SendPixels => handleSendPixels parse_coords s
  | SetMode => handleSetClockMode s
  | SetBrightness value => handleSetBrightness s value
  | SetOrientation value => handleSetOrientation s value
  | SetPower => handleTogglePower s
  end.

(** A user action: the handler of the current render runs on the
    current state. *)
Definition submit (parse_coords : string -> Z * Z) (b : Backend) (c : Command)
    (w : World State) : Outcome unit * World State :=
  run b (handler parse_coords (store w) c) w.

End App.

(** ** components/cards: the cards built on the shared store *)

Module EditorCard.

#[projections(primitive)] Record State := {
  ctx : AppContext.State;
  text : string;
  textColor : string
}.

Definition useApp (f : AppContext.State -> AppContext.State) (s : State) : State :=
  {| ctx := f (ctx s); text := text s; textColor := textColor s |}.

Section Handlers.
Variable s : State.

Definition handleSendText : Prog State unit :=
  if negb (connected (AppContext.status (ctx s))) then
    toast.error "Connect to a device first"
  else
    try_catch
      (lift useApp
         (AppContext.sendText {| led_panel.text := text s;
                                 color := Some (replace_hash (textColor s));
                                 font := Some "CUSONG";
                                 animation := Some 0;
                                 speed := Some 80;
                                 rainbow_mode := Some 0;
                                 char_height := None |});;
       toast.success "Text sent")
      (fun error => toast.error "Failed to send text").

Definition handleImageUpload (file : option File) : Prog State unit :=
  if negb (connected (AppContext.status (ctx s))) then
    toast.error "Connect to a device first"
  else
    match file with
    | None => mret tt
    | Some file =>
        try_catch
          (lift useApp (AppContext.sendImage file);;
           toast.success "Image sent")
          (fun error => toast.error "Failed to send image")
    end.

End Handlers.
End EditorCard.

Module ModesCard.

Definition mode_name (id : PanelMode) : string :=
  match id with
  | diy => "DIY Mode"
  | clock => "Clock"
  | rhythm => "Music Beat"
  end.

Definition handleModeChange (s : AppContext.State) (modeId : PanelMode)
  : Prog AppContext.State unit :=
  if negb (connected (AppContext.status s)) then
    toast.error "Connect to a device first"
  else
    try_catch
      (AppContext.setMode modeId;;
       toast.success (mode_name modeId +:+ " activated"))
      (fun error => toast.error "Failed to set mode").

End ModesCard.

Module SettingsCard.

#[projections(primitive)] Record State := {
  ctx : AppContext.State;
  brightness : Z;
  orientation : Z;
  isPowered : bool
}.

Definition useApp (f : AppContext.State -> AppContext.State) (s : State) : State :=
  {| ctx := f (ctx s); brightness := brightness s;
     orientation := orientation s; isPowered := isPowered s |}.

Definition setBrightnessLocal (v : Z) : Prog State unit :=
  set_state (fun s => {| ctx := ctx s; brightness := v;
                         orientation := orientation s; isPowered := isPowered s |}).
Definition setOrientationLocal (v : Z) : Prog State unit :=
  set_state (fun s => {| ctx := ctx s; brightness := brightness s;
                         orientation := v; isPowered := isPowered s |}).
Definition setIsPowered (v : bool) : Prog State unit :=
  set_state (fun s => {| ctx := ctx s; brightness := brightness s;
                         orientation := orientation s; isPowered := v |}).

Section Handlers.
Variable s : State.

Definition handleBrightnessChange (value : Z) : Prog State unit :=
  setBrightnessLocal value;;
  if negb (connected (AppContext.status (ctx s))) then mret tt
  else
    try_catch
      (lift useApp (AppContext.setBrightness {| led_panel.brightness := value |}))
      (fun error => toast.error "Failed to set brightness").

Definition handleOrientationChange (value : Z) : Prog State unit :=
  setOrientationLocal value;;
  if negb (connected (AppContext.status (ctx s))) then mret tt
  else
    try_catch
      (lift useApp (AppContext.setOrientation {| led_panel.orientation := value |});;
       toast.success ("Rotated to " +:+ pretty (value * 90) +:+ "°"))
      (fun error => toast.error "Failed to set orientation").

Definition handlePowerToggle : Prog State unit :=
  if negb (connected (AppContext.status (ctx s))) then
    toast.error "Connect to a device first"
  else
    let newPowerState := negb (isPowered s) in
    setIsPowered newPowerState;;
    try_catch
      (lift useApp (AppContext.setPower {| on := newPowerState |});;
       toast.success (if newPowerState then "Power ON" else "Power OFF"))
      (fun error => toast.error "Failed to toggle power";;
                    setIsPowered (negb newPowerState)).

End Handlers.
End SettingsCard.

(** ** services/api.ts: the push channel of [LEDPanelAPI] *)

Module ws.

Inductive ReadyState := CONNECTING | OPEN | CLOSING | CLOSED.

#[global] Instance ReadyState_eq_dec : EqDecision ReadyState.
Proof. solve_decision. Defined.

(** A function value, known by its identity. *)
Definition Callback := nat.

(** A [WebSocket] object made by [connectWebSocket].  Its four handlers
    are the closures of that call: they reach the client through [this]
    and remember the call's argument [onMessage]. *)
Record WebSocket := {
  url : string;
  readyState : ReadyState;
  onMessage : Callback
}.

(** A pending [setTimeout(() => this.connectWebSocket(onMessage), delay)]. *)
Record Timeout := {
  id : Z;
  delay : Z;
  reconnect_with : Callback
}.

(** The private fields of the client; [ws] refers to a socket of the heap. *)
Record LEDPanelAPI := {
  baseUrl : string;
  ws : option nat;
  wsReconnectTimer : option Z;
  statusCallbacks : list Callback
}.

(** The client together with the part of the browser it lives in: every
    socket constructed so far (a socket is named by its position), the
    timeouts not yet fired or cleared, and the next timeout handle
    (handles are positive and never reused). *)
Record Runtime := {
  this : LEDPanelAPI;
  sockets : list WebSocket;
  timeouts : list Timeout;
  next_timeout : Z
}.

(** [new LEDPanelAPI(baseUrl)] *)
Definition create (baseUrl : string) : Runtime :=
  {| this := {| baseUrl := baseUrl; ws := None; wsReconnectTimer := None;
                statusCallbacks := [] |};
     sockets := []; timeouts := []; next_timeout := 1 |}.

(** What a run lets one observe. *)
Inductive Obs :=
| Entered (onMessage : Callback)
    (** [connectWebSocket(onMessage)] was called, by the application or by a timeout *)
| Constructed (url : string)
    (** [new WebSocket(url)] returned a socket *)
| Invoked (callback : Callback) (message : WebSocketMessage)
    (** [callback(message)] *)
| Console (line : string).

Definition with_this (f : LEDPanelAPI -> LEDPanelAPI) (rt : Runtime) : Runtime :=
  {| this := f (this rt); sockets := sockets rt; timeouts := timeouts rt;
     next_timeout := next_timeout rt |}.

Definition set_ws (v : option nat) (a : LEDPanelAPI) : LEDPanelAPI :=
  {| baseUrl := baseUrl a; ws := v; wsReconnectTimer := wsReconnectTimer a;
     statusCallbacks := statusCallbacks a |}.
Definition set_wsReconnectTimer (v : option Z) (a : LEDPanelAPI) : LEDPanelAPI :=
  {| baseUrl := baseUrl a; ws := ws a; wsReconnectTimer := v;
     statusCallbacks := statusCallbacks a |}.
Definition set_statusCallbacks (v : list Callback) (a : LEDPanelAPI) : LEDPanelAPI :=
  {| baseUrl := baseUrl a; ws := ws a; wsReconnectTimer := wsReconnectTimer a;
     statusCallbacks := v |}.

Definition set_readyState (v : ReadyState) (s : WebSocket) : WebSocket :=
  {| url := url s; readyState := v; onMessage := onMessage s |}.

(** [this.ws?.readyState] *)
Definition ws_readyState (rt : Runtime) : option ReadyState :=
  i ← ws (this rt); readyState <$> sockets rt !! i.

(** [clearTimeout(handle)] *)
Definition clearTimeout (handle : Z) (rt : Runtime) : Runtime :=
  {| this := this rt; sockets := sockets rt;
     timeouts := filter (fun t => id t ≠ handle) (timeouts rt);
     next_timeout := next_timeout rt |}.

(** [setTimeout(() => this.connectWebSocket(onMessage), delay)] *)
Definition setTimeout (onMessage : Callback) (delay : Z) (rt : Runtime) : Z * Runtime :=
  (next_timeout rt,
   {| this := this rt; sockets := sockets rt;
      timeouts := timeouts rt ++ [{| id := next_timeout rt; delay := delay;
                                     reconnect_with := onMessage |}];
      next_timeout := next_timeout rt + 1 |}).

(** [socket.close()]: starts the closing handshake of a socket that is
    connecting or open; the browser delivers the close event later. *)
Definition close (i : nat) (rt : Runtime) : Runtime :=
  {| this := this rt;
     sockets := alter (fun s => match readyState s with
                                | CONNECTING | OPEN => set_readyState CLOSING s
                                | CLOSING | CLOSED => s
                                end) i (sockets rt);
     timeouts := timeouts rt; next_timeout := next_timeout rt |}.

(** [this.baseUrl.replace('http', 'ws')]: the first occurrence only. *)
Fixpoint replace_http (s : string) : string :=
  match s with
  | EmptyString => EmptyString
  | String c rest =>
      if String.prefix "http" s then "ws" +:+ String.substring 4 (String.length s - 4) s
      else String c (replace_http rest)
  end.

Section Client.

(** Whether [new WebSocket(url)] returns a socket; it throws on a URL
    the browser does not accept. *)
Variable accepts : string -> bool.

Definition connectWebSocket (onMessage : Callback) (rt : Runtime) : Runtime * list Obs :=
  let rt := with_this (fun a => set_statusCallbacks (statusCallbacks a ++ [onMessage]) a) rt in
  if decide (ws_readyState rt = Some OPEN) then (rt, [Entered onMessage])
  else
    let wsUrl := replace_http (baseUrl (this rt)) +:+ "/ws" in
    if accepts wsUrl then
      let socket := {| url := wsUrl; readyState := CONNECTING; onMessage := onMessage |} in
      ({| this := set_ws (Some (length (sockets rt))) (this rt);
          sockets := sockets rt ++ [socket];
          timeouts := timeouts rt; next_timeout := next_timeout rt |},
       [Entered onMessage; Constructed wsUrl])
    else (rt, [Entered onMessage; Console "Failed to create WebSocket:"]).

Definition onopen (rt : Runtime) : Runtime * list Obs :=
  (match wsReconnectTimer (this rt) with
   | Some handle =>
       if truthy_num (Some handle) then
         with_this (set_wsReconnectTimer None) (clearTimeout handle rt)
       else rt
   | None => rt
   end,
   [Console "WebSocket connected"]).

(** [data] is [JSON.parse(event.data)], or nothing when it throws.
    Callbacks are taken to return normally. *)
Definition onmessage (data : option WebSocketMessage) (rt : Runtime) : Runtime * list Obs :=
  match data with
  | Some message => (rt, (fun callback => Invoked callback message) <$> statusCallbacks (this rt))
  | None => (rt, [Console "Failed to parse WebSocket message:"])
  end.

Definition onerror (rt : Runtime) : Runtime * list Obs :=
  (rt, [Console "WebSocket error:"]).

(** The handler of the socket made by the call [connectWebSocket(onMessage)]. *)
Definition onclose (onMessage : Callback) (rt : Runtime) : Runtime * list Obs :=
  let '(handle, rt) := setTimeout onMessage 3000 rt in
  (with_this (set_wsReconnectTimer (Some handle)) rt, [Console "WebSocket disconnected"]).

Definition disconnectWebSocket (rt : Runtime) : Runtime :=
  let rt :=
    match wsReconnectTimer (this rt) with
    | Some handle =>
        if truthy_num (Some handle) then
          with_this (set_wsReconnectTimer None) (clearTimeout handle rt)
        else rt
    | None => rt
    end in
  let rt :=
    match ws (this rt) with
    | Some i => with_this (set_ws None) (close i rt)
    | None => rt
    end in
  with_this (set_statusCallbacks []) rt.

(** [indexOf] then [splice(index, 1)]: the first occurrence goes. *)
Fixpoint remove_first (callback : Callback) (l : list Callback) : list Callback :=
  match l with
  | [] => []
  | c :: l => if decide (c = callback) then l else c :: remove_first callback l
  end.

Definition removeStatusCallback (callback : Callback) (rt : Runtime) : Runtime :=
  with_this (fun a => set_statusCallbacks (remove_first callback (statusCallbacks a)) a) rt.

(** What can happen to the client: the application calls a method, or
    the browser delivers an event to a socket or fires a timeout. *)
Inductive Event :=
| Call_connectWebSocket (onMessage : Callback)
| Call_disconnectWebSocket
| Call_removeStatusCallback (callback : Callback)
| Opens (socket : nat)
| Receives (socket : nat) (data : option WebSocketMessage)
| Errors (socket : nat)
| Closes (socket : nat)
| Fires (handle : Z).

Definition set_socket (i : nat) (v : ReadyState) (rt : Runtime) : Runtime :=
  {| this := this rt; sockets := alter (set_readyState v) i (sockets rt);
     timeouts := timeouts rt; next_timeout := next_timeout rt |}.

(** An event the browser cannot deliver in the current state (a message
    on a socket that is not open, a timeout already cleared) changes
    nothing. *)
Definition step (e : Event) (rt : Runtime) : Runtime * list Obs :=
  match e with
  | Call_connectWebSocket onMessage => connectWebSocket onMessage rt
  | Call_disconnectWebSocket => (disconnectWebSocket rt, [])
  | Call_removeStatusCallback callback => (removeStatusCallback callback rt, [])
  | Opens i =>
      match sockets rt !! i with
      | Some s => if decide (readyState s = CONNECTING) then onopen (set_socket i OPEN rt)
                  else (rt, [])
      | None => (rt, [])
      end
  | Receives i data =>
      match sockets rt !! i with
      | Some s => if decide (readyState s = OPEN) then onmessage data rt else (rt, [])
      | None => (rt, [])
      end
  | Errors i =>
      match sockets rt !! i with
      | Some s => if decide (readyState s = CLOSED) then (rt, []) else onerror rt
      | None => (rt, [])
      end
  | Closes i =>
      match sockets rt !! i with
      | Some s => if decide (readyState s = CLOSED) then (rt, [])
                  else onclose (onMessage s) (set_socket i CLOSED rt)
      | None => (rt, [])
      end
  | Fires handle =>
      match list_find (fun t => id t = handle) (timeouts rt) with
      | Some (_, t) => connectWebSocket (reconnect_with t) (clearTimeout handle rt)
      | None => (rt, [])
      end
  end.

Fixpoint steps (es : list Event) (rt : Runtime) : Runtime * list Obs :=
  match es with
  | [] => (rt, [])
  | e :: es =>
      let '(rt, o) := step e rt in
      let '(rt, o') := steps es rt in
      (rt, o ++ o')
  end.

(** The number of calls of [connectWebSocket] a run has seen. *)
Definition entered (o : list Obs) : nat :=
  length (omap (fun x => match x with Entered c => Some c | _ => None end) o).

(** The sockets a run has constructed. *)
Definition constructed (o : list Obs) : list string :=
  omap (fun x => match x with Constructed u => Some u | _ => None end) o.

End Client.
End ws.

(** ** A panel to run the programs against *)

Module Sample.

Definition respond {A} (a : A) : Http A :=
  Responded {| ok := true; statusText := "OK"; json := Parsed a;
               error_json := Parsed (JObject []) |}.

(** A 500 answer with a detail message. *)
Definition refuse {A} (message : string) : Http A :=
  Responded {| ok := false; statusText := "Internal Server Error";
               json := Unparsable (JsError "Unexpected token");
               error_json := Parsed (JObject [("detail", JString message)]) |}.

Definition info : DeviceInfo :=
  {| width := 16; height := 16; device_type := 1; led_type := 0; has_wifi := false |}.

Definition panel_1 : Device :=
  {| name := "Panel-1"; address := "11:22:33"; rssi := Some (-60) |}.

(** A service whose panel is connected and accepts every request. *)
Definition panel : Backend := fun _ c =>
  match c with
  | GET_root => respond (JObject [("status", JString "ok")])
  | GET_devices_scan => respond [panel_1]
  | GET_devices_status =>
      respond {| connected := true; device_address := Some "AA:BB:CC" |}
  | GET_panel_device_info => respond info
  | _ => respond {| status := "ok" |}
  end.

(** The same service, except that it cannot describe its panel. *)
Definition no_info : Backend := fun h c =>
  match c with
  | GET_panel_device_info => refuse "Device not responding"
  | _ => panel h c
  end.

(** The same service, except that it fails to disconnect. *)
Definition no_disconnect : Backend := fun h c =>
  match c with
  | POST_devices_disconnect => refuse "Disconnect failed"
  | _ => panel h c
  end.

(** The same service, except that scans fail. *)
Definition no_scan : Backend := fun h c =>
  match c with
  | GET_devices_scan => refuse "Bluetooth is off"
  | _ => panel h c
  end.

(** [coords.split(',').map(Number)] on the keys [handlePixelClick]
    writes: two decimal integers separated by a comma. *)
Fixpoint digits (s : string) (acc : Z) : Z :=
  match s with
  | EmptyString => acc
  | String c rest => digits rest (10 * acc + (Z.of_nat (nat_of_ascii c) - 48))
  end.

Definition Number (s : string) : Z :=
  match s with
  | String "-" rest => - digits rest 0
  | _ => digits s 0
  end.

Fixpoint split_comma (s : string) : string * string :=
  match s with
  | EmptyString => (EmptyString, EmptyString)
  | String c rest =>
      if Ascii.eqb c ","%char then (EmptyString, rest)
      else let '(x, y) := split_comma rest in (String c x, y)
  end.

Definition parse_coords (coords : string) : Z * Z :=
  let '(x, y) := split_comma coords in (Number x, Number y).

(** The page after a connect that went through. *)
Definition page_connected : World App.State :=
  new_world (store (run panel (App.handleConnect "AA:BB:CC") (new_world App.initial)).2).

(** The store after a connect that went through. *)
Definition store_connected : World AppContext.State :=
  new_world (store (run panel (AppContext.connect "11:22:33")
                      (new_world AppContext.initial)).2).

Definition hello : TextRequest :=
  {| text := "Hello!"; color := Some "FF00FF"; font := Some "CUSONG";
     animation := Some 0; speed := Some 80; rainbow_mode := Some 0;
     char_height := None |}.

(** The client of the application, in a browser that accepts its URL,
    after the events [es]. *)
Definition client_after (es : list ws.Event) : ws.Runtime * list ws.Obs :=
  ws.steps (fun _ => true) es (ws.create "http://127.0.0.1:8000").

End Sample.

(** ** Answers of the service *)

(** The value an [api] method returns for an answer of the service: the
    method throws unless the service responded, the response is [ok] and
    its body parses. *)
Definition delivered {A} (h : Http A) : option A :=
  match h with
  | Responded r =>
      if ok r then match json r with Parsed a => Some a | Unparsable _ => None end
      else None
  | Rejected _ => None
  end.

(** ** What the specification calls a rejected command *)

(** The page's [NotConnected]: the error it shows when it turns a command
    down for lack of a connection. *)
Definition NotConnected : Toast := toast_error "Connect to device first".

(** The command was turned down: the error was shown and no request left. *)
Definition rejected_not_connected (w w' : World App.State) : Prop :=
  toasts w' = toasts w ++ [NotConnected] /\ calls w' = calls w.

(** ** Programs that leave a part of the state alone *)

(** [frames proj p]: no state update of [p] changes the part [proj] of
    the state. *)
Fixpoint frames {S A T} (proj : S -> T) (p : Prog S A) : Prop :=
  match p with
  | Ret _ | Throw _ => True
  | Act (SetState f) k => (forall s, proj (f s) = proj s) /\ frames proj k
  | Act _ k => frames proj k
  | Await c k => forall r, frames proj (k r)
  end.

(** ** Runs of the push channel *)

Section Runs.
Import ws.

(** The events that come from the browser, not from the application. *)
Definition browser (e : Event) : Prop :=
  match e with
  | Opens _ | Receives _ _ | Errors _ | Closes _ | Fires _ => True
  | _ => False
  end.

(** The runs in which the application only subscribes, always with the
    callback [cb]: every call of [connectWebSocket] passes [cb], and
    nothing is torn down or removed; the browser may do what it likes. *)
Definition subscribes (cb : Callback) (e : Event) : Prop :=
  match e with
  | Call_connectWebSocket onMessage => onMessage = cb
  | Call_disconnectWebSocket | Call_removeStatusCallback _ => False
  | Opens _ | Receives _ _ | Errors _ | Closes _ | Fires _ => True
  end.

(** In such a run [cb] is all the client knows: it fills the callback
    list, and every socket and every pending timeout remembers it. *)
Definition knows_only (cb : Callback) (n : nat) (rt : Runtime) : Prop :=
  statusCallbacks (this rt) = replicate n cb /\
  Forall (fun s => onMessage s = cb) (sockets rt) /\
  Forall (fun t => reconnect_with t = cb) (timeouts rt).

(** After one subscription, whatever the browser does: only the newest
    socket can be live, and then no timeout is pending; at most one
    timeout is pending, and the client holds its handle. *)
Definition tidy (rt : Runtime) : Prop :=
  (forall i s, sockets rt !! i = Some s -> readyState s <> CLOSED ->
     S i = length (sockets rt) /\ timeouts rt = []) /\
  (timeouts rt = [] \/
   exists t, timeouts rt = [t] /\ wsReconnectTimer (this rt) = Some (id t) /\ id t <> 0) /\
  0 < next_timeout rt.

(** Nothing can happen any more: every socket is closed. *)
Definition all_closed (rt : Runtime) : Prop :=
  Forall (fun s => readyState s = CLOSED) (sockets rt).

End Runs.

(** The callbacks a run has invoked, in order. *)
Definition invoked (o : list ws.Obs) : list ws.Callback :=
  omap (fun x => match x with ws.Invoked c _ => Some c | _ => None end) o.

(** How often a run has invoked [callback]. *)
Definition times (callback : ws.Callback) (o : list ws.Obs) : nat :=
  length (filter (eq callback) (invoked o)).

(** ** services/api.ts: the methods by the request they send *)

(** What the method that sends the request [c] returns: [ping] a
    boolean, every other method the body of the response. *)
Definition Result (c : Call) : Type :=
  match c with
  | GET_root => bool
  | _ => Body c
  end.

(** The method of [LEDPanelAPI] that sends the request [c]. *)
Definition api_method {S} (c : Call) : Prog S (Result c) :=
  match c return Prog S (Result c) with
  | GET_root => api.ping
  | GET_devices_scan => api.scanDevices
  | POST_devices_connect deviceAddress => api.connect deviceAddress
  | POST_devices_disconnect => api.disconnect
  | GET_devices_status => api.getStatus
  | POST_panel_text request => api.sendText request
  | POST_panel_image file => api.sendImage file
  | POST_panel_mode mode => api.setMode mode
  | POST_panel_brightness request => api.setBrightness request
  | POST_panel_orientation request => api.setOrientation request
  | GET_panel_device_info => api.getDeviceInfo
  | POST_panel_pixels pixels => api.sendPixels pixels
  | POST_panel_mode_clock settings => api.setClockMode settings
  | POST_panel_mode_rhythm settings => api.setRhythmMode settings
  | POST_panel_mode_rhythm2 settings => api.setRhythmMode2 settings
  | POST_panel_power request => api.setPower request
  end.

(** The message of the [Error] a method throws on a response that is not
    [ok]: the status text after a prefix, a fixed text, or the detail of
    the error body with a default. *)
Inductive Failure :=
| WithStatusText (prefix : string)
| Fixed (message : string)
| DetailOr (default : string).

(** How a method that reports failures by the rule [f] ends, by the
    answer of the service. *)
Definition outcome {A} (f : Failure) (answer : Http A) : Outcome A :=
  match answer with
  | Rejected e => Thrown e
  | Responded r =>
      if ok r then
        match json r with
        | Parsed body => Returned body
        | Unparsable e => Thrown e
        end
      else
        match f with
        | WithStatusText prefix => Thrown (JsError (prefix +:+ statusText r))
        | Fixed message => Thrown (JsError message)
        | DetailOr default =>
            match error_json r with
            | Parsed JNull => Thrown (TypeError "detail")
            | Parsed error => Thrown (JsError (message_or (get "detail" error) default))
            | Unparsable e => Thrown e
            end
        end
  end.

(** What [ping] answers: whether the service responded, with whatever
    status code, a JSON body whose [status] is the string ["ok"]. *)
Definition pong (answer : Http JSON) : bool :=
  match answer with
  | Responded r =>
      match json r with
      | Parsed data => is_string "ok" (get "status" data)
      | Unparsable _ => false
      end
  | Rejected _ => false
  end.

(** The sixteen methods by the way they end. *)
Definition expected (c : Call) : Http (Body c) -> Outcome (Result c) :=
  match c with
  | GET_root => fun answer => Returned (pong answer)
  | GET_devices_scan => outcome (WithStatusText "Scan failed: ")
  | POST_devices_connect _ => outcome (WithStatusText "Connection failed: ")
  | POST_devices_disconnect => outcome (WithStatusText "Disconnection failed: ")
  | GET_devices_status => outcome (WithStatusText "Get status failed: ")
  | POST_panel_text _ => outcome (DetailOr "Failed to send text")
  | POST_panel_image _ => outcome (DetailOr "Failed to send image")
  | POST_panel_mode mode =>
      outcome (DetailOr ("Failed to set " +:+ PanelMode_str mode +:+ " mode"))
  | POST_panel_brightness _ => outcome (DetailOr "Failed to set brightness")
  | POST_panel_orientation _ => outcome (DetailOr "Failed to set orientation")
  | GET_panel_device_info => outcome (Fixed "Failed to get device info")
  | POST_panel_pixels _ => outcome (Fixed "Failed to send pixels")
  | POST_panel_mode_clock _ => outcome (Fixed "Failed to set clock mode")
  | POST_panel_mode_rhythm _ => outcome (Fixed "Failed to set rhythm mode")
  | POST_panel_mode_rhythm2 _ => outcome (Fixed "Failed to set rhythm mode 2")
  | POST_panel_power _ => outcome (DetailOr "Failed to set power")
  end.

(** ** App.tsx: the effect that runs when the page mounts *)

Module AppEffects.

Definition checkStatus : Prog App.State unit :=
  try_catch
    (currentStatus ← api.getStatus;
     App.setStatus currentStatus;;
     if connected currentStatus then
       info ← api.getDeviceInfo;
       App.setDeviceInfo (Some info)
     else mret tt)
    (fun error => console_error "Failed to get status:" error).

End AppEffects.

(** ** App.tsx: the canvas of the pixel editor *)

Module PixelCanvas.

(** The cell drawn at position [index] of the grid:
    [x = index % width], [y = Math.floor(index / width)]. *)
Definition cell (deviceInfo : DeviceInfo) (index : Z) : Z * Z :=
  (Z.rem index (width deviceInfo), index `div` width deviceInfo).

(** [Array.from({ length: width * height })]: the positions drawn. *)
Definition indices (deviceInfo : DeviceInfo) : list Z :=
  seqZ 0 (width deviceInfo * height deviceInfo).

(** The colour a cell is drawn in: [pixelGrid[pixelKey] || '#000000']. *)
Definition shown (pixelGrid : gmap string string) (xy : Z * Z) : string :=
  or_else (pixelGrid !! App.key xy.1 xy.2) "#000000".

(** What the canvas shows: for every position its cell, whose click
    handler is [handlePixelClick(x, y)], and the colour of the cell. *)
Definition canvas (deviceInfo : DeviceInfo) (pixelGrid : gmap string string)
  : list (Z * Z * string) :=
  (fun index => (cell deviceInfo index, shown pixelGrid (cell deviceInfo index)))
    <$> indices deviceInfo.

End PixelCanvas.

(** ** App.tsx: the saved designs *)

Module Designs.

Record Design := {
  name : string;
  grid : gmap string string
}.

(** The cells of the page the design handlers read or write, and the
    item ['pixelDesigns'] of [localStorage] ([None] when it is absent).
    The storage is taken to accept every write. *)
#[projections(primitive)] Record State := {
  pixelGrid : gmap string string;
  savedDesigns : list Design;
  designName : string;
  pixelDesigns : option string
}.

Definition setPixelGrid (v : gmap string string) : Prog State unit :=
  set_state (fun s => let 'Build_State _ b c d := s in Build_State v b c d).
Definition setSavedDesigns (v : list Design) : Prog State unit :=
  set_state (fun s => let 'Build_State a _ c d := s in Build_State a v c d).
Definition setDesignName (v : string) : Prog State unit :=
  set_state (fun s => let 'Build_State a b _ d := s in Build_State a b v d).
(** [localStorage.setItem('pixelDesigns', v)] *)
Definition setItem (v : string) : Prog State unit :=
  set_state (fun s => let 'Build_State a b c _ := s in Build_State a b c (Some v)).

(** The double quote character. *)
Definition quote : string := String (ascii_of_nat 34) EmptyString.

Section Handlers.

(** [String.prototype.trim], [JSON.stringify] and [JSON.parse] (which
    throws on a text that is not JSON). *)
Variable trim : string -> string.
Variable stringify : list Design -> string.
Variable parse : string -> Json (list Design).

Variable s : State.

Definition handleSaveDesign : Prog State unit :=
  if negb (truthy_str (Some (trim (designName s)))) then
    toast.error "Please enter a design name"
  else if decide (size (pixelGrid s) = 0%nat) then
    toast.error "No pixels to save"
  else
    let newDesign := {| name := designName s; grid := pixelGrid s |} in
    let updatedDesigns := savedDesigns s ++ [newDesign] in
    setSavedDesigns updatedDesigns;;
    setItem (stringify updatedDesigns);;
    setDesignName "";;
    toast.success ("Design " +:+ quote +:+ designName s +:+ quote +:+ " saved!").

Definition handleLoadDesign (design : Design) : Prog State unit :=
  setPixelGrid (grid design);;
  toast.success ("Design " +:+ quote +:+ name design +:+ quote +:+ " loaded!").

Definition handleDeleteDesign (designName : string) : Prog State unit :=
  let updatedDesigns := filter (fun d => name d ≠ designName) (savedDesigns s) in
  setSavedDesigns updatedDesigns;;
  setItem (stringify updatedDesigns);;
  toast.success ("Design " +:+ quote +:+ designName +:+ quote +:+ " deleted").

(** The effect that loads the saved designs when the page mounts. *)
Definition loadSavedDesigns : Prog State unit :=
  let saved := pixelDesigns s in
  if truthy_str saved then
    match saved with
    | Some saved =>
        try_catch
          (designs ← await_json (parse saved); setSavedDesigns designs)
          (fun error => console_error "Failed to load saved designs:" error)
    | None => mret tt
    end
  else mret tt.

End Handlers.

(** What the user does with the designs. *)
Inductive Action :=
| SaveDesign
| LoadDesign (design : Design)
| DeleteDesign (designName : string)
| TypeName (designName : string)
| Draw (pixelGrid : gmap string string).

Definition handler (trim : string -> string) (stringify : list Design -> string)
    (s : State) (a : Action) : Prog State unit :=
  match a with
  | SaveDesign => handleSaveDesign trim stringify s
  | LoadDesign design => handleLoadDesign design
  | DeleteDesign designName => handleDeleteDesign stringify s designName
  | TypeName designName => setDesignName designName
  | Draw pixelGrid => setPixelGrid pixelGrid
  end.

(** The handlers await nothing: one turn of the event loop runs them. *)
Definition act (trim : string -> string) (stringify : list Design -> string)
    (w : World State) (a : Action) : World State :=
  (advance (handler trim stringify (store w) a) w).2.

(** A run of the page: the actions one after the other, each handled in
    the render it happens in. *)
Definition acts (trim : string -> string) (stringify : list Design -> string)
    (l : list Action) (w : World State) : World State :=
  foldl (act trim stringify) w l.

(** The page after a reload: the [useState] initial values, and the
    storage as it was left. *)
Definition reload (w : World State) : World State :=
  new_world {| pixelGrid := ∅; savedDesigns := []; designName := "";
               pixelDesigns := pixelDesigns (store w) |}.

(** The mount effect, run on the page. *)
Definition mount (parse : string -> Json (list Design)) (w : World State)
    : Turn State unit * World State :=
  advance (loadSavedDesigns parse (store w)) w.

(** The storage holds the text of the list on the page. *)
Definition synced (stringify : list Design -> string) (s : State) : Prop :=
  pixelDesigns s = Some (stringify (savedDesigns s)).

(** What [handleSaveDesign] accepts: a name that is not blank and a
    grid with a pixel. *)
Definition storable (trim : string -> string) (d : Design) : Prop :=
  trim (name d) <> "" /\ grid d <> ∅.

End Designs.

(** Stand-ins for the three library functions, to run the design
    handlers: a [trim] for names without blanks, a [stringify] that
    writes the names only, and a [parse] that reads back the texts
    [stringify] writes for the empty list and for the list of the one
    design [heart], and rejects every other text. *)
Module SampleDesigns.

Definition trim (s : string) : string := s.

Definition stringify (l : list Designs.Design) : string :=
  "[" +:+ String.concat "," (Designs.name <$> l) +:+ "]".

Definition dot : gmap string string := {[ App.key 0 0 := "#FF00FF" ]}.

Definition heart : Designs.Design :=
  {| Designs.name := "heart"; Designs.grid := dot |}.

Definition parse (t : string) : Json (list Designs.Design) :=
  if String.eqb t (stringify []) then Parsed []
  else if String.eqb t (stringify [heart]) then Parsed [heart]
  else Unparsable (JsError "Unexpected token").

Definition page : World Designs.State :=
  new_world {| Designs.pixelGrid := ∅; Designs.savedDesigns := [];
               Designs.designName := ""; Designs.pixelDesigns := None |}.

(** A page that has nothing saved, and whose storage says so. *)
Definition empty_page : World Designs.State :=
  new_world {| Designs.pixelGrid := ∅; Designs.savedDesigns := [];
               Designs.designName := ""; Designs.pixelDesigns := Some "[]" |}.

End SampleDesigns.

(** ** App.tsx: the keys of the grid *)

(** No character of the string is a comma. *)
Fixpoint no_comma (s : string) : Prop :=
  match s with
  | EmptyString => True
  | String c rest => c <> ","%char /\ no_comma rest
  end.

(** The keys [handlePixelClick] writes: every key of the grid names a
    cell. *)
Definition keys_are_cells (pixelGrid : gmap string string) : Prop :=
  forall k, is_Some (pixelGrid !! k) -> exists x y, k = App.key x y.

(** Clicks on the page, one after the other, each by the handler of the
    render it happens in. *)
Definition clicks (cells : list (Z * Z)) (w : World App.State) : World App.State :=
  foldl (fun w '(x, y) => (advance (App.handlePixelClick (store w) x y) w).2) w cells.

(** ** context/AppContext.tsx: what a consistent session is *)

(** The three session fields of the store agree: the address and the
    capabilities are there exactly when connected is true. *)
Definition session_consistent (s : AppContext.State) : Prop :=
  (is_Some (AppContext.deviceAddress s) <-> AppContext.connected s = true) /\
  (is_Some (AppContext.deviceInfo s) <-> AppContext.connected s = true).

(** The store after [connect(address)] went through with [info]. *)
Definition connected_to (address : string) (info : DeviceInfo) (s : AppContext.State)
  : AppContext.State :=
  {| AppContext.deviceInfo := Some info;
     AppContext.connected := true;
     AppContext.deviceAddress := Some address;
     AppContext.devices := AppContext.devices s;
     AppContext.scanning := AppContext.scanning s;
     AppContext.status := AppContext.status s |}.

(** ** components/cards/ConnectionCard.tsx *)

Module ConnectionCard.
Section Handlers.

(** The store as the render of the card saw it. *)
Variable s : AppContext.State.

Definition handleScan : Prog AppContext.State unit :=
  try_catch
    (AppContext.scanDevices;;
     toast.success ("Found " +:+ pretty (length (AppContext.devices s)) +:+ " device(s)"))
    (fun error => toast.error "Scan failed").

Definition handleConnect (address : string) : Prog AppContext.State unit :=
  try_catch
    (AppContext.connect address;;
     toast.success "Connected successfully")
    (fun error => toast.error "Connection failed").

Definition handleDisconnect : Prog AppContext.State unit :=
  try_catch
    (AppContext.disconnect;;
     toast.success "Disconnected")
    (fun error => toast.error "Disconnect failed").

End Handlers.
End ConnectionCard.

(** ** context/AppContext.tsx: the provider's subscription to the push channel *)

Module AppProvider.

(** What the store becomes when the client invokes the callback the
    provider registered: each [callback(message)] of the run is a call of
    the provider's status handler. *)
Definition deliver (o : list ws.Obs) (w : World AppContext.State) : World AppContext.State :=
  foldl (fun w ob =>
           match ob with
           | ws.Invoked _ message => (advance (AppContext.onStatusMessage message) w).2
           | _ => w
           end) w o.

(** The frames of the push channel, applied in turn. *)
Definition frames_in (ms : list WebSocketMessage) (w : World AppContext.State)
  : World AppContext.State :=
  foldl (fun w message => (advance (AppContext.onStatusMessage message) w).2) w ms.

End AppProvider.

(** * Properties *)

(** ** Programs that leave a part of the state alone *)

Section Frames.
Context {S T : Type} (proj : S -> T).

Lemma frames_bind {A B} (p : Prog S A) (f : A -> Prog S B) :
  frames proj p -> (forall a, frames proj (f a)) -> frames proj (p ≫= f).
Proof.
  intros Hp Hf. unfold mbind, Prog_bind.
  induction p as [a|e|a k IH|c k IH]; cbn in *; auto.
  destruct a; cbn in *; intuition auto.
Qed.

Lemma frames_try_catch {A} (p : Prog S A) h :
  frames proj p -> (forall e, frames proj (h e)) -> frames proj (try_catch p h).
Proof.
  intros Hp Hh. induction p as [a|e|a k IH|c k IH]; cbn in *; auto.
  destruct a; cbn in *; intuition auto.
Qed.

Lemma frames_try_finally {A} (p : Prog S A) fin :
  frames proj p -> frames proj fin -> frames proj (try_finally p fin).
Proof.
  intros Hp Hf. induction p as [a|e|a k IH|c k IH]; cbn in *; auto.
  - apply frames_bind; cbn; auto.
  - apply frames_bind; cbn; auto.
  - destruct a; cbn in *; intuition auto.
Qed.

Lemma frames_fetch c : frames proj (fetch c).
Proof. intros [r|e]; exact I. Qed.

Lemma frames_await_json {A} (j : Json A) : frames proj (await_json j).
Proof. destruct j; exact I. Qed.

Lemma frames_set_state (f : S -> S) :
  (forall s, proj (f s) = proj s) -> frames proj (set_state f).
Proof. intros Hf. split; [exact Hf | exact I]. Qed.

(** A program of an embedded component that keeps all of its own state
    keeps what the embedding component sees of it. *)
Lemma frames_lift {U A} (up : (U -> U) -> S -> S) (p : Prog U A) :
  (forall f, (forall u, f u = u) -> forall s, proj (up f s) = proj s) ->
  frames id p -> frames proj (lift up p).
Proof.
  intros Hup. induction p as [a|e|a k IH|c k IH]; cbn; auto.
  destruct a; cbn; intuition auto.
Qed.

Lemma frames_run {A} b (p : Prog S A) w :
  frames proj p -> proj (store (run b p w).2) = proj (store w).
Proof.
  revert w. induction p as [a|e|a k IH|c k IH]; cbn; intros w Hp; auto.
  - destruct a; cbn in *.
    + destruct Hp as [Hf Hk]. rewrite (IH _ Hk). cbn. apply Hf.
    + rewrite (IH _ Hp). reflexivity.
    + rewrite (IH _ Hp). reflexivity.
  - rewrite (IH _ _ (Hp _)). reflexivity.
Qed.

End Frames.

Create HintDb methods.

#[local] Hint Unfold
  api.scanDevices api.connect api.disconnect api.getStatus api.sendText
  api.sendImage api.setMode api.setBrightness api.setOrientation
  api.getDeviceInfo api.sendPixels api.setClockMode api.setPower api.detail
  AppContext.sendText AppContext.sendImage AppContext.setMode
  AppContext.setBrightness AppContext.setOrientation AppContext.setPower
  AppContext.command
  App.handleSendText App.handleImageUpload App.handleSendPixels
  App.handleSetClockMode App.handleSetBrightness App.handleSetOrientation
  App.handleTogglePower App.handler
  App.setBrightness App.setOrientation App.setIsPowered App.setImagePreview
  SettingsCard.handlePowerToggle SettingsCard.setIsPowered : methods.

Ltac frames_step :=
  match goal with
  | |- forall _, _ => intro
  | |- frames _ (_ ≫= _) => apply frames_bind
  | |- frames _ (try_catch _ _) => apply frames_try_catch
  | |- frames _ (try_finally _ _) => apply frames_try_finally
  | |- frames _ (lift _ _) =>
      apply frames_lift; [intros ? ? []; cbn; congruence|]
  | |- frames _ (fetch _) => apply frames_fetch
  | |- frames _ (await_json _) => apply frames_await_json
  | |- frames _ (set_state _) => apply frames_set_state; intros []; reflexivity
  | |- frames _ (throw _) => exact I
  | |- frames _ (mret _) => exact I
  | |- frames _ (toast.success _) => exact I
  | |- frames _ (toast.error _) => exact I
  | |- frames _ (console_error _ _) => exact I
  | |- frames _ (if ?b then _ else _) => destruct b
  | |- frames _ (match ?x with _ => _ end) => destruct x
  | |- frames _ _ => progress (autounfold with methods; cbv zeta)
  end.

Ltac frames_auto := repeat frames_step.

Lemma command_frames c : frames id (AppContext.command c).
Proof. destruct c; frames_auto. Qed.

Lemma handlePowerToggle_frames s :
  frames SettingsCard.ctx (SettingsCard.handlePowerToggle s).
Proof. frames_auto. Qed.

Lemma handler_frames parse_coords s c :
  frames (fun s => (App.status s, App.deviceInfo s)) (App.handler parse_coords s c).
Proof. destruct c; frames_auto. Qed.

(** ** Commands and the session *)

(** Answer the request the program under [run] is waiting for, in every
    way the service can. *)
Ltac answer b :=
  match goal with
  | |- context [b ?h ?c] =>
      destruct (b h c) as [[[] ? [] [[|?|? ?|?|?|?]|?]]|?]; cbn
  end.

Lemma scanDevices_frames :
  frames (fun s => (AppContext.connected s, AppContext.deviceAddress s,
                    AppContext.deviceInfo s, AppContext.status s))
         AppContext.scanDevices.
Proof.
  unfold AppContext.scanDevices. frames_auto;
    unfold AppContext.setScanning, AppContext.setDevices; frames_auto.
Qed.

Lemma handleScan_frames :
  frames (fun s => (App.status s, App.deviceInfo s)) App.handleScan.
Proof.
  unfold App.handleScan. frames_auto;
    unfold App.setScanning, App.setDevices; frames_auto.
Qed.

(** C8, amended. A command submission never changes the session:
    whatever the service answers, and so in particular when the command
    fails, the store's command methods leave the whole store as it was,
    the settings card's power toggle leaves the store it embeds as it
    was, and the page's command handlers leave its status and
    capabilities as they were.  Nor does a scan change it, in the store
    or on the page, or a click on the canvas: of the store's methods
    that leaves [connect], [disconnect] and the push-channel callback
    to change the session, and on the page [handleConnect],
    [handleDisconnect] and the status check made when the page
    mounts. *)
Theorem commands_keep_session :
  (forall b c w, store (run b (AppContext.command c) w).2 = store w) /\
  (forall b s w,
      SettingsCard.ctx (store (run b (SettingsCard.handlePowerToggle s) w).2)
      = SettingsCard.ctx (store w)) /\
  (forall parse_coords b c w,
      App.status (store (App.submit parse_coords b c w).2) = App.status (store w) /\
      App.deviceInfo (store (App.submit parse_coords b c w).2) = App.deviceInfo (store w)) /\
  (forall b w,
      let after := store (run b AppContext.scanDevices w).2 in
      AppContext.connected after = AppContext.connected (store w) /\
      AppContext.deviceAddress after = AppContext.deviceAddress (store w) /\
      AppContext.deviceInfo after = AppContext.deviceInfo (store w) /\
      AppContext.status after = AppContext.status (store w)) /\
  (forall b s x y w,
      let scanned := store (run b App.handleScan w).2 in
      let clicked := store (run b (App.handlePixelClick s x y) w).2 in
      App.status scanned = App.status (store w) /\
      App.deviceInfo scanned = App.deviceInfo (store w) /\
      App.status clicked = App.status (store w) /\
      App.deviceInfo clicked = App.deviceInfo (store w)).
Proof.
  split; [|split; [|split; [|split]]].
  - intros b c w. apply (frames_run id), command_frames.
  - intros b s w. apply (frames_run SettingsCard.ctx), handlePowerToggle_frames.
  - intros pc b c w. unfold App.submit.
    pose proof (frames_run (fun s => (App.status s, App.deviceInfo s)) b
                  (App.handler pc (store w) c) w (handler_frames _ _ _)) as H.
    cbn in H. split; congruence.
  - intros b w.
    pose proof (frames_run _ b AppContext.scanDevices w scanDevices_frames) as H.
    cbv beta in H. injection H as H1 H2 H3 H4. cbv zeta. repeat split; assumption.
  - intros b s x y w.
    pose proof (frames_run _ b App.handleScan w handleScan_frames) as H.
    cbv beta in H. injection H as H1 H2. cbv zeta.
    split; [exact H1|]. split; [exact H2|]. split; reflexivity.
Qed.

(** C8 as stated fails: on the page the session changes without a
    connect, a disconnect or a frame.  The status check made when the
    page mounts asks the service for its status and stores the answer,
    and the capabilities with it. *)
Lemma mount_check_changes_the_page_session :
  let result := run Sample.panel AppEffects.checkStatus (new_world App.initial) in
  calls result.2 = [GET_devices_status; GET_panel_device_info] /\
  App.status App.initial = {| connected := false; device_address := None |} /\
  App.deviceInfo App.initial = None /\
  App.status (store result.2) = {| connected := true; device_address := Some "AA:BB:CC" |} /\
  App.deviceInfo (store result.2) = Some Sample.info.
Proof. repeat split; reflexivity. Qed.

(** The store's command methods check nothing: each sends its request. *)
Lemma command_always_calls b c w :
  calls (run b (AppContext.command c) w).2 = calls w ++ [AppContext.request_of c].
Proof.
  destruct c; cbn; answer b; reflexivity.
Qed.

(** C1, amended. While the page's status is not connected, its handler
    for each of the seven command families sends no request, writes
    nothing to the console and returns normally.  The text, image,
    pixel, mode and power handlers show "Connect to device first"; the
    brightness and orientation handlers record the value in the page's
    state and return without a word.  The image handler has set the
    preview of the chosen file before it makes the check; apart from
    that preview and the two recorded values the page's state is as it
    was. *)
Theorem disconnected_handlers_send_nothing parse_coords b c w :
  connected (App.status (store w)) = false ->
  let result := App.submit parse_coords b c w in
  result.1 = Returned tt /\
  calls result.2 = calls w /\
  console result.2 = console w /\
  toasts result.2 = toasts w ++ match c with
                                | App.SetBrightness _ | App.SetOrientation _ => []
                                | _ => [NotConnected]
                                end /\
  store result.2
  = match c with
    | App.SetBrightness value => store (advance (App.setBrightness value) w).2
    | App.SetOrientation value => store (advance (App.setOrientation value) w).2
    | App.SendImage file =>
        store (advance (App.setImagePreview (Some (App.createObjectURL file))) w).2
    | _ => store w
    end /\
  match c with
  | App.SetBrightness value => App.brightness (store result.2) = value
  | App.SetOrientation value => App.orientation (store result.2) = value
  | App.SendImage file =>
      App.imagePreview (store result.2) = Some (App.createObjectURL file)
  | _ => True
  end.
Proof.
  intros H. unfold App.submit.
  destruct c; cbn; autounfold with methods; rewrite ?H; cbn;
    rewrite ?app_nil_r; repeat split; reflexivity.
Qed.

Lemma disconnected_handlers_send_nothing_witness :
  connected (App.status (store (new_world App.initial))) = false /\
  calls (App.submit Sample.parse_coords Sample.panel App.SendText
           (new_world App.initial)).2 = [] /\
  toasts (App.submit Sample.parse_coords Sample.panel App.SendText
            (new_world App.initial)).2 = [NotConnected] /\
  calls (App.submit Sample.parse_coords Sample.panel (App.SetBrightness 80)
           (new_world App.initial)).2 = [] /\
  App.brightness (store (App.submit Sample.parse_coords Sample.panel (App.SetBrightness 80)
                           (new_world App.initial)).2) = 80.
Proof.
  assert (connected (App.status (store (new_world App.initial))) = false) as H
    by reflexivity.
  split; [exact H|].
  pose proof (disconnected_handlers_send_nothing Sample.parse_coords Sample.panel
                App.SendText (new_world App.initial) H) as Htext.
  pose proof (disconnected_handlers_send_nothing Sample.parse_coords Sample.panel
                (App.SetBrightness 80) (new_world App.initial) H) as Hslider.
  cbv zeta in Htext, Hslider.
  destruct Htext as (_ & Hcalls & _ & Htoasts & _).
  destruct Hslider as (_ & Hcalls' & _ & _ & _ & Hvalue).
  split; [exact Hcalls|]. split; [exact Htoasts|]. split; [exact Hcalls'|exact Hvalue].
Defined.

(** The cards make the same check on the status the store mirrors from
    the push channel. *)
Lemma disconnected_cards_send_nothing b :
  (forall s file w,
      connected (AppContext.status (EditorCard.ctx s)) = false ->
      calls (run b (EditorCard.handleSendText s) w).2 = calls w /\
      calls (run b (EditorCard.handleImageUpload s file) w).2 = calls w) /\
  (forall s modeId w,
      connected (AppContext.status s) = false ->
      calls (run b (ModesCard.handleModeChange s modeId) w).2 = calls w) /\
  (forall s value w,
      connected (AppContext.status (SettingsCard.ctx s)) = false ->
      calls (run b (SettingsCard.handleBrightnessChange s value) w).2 = calls w /\
      calls (run b (SettingsCard.handleOrientationChange s value) w).2 = calls w /\
      calls (run b (SettingsCard.handlePowerToggle s) w).2 = calls w).
Proof.
  split; [|split]; intros s ? w Hoff; repeat split;
    unfold EditorCard.handleSendText, EditorCard.handleImageUpload,
      ModesCard.handleModeChange, SettingsCard.handleBrightnessChange,
      SettingsCard.handleOrientationChange, SettingsCard.handlePowerToggle;
    cbn; rewrite Hoff; reflexivity.
Qed.

(** C1 as stated fails: on the disconnected page a brightness command is
    not turned down with an error, and the store's [sendText], called
    while the store is disconnected, sends its request. *)
Lemma disconnected_brightness_is_silent :
  let w := new_world App.initial in
  connected (App.status (store w)) = false /\
  ~ rejected_not_connected w
      (App.submit Sample.parse_coords Sample.panel (App.SetBrightness 50) w).2 /\
  AppContext.connected AppContext.initial = false /\
  calls (run Sample.panel (AppContext.sendText Sample.hello)
           (new_world AppContext.initial)).2 = [POST_panel_text Sample.hello].
Proof.
  cbn. repeat split; try reflexivity.
  intros [H _]. discriminate H.
Qed.

(** C5, amended. Of the four constraints only the non-empty pixel list is
    checked before a request leaves: on the connected page an empty grid
    is turned down with "No pixels to send" and no request, and a grid
    with a pixel starts by requesting the DIY mode.  Brightness,
    orientation and text are not checked: whatever the value, and also
    for the empty text, the request is sent. *)
Theorem only_the_pixel_list_is_checked parse_coords b w :
  connected (App.status (store w)) = true ->
  let submit c := (App.submit parse_coords b c w).2 in
  (App.pixelGrid (store w) = ∅ ->
   calls (submit App.SendPixels) = calls w /\
   toasts (submit App.SendPixels) = toasts w ++ [toast_error "No pixels to send"]) /\
  (App.pixelGrid (store w) <> ∅ ->
   exists more, calls (submit App.SendPixels) = calls w ++ POST_panel_mode diy :: more) /\
  (forall value,
      calls (submit (App.SetBrightness value))
      = calls w ++ [POST_panel_brightness {| brightness := value |}]) /\
  (forall value,
      calls (submit (App.SetOrientation value))
      = calls w ++ [POST_panel_orientation {| orientation := value |}]) /\
  calls (submit App.SendText)
  = calls w ++ [POST_panel_text {| text := App.text (store w);
                                   color := Some (App.textColor (store w));
                                   font := Some (App.font (store w));
                                   animation := Some (App.animation (store w));
                                   speed := Some (App.speed (store w));
                                   rainbow_mode := Some (App.rainbowMode (store w));
                                   char_height := App.charHeight (store w) |}].
Proof.
  intros H submit. subst submit. unfold App.submit. cbn.
  autounfold with methods. rewrite H. cbn.
  split; [|split; [|split; [|split]]].
  - intros Hempty. rewrite Hempty. split; reflexivity.
  - intros Hne. destruct (decide (size (App.pixelGrid (store w)) = 0%nat)) as [Hz|Hz].
    + apply map_size_empty_iff in Hz. contradiction.
    + cbn. answer b; try (eexists; reflexivity);
        answer b; rewrite <- app_assoc; eexists; reflexivity.
  - intros value. answer b; reflexivity.
  - intros value. answer b; reflexivity.
  - answer b; reflexivity.
Qed.

Lemma only_the_pixel_list_is_checked_witness :
  connected (App.status (store Sample.page_connected)) = true /\
  calls (App.submit Sample.parse_coords Sample.panel (App.SetBrightness 100)
           Sample.page_connected).2
  = [POST_panel_brightness {| brightness := 100 |}].
Proof.
  split; [reflexivity|].
  apply (only_the_pixel_list_is_checked Sample.parse_coords Sample.panel
           Sample.page_connected).
  reflexivity.
Defined.

(** C5 as stated fails: on the connected page the brightness values -1
    and 101 are sent to the service like any other. *)
Lemma brightness_out_of_range_is_sent :
  connected (App.status (store Sample.page_connected)) = true /\
  calls (App.submit Sample.parse_coords Sample.panel (App.SetBrightness (-1))
           Sample.page_connected).2
  = [POST_panel_brightness {| brightness := -1 |}] /\
  calls (App.submit Sample.parse_coords Sample.panel (App.SetBrightness 101)
           Sample.page_connected).2
  = [POST_panel_brightness {| brightness := 101 |}] /\
  calls (run Sample.panel (api.setBrightness {| brightness := -1 |})
           Sample.page_connected).2
  = [POST_panel_brightness {| brightness := -1 |}].
Proof. repeat split; reflexivity. Qed.

(** ** The session life cycle *)

(** The store's [connect] commits nothing before both calls are
    through: when the connect request succeeds and the capability fetch
    fails, the error is thrown to the caller and the store is left
    exactly as it was before the call.  A store that was disconnected
    with no capabilities is so afterwards. *)
Lemma failed_capability_fetch_changes_nothing b address w :
  is_Some (delivered (b (calls w) (POST_devices_connect address))) ->
  delivered (b (calls w ++ [POST_devices_connect address]) GET_panel_device_info) = None ->
  let result := run b (AppContext.connect address) w in
  (exists e, result.1 = Thrown e) /\
  store result.2 = store w /\
  (AppContext.connected (store w) = false ->
   AppContext.deviceInfo (store w) = None ->
   AppContext.connected (store result.2) = false /\
   AppContext.deviceInfo (store result.2) = None).
Proof.
  intros [a Ha] Hinfo. cbn.
  destruct (b (calls w) (POST_devices_connect address))
    as [[[] ? [] ?]|?]; try discriminate Ha. cbn.
  destruct (b (calls w ++ [POST_devices_connect address]) GET_panel_device_info)
    as [[[] ? [] ?]|?]; try discriminate Hinfo; cbn; eauto.
Qed.

Lemma failed_capability_fetch_changes_nothing_witness :
  let result := run Sample.no_info (AppContext.connect "AA:BB:CC")
                  (new_world AppContext.initial) in
  is_Some (delivered (Sample.no_info [] (POST_devices_connect "AA:BB:CC"))) /\
  delivered (Sample.no_info [POST_devices_connect "AA:BB:CC"] GET_panel_device_info)
  = None /\
  (exists e, result.1 = Thrown e) /\
  store result.2 = AppContext.initial /\
  (AppContext.connected AppContext.initial = false ->
   AppContext.deviceInfo AppContext.initial = None ->
   AppContext.connected (store result.2) = false /\
   AppContext.deviceInfo (store result.2) = None).
Proof.
  assert (is_Some (delivered (Sample.no_info [] (POST_devices_connect "AA:BB:CC"))))
    as Hconnect by (eexists; reflexivity).
  split; [exact Hconnect|]. split; [reflexivity|].
  apply (failed_capability_fetch_changes_nothing Sample.no_info "AA:BB:CC"
           (new_world AppContext.initial) Hconnect).
  reflexivity.
Defined.

(** C3, at the input where it fails.  The service accepts the connect
    request, reports the panel connected, and fails to describe it.
    The page's [handleConnect] has stored the reported status before it
    fetches the capabilities and does not take it back: from the fresh
    page it ends connected, without capabilities, and shows "Connection
    failed".  The store's [connect], from the fresh store and with the
    same answers, ends disconnected without capabilities, as the claim
    says. *)
Theorem handleConnect_commits_before_the_capabilities :
  let page := run Sample.no_info (App.handleConnect "AA:BB:CC") (new_world App.initial) in
  let shared := run Sample.no_info (AppContext.connect "AA:BB:CC")
                  (new_world AppContext.initial) in
  connected (App.status App.initial) = false /\
  calls page.2 = [POST_devices_connect "AA:BB:CC"; GET_devices_status;
                  GET_panel_device_info] /\
  delivered (Sample.no_info [POST_devices_connect "AA:BB:CC"; GET_devices_status]
               GET_panel_device_info) = None /\
  page.1 = Returned tt /\
  toasts page.2 = [toast_error "Connection failed"] /\
  App.status (store page.2)
  = {| connected := true; device_address := Some "AA:BB:CC" |} /\
  App.deviceInfo (store page.2) = None /\
  calls shared.2 = [POST_devices_connect "AA:BB:CC"; GET_panel_device_info] /\
  shared.1 = Thrown (JsError "Failed to get device info") /\
  AppContext.connected (store shared.2) = false /\
  AppContext.deviceAddress (store shared.2) = None /\
  AppContext.deviceInfo (store shared.2) = None.
Proof. repeat split; reflexivity. Qed.

(** C4, amended. When the remote disconnect succeeds, the store's
    [disconnect] clears the local session (connected is false, address
    and capabilities are gone), and the page's [handleDisconnect] asks
    the service for its status: when that answer arrives the page drops
    its capabilities and takes the reported status, and when it does
    not the page keeps its state and shows "Disconnect failed".  When
    the remote disconnect fails, the local state is left as it was on
    both paths: the store throws the error to its caller, the page
    shows "Disconnect failed" and asks for nothing more. *)
Theorem disconnect_clears_on_success_only b :
  (forall w,
      let result := run b AppContext.disconnect w in
      calls result.2 = calls w ++ [POST_devices_disconnect] /\
      match delivered (b (calls w) POST_devices_disconnect) with
      | Some _ =>
          result.1 = Returned tt /\
          AppContext.connected (store result.2) = false /\
          AppContext.deviceAddress (store result.2) = None /\
          AppContext.deviceInfo (store result.2) = None
      | None =>
          (exists e, result.1 = Thrown e) /\ store result.2 = store w
      end) /\
  (forall w,
      let result := run b App.handleDisconnect w in
      result.1 = Returned tt /\
      match delivered (b (calls w) POST_devices_disconnect) with
      | Some _ =>
          calls result.2 = (calls w ++ [POST_devices_disconnect]) ++ [GET_devices_status] /\
          match delivered (b (calls w ++ [POST_devices_disconnect]) GET_devices_status) with
          | Some newStatus =>
              App.status (store result.2) = newStatus /\
              App.deviceInfo (store result.2) = None /\
              toasts result.2 = toasts w ++ [toast_success "Disconnected"]
          | None =>
              store result.2 = store w /\
              toasts result.2 = toasts w ++ [toast_error "Disconnect failed"]
          end
      | None =>
          calls result.2 = calls w ++ [POST_devices_disconnect] /\
          store result.2 = store w /\
          toasts result.2 = toasts w ++ [toast_error "Disconnect failed"]
      end).
Proof.
  split; intros w; cbn.
  - destruct (b (calls w) POST_devices_disconnect) as [[[] ? [] ?]|?]; cbn.
    all: split; [reflexivity|].
    all: match goal with
         | |- (exists _, _) /\ _ => split; [eexists; reflexivity | reflexivity]
         | _ => repeat split; reflexivity
         end.
  - destruct (b (calls w) POST_devices_disconnect) as [[[] ? [] ?]|?]; cbn.
    all: try (repeat split; reflexivity).
    destruct (b (calls w ++ [POST_devices_disconnect]) GET_devices_status)
      as [[[] ? [newStatus|] ?]|?]; cbn; repeat split; reflexivity.
Qed.

Lemma disconnect_clears_on_success_only_witness :
  let failed := run Sample.no_disconnect App.handleDisconnect Sample.page_connected in
  let done := run Sample.panel AppContext.disconnect Sample.store_connected in
  delivered (Sample.no_disconnect (calls Sample.page_connected) POST_devices_disconnect)
  = None /\
  store failed.2 = store Sample.page_connected /\
  toasts failed.2 = [toast_error "Disconnect failed"] /\
  AppContext.connected (store Sample.store_connected) = true /\
  AppContext.connected (store done.2) = false /\
  AppContext.deviceAddress (store done.2) = None /\
  AppContext.deviceInfo (store done.2) = None.
Proof.
  cbv zeta. split; [reflexivity|].
  pose proof (proj2 (disconnect_clears_on_success_only Sample.no_disconnect)
                Sample.page_connected) as Hpage.
  pose proof (proj1 (disconnect_clears_on_success_only Sample.panel)
                Sample.store_connected) as Hstore.
  cbv zeta in Hpage, Hstore.
  destruct Hpage as (_ & _ & Hkept & Htoast).
  destruct Hstore as (_ & _ & Hc & Ha & Hi).
  split; [exact Hkept|]. split; [exact Htoast|]. split; [reflexivity|].
  split; [exact Hc|]. split; [exact Ha|exact Hi].
Defined.

(** C4 as stated fails: when the remote disconnect fails, the store is
    still connected, with its address and capabilities, and so is the
    page, with its status and capabilities. *)
Lemma failed_disconnect_keeps_session :
  let result := run Sample.no_disconnect AppContext.disconnect Sample.store_connected in
  let page := run Sample.no_disconnect App.handleDisconnect Sample.page_connected in
  result.1 = Thrown (JsError "Disconnection failed: Internal Server Error") /\
  AppContext.connected (store result.2) = true /\
  AppContext.deviceAddress (store result.2) = Some "11:22:33" /\
  AppContext.deviceInfo (store result.2) = Some Sample.info /\
  connected (App.status (store page.2)) = true /\
  App.deviceInfo (store page.2) = Some Sample.info.
Proof. repeat split; reflexivity. Qed.

(** The two lifecycle methods keep "address defined iff connected". *)
Lemma lifecycle_keeps_address_iff_connected b w m :
  (forall msg, m <> AppContext.StatusFrame msg) ->
  AppContext.address_iff_connected (store w) ->
  AppContext.address_iff_connected (store (AppContext.apply b w m)).
Proof.
  intros Hm Hinv. unfold AppContext.apply, AppContext.address_iff_connected in *.
  destruct m as [address| |msg]; [| |exfalso; eapply Hm; reflexivity]; cbn.
  - destruct (b (calls w) (POST_devices_connect address)) as [[[] ? [] ?]|?];
      cbn; auto.
    destruct (b (calls w ++ [POST_devices_connect address]) GET_panel_device_info)
      as [[[] ? [] ?]|?]; cbn; auto.
    split; [reflexivity | eauto].
  - destruct (b (calls w) POST_devices_disconnect) as [[[] ? [] ?]|?]; cbn; auto.
    split; [intros [? ?]; discriminate | discriminate].
Qed.

(** C2, at the input where it fails. After a connect that went through, a
    status frame that reports the session disconnected turns the
    connected flag off and leaves the address in place: the address is
    defined although connected is false. *)
Theorem status_frame_leaves_address :
  let w := AppContext.apply_all Sample.panel
             [AppContext.Connect "11:22:33";
              AppContext.StatusFrame {| type := "status"; ws_connected := false;
                                        ws_device_address := None |}]
             (new_world AppContext.initial) in
  AppContext.connected (store w) = false /\
  AppContext.deviceAddress (store w) = Some "11:22:33" /\
  ~ AppContext.address_iff_connected (store w).
Proof.
  cbn. repeat split; try reflexivity.
  intros [H _]. specialize (H (ex_intro _ _ eq_refl)). discriminate H.
Qed.

(** ** Discovery *)

(** C6, amended. [scanDevices] runs in two turns.  The first sets
    scanning and sends the scan request, whatever the state it starts
    in: it does not look at the scanning flag, so a start while a scan is
    in flight sends a second request (only the scan button is disabled
    meanwhile).  The second turn, when the answer is in, clears scanning
    on success and on failure alike; on success the device list is
    replaced by the devices found, on failure the list is kept and the
    error is thrown to the caller. *)
Theorem scan_start_and_completion :
  exists k : Http (list Device) -> Prog AppContext.State unit,
    (forall w,
        let started := advance AppContext.scanDevices w in
        started.1 = Pending GET_devices_scan k /\
        AppContext.scanning (store started.2) = true /\
        AppContext.devices (store started.2) = AppContext.devices (store w) /\
        calls started.2 = calls w ++ [GET_devices_scan] /\
        toasts started.2 = toasts w) /\
    (forall answer w,
        let completed := advance (k answer) w in
        AppContext.scanning (store completed.2) = false /\
        calls completed.2 = calls w /\
        match delivered answer with
        | Some found =>
            completed.1 = Finished (Returned tt) /\
            AppContext.devices (store completed.2) = found
        | None =>
            (exists e, completed.1 = Finished (Thrown e)) /\
            AppContext.devices (store completed.2) = AppContext.devices (store w)
        end).
Proof.
  eexists. split.
  - intros w. cbn. repeat split; reflexivity.
  - intros [[[] ? [] ?]|?] w; cbn; repeat split; eauto.
Qed.

(** The page's [handleScan] does the same and reports the outcome. *)
Lemma handleScan_start_and_completion :
  exists k : Http (list Device) -> Prog App.State unit,
    (forall w,
        let started := advance App.handleScan w in
        started.1 = Pending GET_devices_scan k /\
        App.scanning (store started.2) = true /\
        calls started.2 = calls w ++ [GET_devices_scan]) /\
    (forall answer w,
        let completed := advance (k answer) w in
        completed.1 = Finished (Returned tt) /\
        App.scanning (store completed.2) = false /\
        match delivered answer with
        | Some found =>
            App.devices (store completed.2) = found /\
            toasts completed.2
            = toasts w ++ [toast_success ("Found " +:+ pretty (length found) +:+ " device(s)")]
        | None =>
            App.devices (store completed.2) = App.devices (store w) /\
            toasts completed.2 = toasts w ++ [toast_error "Scan failed"]
        end).
Proof.
  eexists. split.
  - intros w. cbn. repeat split; reflexivity.
  - intros [[[] ? [] ?]|?] w; cbn; repeat split; eauto.
Qed.

(** C6 as stated fails: a scan started while one is in flight is not
    refused but sent, and a scan that fails leaves the devices of the
    scan before it in the list. *)
Lemma second_scan_is_sent :
  let first := advance AppContext.scanDevices (new_world AppContext.initial) in
  AppContext.scanning (store first.2) = true /\
  let second := advance AppContext.scanDevices first.2 in
  (exists k, second.1 = Pending GET_devices_scan k) /\
  calls second.2 = [GET_devices_scan; GET_devices_scan] /\
  toasts second.2 = [] /\
  let found := (run Sample.panel AppContext.scanDevices (new_world AppContext.initial)).2 in
  AppContext.devices (store found) = [Sample.panel_1] /\
  let failed := run Sample.no_scan AppContext.scanDevices found in
  failed.1 = Thrown (JsError "Scan failed: Internal Server Error") /\
  AppContext.scanning (store failed.2) = false /\
  AppContext.devices (store failed.2) = [Sample.panel_1].
Proof.
  cbn. repeat split; try reflexivity. eexists. reflexivity.
Qed.

(** ** The pixel editor *)

Example key_1_2 : App.key 1 2 = "1,2".
Proof. reflexivity. Qed.

Example parse_coords_key : Sample.parse_coords (App.key 3 (-4)) = (3, -4).
Proof. reflexivity. Qed.

(** One click on the connected page, then "Send Pixels". *)
Example click_then_send :
  let clicked := (run Sample.panel (App.handlePixelClick (store Sample.page_connected) 1 2)
                    Sample.page_connected).2 in
  calls (App.submit Sample.parse_coords Sample.panel App.SendPixels clicked).2
  = [POST_panel_mode diy;
     POST_panel_pixels [{| x := 1; y := 2; px_color := "FF00FF" |}]] /\
  toasts (App.submit Sample.parse_coords Sample.panel App.SendPixels clicked).2
  = [toast_success "1 pixels sent!"].
Proof. split; reflexivity. Qed.

(** The key of a cell can be read back: [Sample.parse_coords] is a left
    inverse of [App.key], so the key determines the cell. *)

Lemma no_comma_pretty_N_go x : forall s, no_comma s -> no_comma (pretty_N_go x s).
Proof.
  induction (N.lt_wf_0 x) as [x _ IH]; intros s Hs.
  assert (x = 0 \/ 0 < x)%N as [->|Hx] by lia; [by rewrite pretty_N_go_0|].
  rewrite pretty_N_go_step by done. apply IH; [by apply N.div_lt|].
  split; [|done]. unfold pretty_N_char. by repeat case_match.
Qed.

Lemma no_comma_pretty (x : Z) : no_comma (pretty x).
Proof.
  destruct x as [|p|p]; cbn.
  - split; [discriminate|exact I].
  - unfold pretty, pretty_positive, pretty, pretty_N.
    rewrite decide_False by done. by apply no_comma_pretty_N_go.
  - split; [discriminate|].
    unfold pretty, pretty_positive, pretty, pretty_N.
    rewrite decide_False by done. by apply no_comma_pretty_N_go.
Qed.

Lemma split_comma_app a t :
  no_comma a -> Sample.split_comma (a +:+ "," +:+ t) = (a, t).
Proof.
  induction a as [|c a IH]; [reflexivity|]. intros [Hc Ha].
  change ((String c a) +:+ "," +:+ t) with (String c (a +:+ "," +:+ t)).
  cbn [Sample.split_comma].
  destruct (Ascii.eqb_spec c ","%char) as [->|_]; [done|].
  by rewrite (IH Ha).
Qed.

Lemma digit_of_pretty_N_char d :
  (d < 10)%N -> Z.of_nat (nat_of_ascii (pretty_N_char d)) - 48 = Z.of_N d.
Proof.
  intros Hd.
  assert (d = 0 \/ d = 1 \/ d = 2 \/ d = 3 \/ d = 4 \/ d = 5 \/ d = 6 \/ d = 7
          \/ d = 8 \/ d = 9)%N as H by lia.
  repeat (destruct H as [->|H]; [reflexivity|]). by subst.
Qed.

Lemma digits_pretty_N_go x : forall s,
  Sample.digits (pretty_N_go x s) 0 = Sample.digits s (Z.of_N x).
Proof.
  induction (N.lt_wf_0 x) as [x _ IH]; intros s.
  assert (x = 0 \/ 0 < x)%N as [->|Hx] by lia; [by rewrite pretty_N_go_0|].
  rewrite pretty_N_go_step by done. rewrite IH by (by apply N.div_lt).
  cbn [Sample.digits]. rewrite digit_of_pretty_N_char by (by apply N.mod_lt).
  f_equal. rewrite (N.div_mod x 10) at 3 by done. lia.
Qed.

Lemma Number_no_dash s :
  (forall rest, s <> String "-" rest) -> Sample.Number s = Sample.digits s 0.
Proof.
  intros Hs. destruct s as [|c rest]; [reflexivity|].
  destruct c as [[] [] [] [] [] [] [] []]; try reflexivity.
  exfalso. by eapply Hs.
Qed.

Lemma Number_pretty (x : Z) : Sample.Number (pretty x) = x.
Proof.
  destruct x as [|p|p]; [reflexivity| |].
  - unfold pretty, pretty_Z, pretty, pretty_positive, pretty, pretty_N.
    rewrite decide_False by done.
    rewrite Number_no_dash.
    + by rewrite digits_pretty_N_go.
    + intros rest. apply (pretty_N_go_ne_dash (N.pos p) "" rest). discriminate.
  - unfold pretty, pretty_Z, pretty, pretty_positive, pretty, pretty_N.
    rewrite decide_False by done.
    change (- Sample.digits (pretty_N_go (N.pos p) "") 0 = Z.neg p).
    by rewrite digits_pretty_N_go.
Qed.

(** Reading a key gives back the cell it was written for. *)
Lemma parse_coords_of_key x y : Sample.parse_coords (App.key x y) = (x, y).
Proof.
  unfold Sample.parse_coords, App.key.
  rewrite split_comma_app by apply no_comma_pretty.
  by rewrite !Number_pretty.
Qed.

Lemma key_inj x y x' y' : App.key x y = App.key x' y' -> x = x' /\ y = y'.
Proof.
  intros Hkey. apply (f_equal Sample.parse_coords) in Hkey.
  rewrite !parse_coords_of_key in Hkey. by injection Hkey.
Qed.

(** C10. One click on cell (x, y) with the colour c selected changes the
    grid at the key "x,y" only: the key is removed if the grid maps it to
    c and is mapped to c otherwise, and every other key keeps what it
    had; the key is the two numbers in decimal with a comma between, so
    the key of every other cell keeps what it had.  So after two clicks
    with c on a cell that held another colour, or none, the cell is
    unset. *)
Theorem handlePixelClick_toggles_one_cell b s w x y :
  let c := App.pixelColor s in
  let g := App.pixelGrid (store w) in
  let clicked := (run b (App.handlePixelClick s x y) w).2 in
  let g' := App.pixelGrid (store clicked) in
  App.key x y = pretty x +:+ "," +:+ pretty y /\
  g' !! App.key x y = (if decide (g !! App.key x y = Some c) then None else Some c) /\
  (forall k, k <> App.key x y -> g' !! k = g !! k) /\
  (forall x' y', (x', y') <> (x, y) -> g' !! App.key x' y' = g !! App.key x' y') /\
  (g !! App.key x y <> Some c ->
   forall b' s', App.pixelColor s' = c ->
     App.pixelGrid (store (run b' (App.handlePixelClick s' x y) clicked).2)
       !! App.key x y = None).
Proof.
  assert (forall k, k <> App.key x y ->
            App.toggle (App.key x y) (App.pixelColor s) (App.pixelGrid (store w)) !! k
            = App.pixelGrid (store w) !! k) as Hother.
  { intros k Hk. unfold App.toggle. cbn zeta. case_decide.
    - by rewrite lookup_delete_ne.
    - by rewrite lookup_insert_ne. }
  cbn. split; [reflexivity|]. split; [|split; [|split]].
  - unfold App.toggle. repeat case_decide; try contradiction.
    + apply lookup_delete_eq.
    + apply lookup_insert_eq.
  - exact Hother.
  - intros x' y' Hne. apply Hother. intros [-> ->]%key_inj. done.
  - intros Hne b' s' Hs'. rewrite Hs'. unfold App.toggle.
    rewrite (decide_False (P := App.pixelGrid (store w) !! App.key x y = Some _)) by done.
    rewrite lookup_insert_eq, decide_True by done.
    apply lookup_delete_eq.
Qed.

Lemma handlePixelClick_toggles_one_cell_witness :
  let w := new_world App.initial in
  let once := (run Sample.panel (App.handlePixelClick App.initial 1 2) w).2 in
  App.pixelGrid (store w) !! App.key 1 2 <> Some (App.pixelColor App.initial) /\
  (0, 0) <> (1, 2) /\
  App.pixelGrid (store once) !! App.key 0 0 = None /\
  App.pixelGrid
    (store (run Sample.panel (App.handlePixelClick App.initial 1 2) once).2)
    !! App.key 1 2 = None.
Proof.
  assert (App.pixelGrid (store (new_world App.initial)) !! App.key 1 2
          <> Some (App.pixelColor App.initial)) as Hunset by discriminate.
  assert ((0, 0) <> (1, 2)) as Hcell by discriminate.
  pose proof (handlePixelClick_toggles_one_cell Sample.panel App.initial
                (new_world App.initial) 1 2) as H.
  cbv zeta in H. destruct H as (_ & _ & _ & Hother & Htwice).
  cbv zeta. split; [exact Hunset|]. split; [exact Hcell|].
  split; [exact (Hother 0 0 Hcell)|]. exact (Htwice Hunset Sample.panel App.initial eq_refl).
Defined.

(** ** The push channel: one registration per call *)

Section Subscriptions.
Import ws.
Variable accepts : string -> bool.
Variable cb : Callback.

Lemma entered_app o o' : entered (o ++ o') = (entered o + entered o')%nat.
Proof. unfold entered. by rewrite omap_app, length_app. Qed.

Lemma entered_invoked message (l : list Callback) :
  entered ((fun callback => Invoked callback message) <$> l) = 0%nat.
Proof. induction l; [reflexivity | exact IHl]. Qed.

Lemma connectWebSocket_appends onMessage rt :
  statusCallbacks (this (connectWebSocket accepts onMessage rt).1)
  = statusCallbacks (this rt) ++ [onMessage].
Proof.
  unfold connectWebSocket. cbn. case_decide; [reflexivity|].
  destruct (accepts _); reflexivity.
Qed.

Lemma knows_only_clearTimeout n handle rt :
  knows_only cb n rt -> knows_only cb n (clearTimeout handle rt).
Proof.
  intros (Hc & Hs & Ht). repeat split; cbn; [done..|].
  apply Forall_forall. intros t [_ Hin]%list_elem_of_filter.
  by eapply Forall_forall in Ht.
Qed.

Lemma knows_only_set_socket n i v rt :
  knows_only cb n rt -> knows_only cb n (set_socket i v rt).
Proof.
  intros (Hc & Hs & Ht). repeat split; cbn; [done| |done].
  apply Forall_alter; [done|]. by intros [].
Qed.

Lemma knows_only_connectWebSocket n rt :
  knows_only cb n rt ->
  knows_only cb (S n) (connectWebSocket accepts cb rt).1 /\
  entered (connectWebSocket accepts cb rt).2 = 1%nat.
Proof.
  intros (Hc & Hs & Ht). unfold connectWebSocket. cbn.
  assert (statusCallbacks (this rt) ++ [cb] = replicate (S n) cb) as Hc'.
  { by rewrite Hc, replicate_S_end. }
  case_decide; [|destruct (accepts _)]; cbn; (split; [|reflexivity]);
    repeat split; cbn; try exact Hc'; try done.
  apply Forall_app. split; [done|]. by constructor.
Qed.

Lemma knows_only_step n e rt :
  subscribes cb e -> knows_only cb n rt ->
  knows_only cb (n + entered (step accepts e rt).2) (step accepts e rt).1.
Proof.
  intros He Hk. destruct e as [onMessage| |callback|i|i data|i|i|handle]; cbn in *.
  - subst onMessage. destruct (knows_only_connectWebSocket n rt Hk) as [H ->].
    by rewrite Nat.add_1_r.
  - contradiction.
  - contradiction.
  - destruct (sockets rt !! i) as [s|]; [case_decide|]; cbn;
      rewrite ?Nat.add_0_r; try done.
    destruct (wsReconnectTimer (this rt)) as [handle|]; cbn;
      [destruct (negb (handle =? 0)%Z)|]; cbn.
    + destruct (knows_only_clearTimeout n handle _ (knows_only_set_socket n i OPEN rt Hk))
        as (Hc & Hs & Ht).
      repeat split; done.
    + by apply knows_only_set_socket.
    + by apply knows_only_set_socket.
  - destruct (sockets rt !! i) as [s|]; [case_decide|]; cbn;
      rewrite ?Nat.add_0_r; try done.
    destruct data as [message|]; cbn [onmessage fst snd];
      [rewrite entered_invoked|]; by rewrite Nat.add_0_r.
  - destruct (sockets rt !! i) as [s|]; [case_decide|]; cbn;
      rewrite ?Nat.add_0_r; done.
  - destruct (sockets rt !! i) as [s|] eqn:Hi; [case_decide|]; cbn;
      rewrite ?Nat.add_0_r; try done.
    destruct (knows_only_set_socket n i CLOSED rt Hk) as (Hc & Hs & Ht).
    destruct Hk as (_ & Hs0 & _).
    repeat split; cbn; try done.
    apply Forall_app. split; [done|]. constructor; [|done]. cbn.
    by eapply (Forall_lookup_1 _ _ _ _ Hs0 Hi).
  - destruct (list_find _ _) as [[j t]|] eqn:Hfind; cbn; rewrite ?Nat.add_0_r; [|done].
    apply list_find_Some in Hfind as (Hj & _ & _).
    destruct Hk as (Hc & Hs & Ht).
    pose proof (Forall_lookup_1 _ _ _ _ Ht Hj) as ->.
    destruct (knows_only_connectWebSocket n (clearTimeout handle rt)) as [H ->].
    { by apply knows_only_clearTimeout. }
    by rewrite Nat.add_1_r.
Qed.

Lemma knows_only_steps es : forall n rt,
  Forall (subscribes cb) es -> knows_only cb n rt ->
  knows_only cb (n + entered (steps accepts es rt).2) (steps accepts es rt).1.
Proof.
  induction es as [|e es IH]; intros n rt Hes Hk; cbn [steps].
  - by rewrite Nat.add_0_r.
  - apply Forall_cons in Hes as [He Hes].
    pose proof (knows_only_step n e rt He Hk) as H1.
    destruct (step accepts e rt) as [rt1 o1]. cbn [fst snd] in H1.
    pose proof (IH _ rt1 Hes H1) as H2.
    destruct (steps accepts es rt1) as [rt2 o2]. cbn [fst snd] in *.
    by rewrite entered_app, Nat.add_assoc.
Qed.

(** C9. [connectWebSocket] appends its argument to the callback list
    before it looks at the socket, whatever the state of the client.  So
    in a run from a fresh client in which every call passes [cb] and
    nothing is torn down, with [n] the number of calls made so far by the
    application and by the reconnect timeouts together, the list holds
    [cb] [n] times and a status frame received on an open socket invokes
    [cb] exactly [n] times. *)
Theorem one_registration_per_call :
  (forall onMessage rt,
      statusCallbacks (this (connectWebSocket accepts onMessage rt).1)
      = statusCallbacks (this rt) ++ [onMessage]) /\
  (forall baseUrl es,
      Forall (subscribes cb) es ->
      let run := steps accepts es (create baseUrl) in
      let n := entered run.2 in
      statusCallbacks (this run.1) = replicate n cb /\
      forall i message,
        readyState <$> sockets run.1 !! i = Some OPEN ->
        (step accepts (Receives i (Some message)) run.1).2
        = replicate n (Invoked cb message)).
Proof.
  split; [apply connectWebSocket_appends|].
  intros baseUrl es Hes run n.
  destruct (knows_only_steps es 0 (create baseUrl) Hes) as (Hc & _ & _).
  { repeat split; cbn; constructor. }
  fold run in Hc. cbn in Hc. fold n in Hc. split; [exact Hc|].
  intros i message Hopen. cbn.
  destruct (sockets run.1 !! i) as [s|]; [|discriminate].
  cbn in Hopen. injection Hopen as Hopen.
  rewrite decide_True by done. cbn.
  by rewrite Hc, fmap_replicate.
Qed.

End Subscriptions.

Lemma one_registration_per_call_witness :
  let es := [ws.Call_connectWebSocket 7%nat; ws.Opens 0%nat;
             ws.Call_connectWebSocket 7%nat; ws.Closes 0%nat; ws.Fires 1;
             ws.Opens 1%nat] in
  Forall (subscribes 7%nat) es /\
  let run := ws.steps (fun _ => true) es (ws.create "http://127.0.0.1:8000") in
  ws.entered run.2 = 3%nat /\
  forall message,
    (ws.step (fun _ => true) (ws.Receives 1%nat (Some message)) run.1).2
    = replicate 3 (ws.Invoked 7%nat message).
Proof.
  assert (Forall (subscribes 7%nat)
            [ws.Call_connectWebSocket 7%nat; ws.Opens 0%nat;
             ws.Call_connectWebSocket 7%nat; ws.Closes 0%nat; ws.Fires 1;
             ws.Opens 1%nat]) as Hes.
  { repeat constructor. }
  split; [exact Hes|]. split; [reflexivity|].
  intros message.
  pose proof (proj2 (one_registration_per_call (fun _ => true) 7%nat)
                "http://127.0.0.1:8000" _ Hes) as H.
  cbv zeta in H. destruct H as [_ H].
  apply (H 1%nat message). reflexivity.
Defined.

(** ** The push channel: closing and teardown *)

Section Reconnection.
Import ws.
Variable accepts : string -> bool.

(** A socket that closes schedules one reconnect: one timeout is added,
    with a delay of 3000 ms and the callback the socket was made with,
    and the client remembers its handle.  The handler does not ask why
    the socket closed. *)
Lemma close_schedules_one_reconnect rt i s :
  sockets rt !! i = Some s -> readyState s <> CLOSED ->
  let closed := step accepts (Closes i) rt in
  timeouts closed.1
  = timeouts rt ++ [{| id := next_timeout rt; delay := 3000;
                       reconnect_with := onMessage s |}] /\
  wsReconnectTimer (this closed.1) = Some (next_timeout rt) /\
  readyState <$> sockets closed.1 !! i = Some CLOSED /\
  constructed closed.2 = [].
Proof.
  intros Hi Hs. cbn. rewrite Hi. rewrite decide_False by done. cbn.
  repeat split. rewrite list_lookup_alter, decide_True by done.
  by rewrite Hi.
Qed.

(** Teardown forgets the socket, the handle (a handle 0, which no
    timeout has, would count as none and stay) and the callbacks, clears
    the timeout whose handle the client remembered, and leaves the socket
    it held closing or closed: its close event is still to come. *)
Lemma teardown_clears rt :
  let torn := disconnectWebSocket rt in
  ws (this torn) = None /\
  truthy_num (wsReconnectTimer (this torn)) = false /\
  statusCallbacks (this torn) = [] /\
  (forall handle, wsReconnectTimer (this rt) = Some handle -> handle <> 0 ->
     Forall (fun t => id t <> handle) (timeouts torn)) /\
  (forall i s, ws (this rt) = Some i -> sockets torn !! i = Some s ->
     readyState s = CLOSING \/ readyState s = CLOSED).
Proof.
  unfold disconnectWebSocket. cbn.
  destruct (wsReconnectTimer (this rt)) as [handle|] eqn:Ht; cbn;
    [destruct (Z.eqb_spec handle 0) as [->|Hne]; cbn|];
    destruct (ws (this rt)) as [i|] eqn:Hw; cbn; rewrite ?Ht, ?Hw.
  all: split; [done|]; split; [done|]; split; [done|]; split.
  all: try (intros h [= <-] Hh; try done; apply Forall_forall;
            by intros t [Hid _]%list_elem_of_filter).
  all: try discriminate.
  all: intros i0 s [= <-]; rewrite list_lookup_alter, decide_True by done;
    destruct (sockets rt !! i) as [s0|]; cbn; [|done];
    intros [= <-]; destruct (readyState s0) eqn:E; cbn; rewrite ?E; auto.
Qed.

End Reconnection.

(** C7, at the inputs where it fails.

    First run: the client subscribes, the channel opens, and the client
    is torn down: nothing is pending and no socket is held.  Then the
    close event of the socket that teardown closed arrives: its handler
    schedules a reconnect after 3000 ms, which fires and opens a new
    channel, with the callback registered again.

    Second run, with a reconnect pending at teardown: the channel closes
    on its own and its reconnect is scheduled; the application subscribes
    again before it fires, which starts a new socket; teardown clears the
    pending timeout and closes that socket, whose close event schedules
    another reconnect, which fires and opens a third socket. *)
Theorem teardown_is_followed_by_a_reopen :
  (let torn := Sample.client_after
                 [ws.Call_connectWebSocket 7%nat; ws.Opens 0%nat;
                  ws.Call_disconnectWebSocket] in
   ws.timeouts torn.1 = [] /\
   ws.ws (ws.this torn.1) = None /\
   ws.statusCallbacks (ws.this torn.1) = [] /\
   ws.readyState <$> ws.sockets torn.1 !! 0%nat = Some ws.CLOSING /\
   let closed := ws.step (fun _ => true) (ws.Closes 0%nat) torn.1 in
   ws.timeouts closed.1
   = [{| ws.id := 1; ws.delay := 3000; ws.reconnect_with := 7%nat |}] /\
   let fired := ws.step (fun _ => true) (ws.Fires 1) closed.1 in
   ws.constructed fired.2 = ["ws://127.0.0.1:8000/ws"] /\
   ws.ws (ws.this fired.1) = Some 1%nat /\
   ws.readyState <$> ws.sockets fired.1 !! 1%nat = Some ws.CONNECTING /\
   ws.statusCallbacks (ws.this fired.1) = [7%nat]) /\
  (let pending := Sample.client_after
                    [ws.Call_connectWebSocket 7%nat; ws.Opens 0%nat; ws.Closes 0%nat] in
   ws.timeouts pending.1
   = [{| ws.id := 1; ws.delay := 3000; ws.reconnect_with := 7%nat |}] /\
   let torn := ws.steps (fun _ => true)
                 [ws.Call_connectWebSocket 7%nat; ws.Call_disconnectWebSocket]
                 pending.1 in
   ws.timeouts torn.1 = [] /\
   ws.ws (ws.this torn.1) = None /\
   ws.readyState <$> ws.sockets torn.1 !! 1%nat = Some ws.CLOSING /\
   let closed := ws.step (fun _ => true) (ws.Closes 1%nat) torn.1 in
   ws.timeouts closed.1
   = [{| ws.id := 2; ws.delay := 3000; ws.reconnect_with := 7%nat |}] /\
   let fired := ws.step (fun _ => true) (ws.Fires 2) closed.1 in
   ws.constructed fired.2 = ["ws://127.0.0.1:8000/ws"] /\
   ws.ws (ws.this fired.1) = Some 2%nat).
Proof.
  unfold Sample.client_after. split.
  - cbn. repeat split; reflexivity.
  - cbn. repeat split; reflexivity.
Qed.

(** ** The push channel with a single subscription *)

Section SingleSubscription.
Import ws.
Variable accepts : string -> bool.

Lemma tidy_pending_all_closed rt t :
  tidy rt -> timeouts rt = [t] -> all_closed rt.
Proof.
  intros (HA & _ & _) Ht. apply Forall_lookup. intros i s Hi.
  destruct (decide (readyState s = CLOSED)) as [|Hne]; [done|].
  destruct (HA i s Hi Hne) as [_ Hnil]. congruence.
Qed.

Lemma tidy_connectWebSocket onMessage rt :
  tidy rt -> timeouts rt = [] -> all_closed rt ->
  tidy (connectWebSocket accepts onMessage rt).1.
Proof.
  intros (HA & HB & HC) Ht Hclosed. unfold connectWebSocket. cbn.
  case_decide as Hopen.
  { unfold ws_readyState in Hopen. cbn in Hopen.
    destruct (ws (this rt)) as [i|]; [|discriminate]. cbn in Hopen.
    destruct (sockets rt !! i) as [s|] eqn:Hi; [|discriminate].
    pose proof (Forall_lookup_1 _ _ _ _ Hclosed Hi) as Hs. cbn in *. congruence. }
  assert (forall i s, sockets rt !! i = Some s -> readyState s = CLOSED) as Hall.
  { intros i s Hi. exact (Forall_lookup_1 _ _ _ _ Hclosed Hi). }
  destruct (accepts _); (split; [|split]); cbn; auto.
  intros i s Hi Hs. split; [|exact Ht].
  apply lookup_app_Some in Hi as [Hi|[Hge Hi]].
  - by apply Hall in Hi.
  - rewrite length_app. cbn.
    destruct (i - length (sockets rt))%nat eqn:E; [lia|done].
Qed.

Lemma tidy_step e rt : browser e -> tidy rt -> tidy (step accepts e rt).1.
Proof.
  intros He Htidy. pose proof Htidy as (HA & HB & HC).
  destruct e as [| | |i|i data|i|i|handle]; cbn in He |- *; try contradiction.
  - (* a connecting socket opens: it is the newest, and nothing is pending *)
    destruct (sockets rt !! i) as [s|] eqn:Hi; [case_decide as Hs|]; cbn; try done.
    destruct (HA i s Hi) as [Hlast Hnil]; [congruence|].
    assert (forall j s', alter (set_readyState OPEN) i (sockets rt) !! j = Some s' ->
                         readyState s' <> CLOSED ->
                         S j = length (alter (set_readyState OPEN) i (sockets rt))) as Hlive.
    { intros j s' Hj Hs'. rewrite length_alter.
      destruct (decide (i = j)) as [<-|Hne]; [done|].
      rewrite list_lookup_alter_ne in Hj by done. by apply (HA j s'). }
    destruct (wsReconnectTimer (this rt)) as [handle|]; cbn;
      [destruct (negb (handle =? 0)%Z)|]; cbn;
      (split; [|split]); cbn; rewrite ?Hnil; auto.
    all: intros j s' Hj Hs'; split; [by apply (Hlive j s')|done].
  - destruct (sockets rt !! i) as [s|]; [case_decide|]; cbn; try done.
    destruct data; done.
  - destruct (sockets rt !! i) as [s|]; [case_decide|]; done.
  - (* a live socket closes: it was the newest, so every socket is closed *)
    destruct (sockets rt !! i) as [s|] eqn:Hi; [case_decide as Hs|]; cbn; try done.
    destruct (HA i s Hi Hs) as [Hlast Hnil].
    split; [|split]; cbn; rewrite ?Hnil; [| |lia].
    + intros j s' Hj Hs'. exfalso. destruct (decide (i = j)) as [<-|Hne].
      * rewrite list_lookup_alter, decide_True, Hi in Hj by done.
        cbn in Hj. injection Hj as <-. done.
      * rewrite list_lookup_alter_ne in Hj by done.
        destruct (HA j s' Hj Hs') as [Hlast' _]. lia.
    + right. eexists. split; [reflexivity|]. split; [reflexivity|]. cbn. lia.
  - (* the pending timeout fires: every socket is closed *)
    destruct (list_find _ _) as [[j t]|] eqn:Hfind; cbn; [|done].
    apply list_find_Some in Hfind as (Hj & Hid & _).
    destruct HB as [Hnil|(t' & Ht' & Hh & Hne)]; [by rewrite Hnil in Hj|].
    assert (t' = t) as ->.
    { rewrite Ht' in Hj. destruct j; cbn in Hj; [congruence|done]. }
    pose proof (tidy_pending_all_closed rt t Htidy Ht') as Hclosed.
    assert (timeouts (clearTimeout handle rt) = []) as Hnil.
    { cbn. rewrite Ht'. rewrite filter_cons_False by (by intros ?). done. }
    apply tidy_connectWebSocket; [|exact Hnil|exact Hclosed].
    split; [|split]; [|by left|exact HC].
    intros i s Hi Hs. exfalso.
    pose proof (Forall_lookup_1 _ _ _ _ Hclosed Hi). done.
Qed.

Lemma tidy_steps es : forall rt,
  Forall browser es -> tidy rt -> tidy (steps accepts es rt).1.
Proof.
  induction es as [|e es IH]; intros rt Hes Htidy; cbn [steps]; [done|].
  apply Forall_cons in Hes as [He Hes].
  pose proof (tidy_step e rt He Htidy) as H1.
  destruct (step accepts e rt) as [rt1 o1]. cbn [fst] in H1.
  pose proof (IH rt1 Hes H1) as H2.
  by destruct (steps accepts es rt1) as [rt2 o2].
Qed.

Lemma steps_cons_fst e es rt :
  (steps accepts (e :: es) rt).1 = (steps accepts es (step accepts e rt).1).1.
Proof.
  cbn [steps]. destruct (step accepts e rt) as [rt1 o1]. cbn [fst].
  destruct (steps accepts es rt1). reflexivity.
Qed.

(** With every socket closed, the browser has nothing to deliver but the
    pending timeouts. *)
Lemma all_closed_step e rt :
  browser e -> all_closed rt ->
  (forall t, t ∈ timeouts rt -> e <> Fires (id t)) ->
  step accepts e rt = (rt, []).
Proof.
  intros He Hclosed Hfire.
  destruct e as [| | |i|i data|i|i|handle]; cbn in *; try contradiction.
  1-4: destruct (sockets rt !! i) as [s|] eqn:Hi; [|done];
       pose proof (Forall_lookup_1 _ _ _ _ Hclosed Hi) as Hs; cbn in Hs;
       case_decide; congruence.
  destruct (list_find _ _) as [[j t]|] eqn:Hfind; [|done].
  apply list_find_Some in Hfind as (Hj & Hid & _).
  exfalso. apply (Hfire t); [by eapply list_elem_of_lookup_2 | congruence].
Qed.

Lemma all_closed_steps es : forall rt,
  Forall browser es -> all_closed rt ->
  Forall (fun e => forall t, t ∈ timeouts rt -> e <> Fires (id t)) es ->
  steps accepts es rt = (rt, []).
Proof.
  induction es as [|e es IH]; intros rt Hes Hclosed Hfire; cbn [steps]; [done|].
  apply Forall_cons in Hes as [He Hes]. apply Forall_cons in Hfire as [Hf Hfire].
  rewrite (all_closed_step e rt He Hclosed Hf).
  by rewrite (IH rt Hes Hclosed Hfire).
Qed.

(** Where C7 holds. The client is subscribed once and then left to the
    browser.  When a live socket closes, exactly one reconnect is
    pending, after 3000 ms and with the subscribed callback.  If the
    client is torn down before that timeout fires, no timeout is pending,
    no socket is held, and whatever the browser delivers afterwards
    changes nothing and constructs no socket. *)
Lemma single_subscription_teardown baseUrl cb before i s between after :
  Forall browser before -> Forall browser between -> Forall browser after ->
  let rt := (steps accepts (Call_connectWebSocket cb :: before) (create baseUrl)).1 in
  sockets rt !! i = Some s -> readyState s <> CLOSED ->
  let closed := (step accepts (Closes i) rt).1 in
  timeouts closed
  = [{| id := next_timeout rt; delay := 3000; reconnect_with := cb |}] /\
  (Forall (fun e => e <> Fires (next_timeout rt)) between ->
   let torn := disconnectWebSocket (steps accepts between closed).1 in
   timeouts torn = [] /\
   ws (this torn) = None /\
   steps accepts after torn = (torn, [])).
Proof.
  intros Hbefore Hbetween Hafter rt Hi Hs closed.
  assert (rt = (steps accepts before
                  (connectWebSocket accepts cb (create baseUrl)).1).1) as Hrt.
  { apply steps_cons_fst. }
  assert (tidy rt) as Htidy.
  { rewrite Hrt. apply tidy_steps; [done|].
    apply tidy_connectWebSocket; [|done|constructor].
    split; [|split]; cbn; [|by left|lia]. intros j s' Hj. done. }
  assert (onMessage s = cb) as Hcb.
  { destruct (knows_only_steps accepts cb before 1
                (connectWebSocket accepts cb (create baseUrl)).1) as (_ & Hsock & _).
    - eapply Forall_impl; [exact Hbefore|]. by intros [].
    - apply (knows_only_connectWebSocket accepts cb 0). repeat split; constructor.
    - rewrite <- Hrt in Hsock. exact (Forall_lookup_1 _ _ _ _ Hsock Hi). }
  pose proof (tidy_step (Closes i) rt I Htidy) as Htidy'.
  destruct Htidy as (HA & _ & HC).
  destruct (HA i s Hi Hs) as [Hlast Hnil].
  destruct (close_schedules_one_reconnect accepts rt i s Hi Hs) as (Ht & Hh & _ & _).
  fold closed in Ht, Hh, Htidy'. rewrite Hnil, Hcb in Ht. cbn in Ht.
  split; [exact Ht|]. intros Hnofire.
  pose proof (tidy_pending_all_closed closed _ Htidy' Ht) as Hclosed.
  rewrite (all_closed_steps between closed Hbetween Hclosed).
  2:{ eapply Forall_impl; [exact Hnofire|]. cbn. intros e He t Hin.
      rewrite Ht in Hin. apply list_elem_of_singleton in Hin as ->. exact He. }
  cbn [fst]. set (torn := disconnectWebSocket closed). cbv zeta.
  assert (timeouts torn = [] /\ ws (this torn) = None /\ all_closed torn) as (H1 & H2 & H3).
  { subst torn. unfold disconnectWebSocket. rewrite Hh. cbn.
    rewrite (proj2 (Z.eqb_neq _ _)) by lia. cbn.
    destruct (ws (this closed)) as [j|] eqn:Hw; cbn; rewrite Ht, ?Hw; cbn;
      rewrite decide_False by (by intros ?); repeat split; try done.
    apply Forall_alter; [done|]. intros s' _ Hs'. by rewrite Hs'. }
  repeat split; [done..|].
  apply all_closed_steps; [done..|]. rewrite H1.
  apply Forall_forall. intros e _ t Hin. by apply not_elem_of_nil in Hin.
Qed.

End SingleSubscription.

(** * More of the code *)

(** ** services/api.ts: every method *)

(** X1. Each of the sixteen request methods of the client sends exactly
    one request, the one of its endpoint, whatever the service answers:
    it never retries and never sends a second request.  It touches no
    state and shows no toast.  Fifteen of them write nothing to the
    console, and return the body exactly when the service responded,
    the response is ok and the body parses; otherwise they throw.
    [ping] never throws and does not look at the status code: it
    returns true exactly when the body parses and its [status] is the
    string "ok", and it writes one console line with the error when
    the request was rejected, the body does not parse or the body is
    [null]. *)
Theorem api_method_sends_one_request {S} (b : Backend) (c : Call) (w : World S) :
  let result := run b (api_method c) w in
  calls result.2 = calls w ++ [c] /\
  store result.2 = store w /\
  toasts result.2 = toasts w /\
  match c as c0 return Http (Body c0) -> Outcome (Result c0) -> Prop with
  | GET_root => fun answer o =>
      match answer with
      | Responded r =>
          match json r with
          | Parsed JNull =>
              o = Returned false /\
              console result.2
              = console w ++ [("Backend ping failed:", TypeError "status")]
          | Parsed data =>
              o = Returned (is_string "ok" (get "status" data)) /\
              console result.2 = console w
          | Unparsable e =>
              o = Returned false /\
              console result.2 = console w ++ [("Backend ping failed:", e)]
          end
      | Rejected e =>
          o = Returned false /\
          console result.2 = console w ++ [("Backend ping failed:", e)]
      end
  | _ => fun answer o =>
      console result.2 = console w /\
      match delivered answer with
      | Some body => o = Returned body
      | None => exists e, o = Thrown e
      end
  end (b (calls w) c) result.1.
Proof.
  destruct c; cbn;
    [destruct (b (calls w) _) as [[? ? [[|?|? ?|?|?|?]|?] ?]|?]; cbn; by repeat split|..];
    destruct (b (calls w) _) as [[[] ? [] [[|?|? ?|?|?|?]|?]]|?]; cbn;
    repeat split; eauto.
Qed.

(** X2. How each method ends.  A request the service could not be
    reached for throws the rejection of [fetch] as it is, and a body
    that does not parse its parse error.  On a response that is not ok,
    the scan, connect, disconnect and status methods throw their prefix
    followed by the status text; the device-info, pixels, clock-mode
    and the two rhythm-mode methods a fixed text; the text, image,
    mode, brightness, orientation and power methods read the error
    body, which has no declared type, and throw [String(detail)] when
    its [detail] is truthy (the text itself for a string, "[object
    Object]" for the list of objects of a validation error), their
    default text when it is missing or falsy, and a [TypeError] when
    the error body is [null].  [ping] returns a boolean in every
    case. *)
Theorem api_method_outcome {S} (b : Backend) (c : Call) (w : World S) :
  (run b (api_method c) w).1 = expected c (b (calls w) c).
Proof.
  destruct c; cbn;
    [destruct (b (calls w) _) as [[? ? [[|?|? ?|?|?|?]|?] ?]|?]; reflexivity|..];
    destruct (b (calls w) _) as [[[] ? [] [[|?|? ?|?|?|?]|?]]|?]; reflexivity.
Qed.

(** The default text is what the user gets for an empty detail. *)
Example sendText_empty_detail :
  (run (fun _ c => Responded {| ok := false; statusText := "Bad Request";
                                json := Unparsable (JsError "x");
                                error_json := Parsed (JObject [("detail", JString "")]) |})
       (api.sendText Sample.hello) (new_world tt)).1
  = Thrown (JsError "Failed to send text").
Proof. reflexivity. Qed.

(** A validation error carries a list of objects as its detail, and
    that is thrown as the text "[object Object]". *)
Example setBrightness_validation_error :
  (run (fun _ c =>
          Responded {| ok := false; statusText := "Unprocessable Entity";
                       json := Unparsable (JsError "x");
                       error_json :=
                         Parsed (JObject
                                   [("detail",
                                     JArray [JObject [("msg", JString "value is not a valid integer")]])]) |})
       (api.setBrightness {| brightness := 300 |}) (new_world tt)).1
  = Thrown (JsError "[object Object]").
Proof. reflexivity. Qed.

(** ** context/AppContext.tsx: the life cycle *)

(** X3. The store's [connect] in full.  If the connect request fails,
    the capabilities are never requested and the store is untouched.  If
    it succeeds, the capabilities are requested next; when they arrive
    the store holds them, the address and connected = true, and every
    other field, the mirrored status among them, is as before. *)
Theorem connect_commits_when_both_arrive b address w :
  let result := run b (AppContext.connect address) w in
  match delivered (b (calls w) (POST_devices_connect address)) with
  | None =>
      calls result.2 = calls w ++ [POST_devices_connect address] /\
      store result.2 = store w /\
      exists e, result.1 = Thrown e
  | Some _ =>
      calls result.2 = calls w ++ [POST_devices_connect address; GET_panel_device_info] /\
      match delivered (b (calls w ++ [POST_devices_connect address])
                         GET_panel_device_info) with
      | Some info =>
          result.1 = Returned tt /\
          store result.2 = connected_to address info (store w)
      | None =>
          store result.2 = store w /\ exists e, result.1 = Thrown e
      end
  end.
Proof.
  cbn.
  destruct (b (calls w) (POST_devices_connect address)) as [[[] ? [] ?]|?]; cbn;
    try (repeat split; eauto; fail).
  destruct (b (calls w ++ [POST_devices_connect address]) GET_panel_device_info)
    as [[[] ? [] ?]|?]; cbn; rewrite <- app_assoc; repeat split; eauto.
Qed.

(** X4. The two lifecycle methods keep the session consistent: after any
    sequence of connects and disconnects, whatever the service answers
    to each, the address and the capabilities are there exactly when
    connected is true. *)
Theorem lifecycle_keeps_session_consistent b ms : forall w,
  Forall (fun m => forall msg, m <> AppContext.StatusFrame msg) ms ->
  session_consistent (store w) ->
  session_consistent (store (AppContext.apply_all b ms w)).
Proof.
  unfold AppContext.apply_all.
  induction ms as [|m ms IH]; intros w Hms Hinv; cbn [foldl]; [done|].
  apply Forall_cons in Hms as [Hm Hms]. apply IH; [done|]. clear IH Hms.
  unfold AppContext.apply, session_consistent in *.
  destruct m as [address| |msg]; [| |exfalso; eapply Hm; reflexivity]; cbn.
  - destruct (b (calls w) (POST_devices_connect address)) as [[[] ? [] ?]|?];
      cbn; auto.
    destruct (b (calls w ++ [POST_devices_connect address]) GET_panel_device_info)
      as [[[] ? [] ?]|?]; cbn; auto.
    repeat split; eauto.
  - destruct (b (calls w) POST_devices_disconnect) as [[[] ? [] ?]|?]; cbn; auto.
    repeat split; try discriminate; intros [? ?]; discriminate.
Qed.

Lemma lifecycle_keeps_session_consistent_witness :
  let ms := [AppContext.Connect "11:22:33"; AppContext.Disconnect;
             AppContext.Connect "AA:BB:CC"] in
  Forall (fun m => forall msg, m <> AppContext.StatusFrame msg) ms /\
  session_consistent AppContext.initial /\
  session_consistent
    (store (AppContext.apply_all Sample.panel ms (new_world AppContext.initial))).
Proof.
  assert (Forall (fun m => forall msg, m <> AppContext.StatusFrame msg)
            [AppContext.Connect "11:22:33"; AppContext.Disconnect;
             AppContext.Connect "AA:BB:CC"]) as Hms.
  { repeat constructor; discriminate. }
  assert (session_consistent AppContext.initial) as Hinit.
  { split; split; try discriminate; intros [? ?]; discriminate. }
  split; [exact Hms|]. split; [exact Hinit|].
  apply (lifecycle_keeps_session_consistent Sample.panel _
           (new_world AppContext.initial) Hms Hinit).
Defined.

(** X5. A successful connect does not open the cards: it leaves the
    status mirrored from the push channel as it was, and the cards check
    that status.  On the initial store, after a connect that went
    through and before any frame, the store says connected, and yet the
    settings card turns the power command down and sends nothing. *)
Theorem connect_alone_does_not_enable_cards b address info local :
  is_Some (delivered (b [] (POST_devices_connect address))) ->
  delivered (b [POST_devices_connect address] GET_panel_device_info) = Some info ->
  let w := (run b (AppContext.connect address) (new_world AppContext.initial)).2 in
  AppContext.connected (store w) = true /\
  connected (AppContext.status (store w)) = false /\
  forall b',
    let card := {| SettingsCard.ctx := store w;
                   SettingsCard.brightness := SettingsCard.brightness local;
                   SettingsCard.orientation := SettingsCard.orientation local;
                   SettingsCard.isPowered := SettingsCard.isPowered local |} in
    let result := run b' (SettingsCard.handlePowerToggle card) (new_world card) in
    calls result.2 = [] /\
    toasts result.2 = [toast_error "Connect to a device first"] /\
    store result.2 = card.
Proof.
  intros [a Ha] Hinfo. cbn.
  destruct (b [] (POST_devices_connect address)) as [[[] ? [] ?]|?];
    try discriminate Ha. cbn.
  destruct (b [POST_devices_connect address] GET_panel_device_info)
    as [[[] ? [] ?]|?]; try discriminate Hinfo. cbn.
  repeat split; reflexivity.
Qed.

Lemma connect_alone_does_not_enable_cards_witness :
  let w := (run Sample.panel (AppContext.connect "11:22:33")
              (new_world AppContext.initial)).2 in
  is_Some (delivered (Sample.panel [] (POST_devices_connect "11:22:33"))) /\
  delivered (Sample.panel [POST_devices_connect "11:22:33"] GET_panel_device_info)
  = Some Sample.info /\
  AppContext.connected (store w) = true /\
  connected (AppContext.status (store w)) = false.
Proof.
  assert (is_Some (delivered (Sample.panel [] (POST_devices_connect "11:22:33"))))
    as Hconnect by (eexists; reflexivity).
  split; [exact Hconnect|]. split; [reflexivity|].
  pose proof (connect_alone_does_not_enable_cards Sample.panel "11:22:33" Sample.info
                {| SettingsCard.ctx := AppContext.initial; SettingsCard.brightness := 50;
                   SettingsCard.orientation := 0; SettingsCard.isPowered := true |}
                Hconnect eq_refl) as H.
  cbv zeta in H. destruct H as (H1 & H2 & _). split; [exact H1 | exact H2].
Defined.

(** ** context/AppContext.tsx: the frames of the push channel *)

(** One frame, as a function on what the store's world is. *)
Lemma frames_in_snoc ms message w :
  AppProvider.frames_in (ms ++ [message]) w
  = (advance (AppContext.onStatusMessage message) (AppProvider.frames_in ms w)).2.
Proof. unfold AppProvider.frames_in. by rewrite foldl_app. Qed.

(** X6. What frames do to the store, for every sequence of frames.  They
    send nothing and show nothing; they never touch the capabilities,
    the device list or the scanning flag; the mirrored status and the
    connected flag are those of the last frame; and they never clear the
    address: an address that is defined stays defined. *)
Theorem frames_never_clear ms w :
  let w' := AppProvider.frames_in ms w in
  calls w' = calls w /\ toasts w' = toasts w /\ console w' = console w /\
  AppContext.deviceInfo (store w') = AppContext.deviceInfo (store w) /\
  AppContext.devices (store w') = AppContext.devices (store w) /\
  AppContext.scanning (store w') = AppContext.scanning (store w) /\
  (is_Some (AppContext.deviceAddress (store w)) ->
   is_Some (AppContext.deviceAddress (store w'))) /\
  (forall message, last ms = Some message ->
     AppContext.connected (store w') = ws_connected message /\
     AppContext.status (store w')
     = {| connected := ws_connected message;
          device_address := ws_device_address message |}).
Proof.
  induction ms as [|message ms IH] using rev_ind; cbn zeta.
  - repeat split; try done.
  - rewrite frames_in_snoc. cbn zeta in IH.
    destruct IH as (Hc & Ht & Hl & Hi & Hd & Hs & Ha & _).
    set (w1 := AppProvider.frames_in ms w) in *.
    unfold AppContext.onStatusMessage. cbn.
    destruct (truthy_str (ws_device_address message)) eqn:Htruthy; cbn;
      repeat split; try done.
    all: try match goal with
             | H : last (_ ++ [_]) = Some _ |- _ =>
                 rewrite last_snoc in H; by injection H as <-
             end.
    intros _. destruct (ws_device_address message); [eauto|discriminate].
Qed.

Lemma frames_never_clear_witness :
  let off := {| type := "status"; ws_connected := false; ws_device_address := None |} in
  let w := Sample.store_connected in
  is_Some (AppContext.deviceAddress (store w)) /\
  is_Some (AppContext.deviceAddress (store (AppProvider.frames_in [off; off] w))) /\
  AppContext.connected (store (AppProvider.frames_in [off; off] w)) = false.
Proof.
  pose proof (frames_never_clear
                [{| type := "status"; ws_connected := false; ws_device_address := None |};
                 {| type := "status"; ws_connected := false; ws_device_address := None |}]
                Sample.store_connected) as H.
  cbv zeta in H. destruct H as (_ & _ & _ & _ & _ & _ & Ha & Hlast).
  assert (is_Some (AppContext.deviceAddress (store Sample.store_connected))) as Hs.
  { eexists. reflexivity. }
  split; [exact Hs|]. split; [exact (Ha Hs)|].
  exact (proj1 (Hlast _ eq_refl)).
Defined.

(** The status handler is idempotent. *)
Lemma onStatusMessage_idempotent message w :
  (advance (AppContext.onStatusMessage message)
     (advance (AppContext.onStatusMessage message) w).2).2
  = (advance (AppContext.onStatusMessage message) w).2.
Proof.
  unfold AppContext.onStatusMessage. cbn.
  destruct (truthy_str (ws_device_address message)); reflexivity.
Qed.

Lemma deliver_replicate n cb message w :
  AppProvider.deliver (replicate (S n) (ws.Invoked cb message)) w
  = (advance (AppContext.onStatusMessage message) w).2.
Proof.
  unfold AppProvider.deliver. induction n as [|n IH]; [reflexivity|].
  rewrite replicate_S_end, foldl_app, IH. cbn [foldl].
  apply onStatusMessage_idempotent.
Qed.

(** X7. Registering the provider's callback more than once does the
    store no harm.  In a run in which the application only subscribes,
    always with that callback, however many registrations the reconnects
    have piled up, a frame received on an open socket leaves the store
    as one call of the status handler leaves it. *)
Theorem repeated_registrations_change_nothing accepts cb baseUrl es i message w :
  Forall (subscribes cb) es ->
  let run := ws.steps accepts es (ws.create baseUrl) in
  (0 < ws.entered run.2)%nat ->
  ws.readyState <$> ws.sockets run.1 !! i = Some ws.OPEN ->
  AppProvider.deliver (ws.step accepts (ws.Receives i (Some message)) run.1).2 w
  = (advance (AppContext.onStatusMessage message) w).2.
Proof.
  intros Hes run Hn Hopen.
  destruct (knows_only_steps accepts cb es 0 (ws.create baseUrl) Hes) as (Hc & _ & _).
  { repeat split; cbn; constructor. }
  fold run in Hc. cbn [Nat.add] in Hc.
  cbn. destruct (ws.sockets run.1 !! i) as [s|]; [|discriminate].
  cbn in Hopen. injection Hopen as Hopen.
  rewrite decide_True by done. cbn. rewrite Hc, fmap_replicate.
  destruct (ws.entered run.2) as [|n]; [lia|].
  apply deliver_replicate.
Qed.

Lemma repeated_registrations_change_nothing_witness :
  let es := [ws.Call_connectWebSocket 0%nat; ws.Closes 0%nat; ws.Fires 1;
             ws.Opens 1%nat] in
  let off := {| type := "status"; ws_connected := false; ws_device_address := None |} in
  Forall (subscribes 0%nat) es /\
  ws.entered (ws.steps (fun _ => true) es (ws.create "http://127.0.0.1:8000")).2 = 2%nat /\
  AppProvider.deliver
    (ws.step (fun _ => true) (ws.Receives 1%nat (Some off))
       (ws.steps (fun _ => true) es (ws.create "http://127.0.0.1:8000")).1).2
    Sample.store_connected
  = (advance (AppContext.onStatusMessage off) Sample.store_connected).2.
Proof.
  assert (Forall (subscribes 0%nat)
            [ws.Call_connectWebSocket 0%nat; ws.Closes 0%nat; ws.Fires 1;
             ws.Opens 1%nat]) as Hes.
  { repeat constructor. }
  split; [exact Hes|]. split; [reflexivity|].
  apply (repeated_registrations_change_nothing (fun _ => true) 0%nat
           "http://127.0.0.1:8000" _ 1%nat _ Sample.store_connected Hes).
  - vm_compute. lia.
  - reflexivity.
Defined.

(** ** components/cards/ConnectionCard.tsx *)

(** X8. The connection card reports a scan with the device count of the
    render it was clicked in.  When the scan succeeds the store's list
    is replaced by the devices found, and the toast says "Found n
    device(s)" with n the length of the list before the scan, not of the
    devices found.  When it fails the list is kept and "Scan failed" is
    shown.  Either way scanning ends false and nothing is thrown. *)
Theorem handleScan_reports_previous_count b w :
  let result := run b (ConnectionCard.handleScan (store w)) w in
  result.1 = Returned tt /\
  AppContext.scanning (store result.2) = false /\
  calls result.2 = calls w ++ [GET_devices_scan] /\
  match delivered (b (calls w) GET_devices_scan) with
  | Some found =>
      AppContext.devices (store result.2) = found /\
      toasts result.2
      = toasts w ++ [toast_success
                       ("Found " +:+ pretty (length (AppContext.devices (store w)))
                        +:+ " device(s)")]
  | None =>
      AppContext.devices (store result.2) = AppContext.devices (store w) /\
      toasts result.2 = toasts w ++ [toast_error "Scan failed"]
  end.
Proof.
  cbn. destruct (b (calls w) GET_devices_scan) as [[[] ? [] ?]|?]; cbn;
    repeat split; reflexivity.
Qed.

(** The first scan of a session that finds one panel says it found none. *)
Example first_scan_says_zero :
  let result := run Sample.panel (ConnectionCard.handleScan AppContext.initial)
                  (new_world AppContext.initial) in
  AppContext.devices (store result.2) = [Sample.panel_1] /\
  toasts result.2 = [toast_success "Found 0 device(s)"].
Proof. split; reflexivity. Qed.

(** X9. The connection card reports each lifecycle action once and never
    throws: connect shows "Connected successfully" exactly when both the
    connect request and the capability fetch went through, and
    "Connection failed" otherwise; disconnect shows "Disconnected"
    exactly when the remote call went through, and "Disconnect failed"
    otherwise. *)
Theorem connection_card_reports_outcome b w :
  (forall address,
      let result := run b (ConnectionCard.handleConnect address) w in
      result.1 = Returned tt /\
      toasts result.2
      = toasts w ++
        [match delivered (b (calls w) (POST_devices_connect address)),
               delivered (b (calls w ++ [POST_devices_connect address])
                            GET_panel_device_info) with
         | Some _, Some _ => toast_success "Connected successfully"
         | _, _ => toast_error "Connection failed"
         end]) /\
  (let result := run b ConnectionCard.handleDisconnect w in
   result.1 = Returned tt /\
   toasts result.2
   = toasts w ++
     [match delivered (b (calls w) POST_devices_disconnect) with
      | Some _ => toast_success "Disconnected"
      | None => toast_error "Disconnect failed"
      end]).
Proof.
  split.
  - intros address. cbn.
    destruct (b (calls w) (POST_devices_connect address)) as [[[] ? [] ?]|?]; cbn;
      try (split; reflexivity).
    destruct (b (calls w ++ [POST_devices_connect address]) GET_panel_device_info)
      as [[[] ? [] ?]|?]; cbn; split; reflexivity.
  - cbn. destruct (b (calls w) POST_devices_disconnect) as [[[] ? [] ?]|?]; cbn;
      split; reflexivity.
Qed.

(** ** App.tsx: the page's lifecycle handlers *)

(** X10. The page's [handleConnect] follows the status the service
    reports.  It never throws.  If the connect or the status request
    fails, the page is unchanged and "Connection failed" is shown.
    Otherwise the page's status is the reported one, and the
    capabilities are requested only if that status says connected: if it
    does not, nothing more is requested and nothing at all is shown; if
    it does, "Connected!" is shown when the capabilities arrive, and
    "Connection failed" when they do not. *)
Theorem handleConnect_follows_reported_status b address w :
  let result := run b (App.handleConnect address) w in
  let failed := toasts w ++ [toast_error "Connection failed"] in
  result.1 = Returned tt /\
  match delivered (b (calls w) (POST_devices_connect address)) with
  | None =>
      calls result.2 = calls w ++ [POST_devices_connect address] /\
      store result.2 = store w /\ toasts result.2 = failed
  | Some _ =>
      match delivered (b (calls w ++ [POST_devices_connect address])
                         GET_devices_status) with
      | None =>
          calls result.2
          = (calls w ++ [POST_devices_connect address]) ++ [GET_devices_status] /\
          store result.2 = store w /\ toasts result.2 = failed
      | Some newStatus =>
          App.status (store result.2) = newStatus /\
          if connected newStatus then
            calls result.2
            = ((calls w ++ [POST_devices_connect address]) ++ [GET_devices_status])
                ++ [GET_panel_device_info] /\
            match delivered (b ((calls w ++ [POST_devices_connect address])
                                  ++ [GET_devices_status]) GET_panel_device_info) with
            | Some info =>
                App.deviceInfo (store result.2) = Some info /\
                toasts result.2 = toasts w ++ [toast_success "Connected!"]
            | None =>
                App.deviceInfo (store result.2) = App.deviceInfo (store w) /\
                toasts result.2 = failed
            end
          else
            calls result.2
            = (calls w ++ [POST_devices_connect address]) ++ [GET_devices_status] /\
            App.deviceInfo (store result.2) = App.deviceInfo (store w) /\
            toasts result.2 = toasts w
      end
  end.
Proof.
  cbn.
  destruct (b (calls w) (POST_devices_connect address)) as [[[] ? [] ?]|?]; cbn;
    try (repeat split; reflexivity).
  destruct (b (calls w ++ [POST_devices_connect address]) GET_devices_status)
    as [[[] ? [newStatus|] ?]|?]; cbn; try (repeat split; reflexivity).
  destruct newStatus as [[] ?]; cbn; [|repeat split; reflexivity].
  destruct (b ((calls w ++ [POST_devices_connect address]) ++ [GET_devices_status])
              GET_panel_device_info) as [[[] ? [] ?]|?]; cbn;
    repeat split; reflexivity.
Qed.

(** X11. The status check the page makes when it mounts is silent: it
    never throws and never shows a toast.  If the status request fails
    the page is unchanged.  Otherwise the page's status is the reported
    one, and the capabilities are requested only if it says connected;
    they are stored when they arrive and left as they were when they do
    not. *)
Theorem checkStatus_is_silent b w :
  let result := run b AppEffects.checkStatus w in
  result.1 = Returned tt /\
  toasts result.2 = toasts w /\
  match delivered (b (calls w) GET_devices_status) with
  | None => calls result.2 = calls w ++ [GET_devices_status] /\ store result.2 = store w
  | Some currentStatus =>
      App.status (store result.2) = currentStatus /\
      if connected currentStatus then
        calls result.2 = (calls w ++ [GET_devices_status]) ++ [GET_panel_device_info] /\
        App.deviceInfo (store result.2)
        = match delivered (b (calls w ++ [GET_devices_status]) GET_panel_device_info) with
          | Some info => Some info
          | None => App.deviceInfo (store w)
          end
      else
        calls result.2 = calls w ++ [GET_devices_status] /\
        App.deviceInfo (store result.2) = App.deviceInfo (store w)
  end.
Proof.
  cbn.
  destruct (b (calls w) GET_devices_status) as [[[] ? [currentStatus|] ?]|?]; cbn;
    try (repeat split; reflexivity).
  destruct currentStatus as [[] ?]; cbn; [|repeat split; reflexivity].
  destruct (b (calls w ++ [GET_devices_status]) GET_panel_device_info)
    as [[[] ? [] ?]|?]; cbn; repeat split; reflexivity.
Qed.

(** X12. The page's [handleDisconnect] after a remote disconnect that
    went through: the status is asked for again, and only when that
    answer arrives are the capabilities dropped and the status replaced
    by the reported one (which need not say disconnected).  If the
    status request fails the page keeps its status and capabilities and
    shows "Disconnect failed", although the panel was disconnected. *)
Theorem handleDisconnect_asks_for_status b w :
  is_Some (delivered (b (calls w) POST_devices_disconnect)) ->
  let result := run b App.handleDisconnect w in
  result.1 = Returned tt /\
  calls result.2 = (calls w ++ [POST_devices_disconnect]) ++ [GET_devices_status] /\
  match delivered (b (calls w ++ [POST_devices_disconnect]) GET_devices_status) with
  | Some newStatus =>
      App.status (store result.2) = newStatus /\
      App.deviceInfo (store result.2) = None /\
      toasts result.2 = toasts w ++ [toast_success "Disconnected"]
  | None =>
      store result.2 = store w /\
      toasts result.2 = toasts w ++ [toast_error "Disconnect failed"]
  end.
Proof.
  intros [a Ha]. cbn.
  destruct (b (calls w) POST_devices_disconnect) as [[[] ? [] ?]|?];
    try discriminate Ha. cbn.
  destruct (b (calls w ++ [POST_devices_disconnect]) GET_devices_status)
    as [[[] ? [] ?]|?]; cbn; repeat split; reflexivity.
Qed.

Lemma handleDisconnect_asks_for_status_witness :
  let result := run Sample.panel App.handleDisconnect Sample.page_connected in
  is_Some (delivered (Sample.panel [] POST_devices_disconnect)) /\
  calls result.2 = [POST_devices_disconnect; GET_devices_status] /\
  App.deviceInfo (store result.2) = None /\
  connected (App.status (store result.2)) = true.
Proof.
  assert (is_Some (delivered (Sample.panel [] POST_devices_disconnect))) as Hd
    by (eexists; reflexivity).
  split; [exact Hd|].
  pose proof (handleDisconnect_asks_for_status Sample.panel Sample.page_connected Hd) as H.
  cbv zeta in H. destruct H as (_ & Hcalls & H).
  split; [exact Hcalls|].
  change (delivered (Sample.panel (calls Sample.page_connected ++ [POST_devices_disconnect])
                       GET_devices_status))
    with (Some {| connected := true; device_address := Some "AA:BB:CC" |}) in H.
  destruct H as (Hs & Hi & _). split; [exact Hi|]. by rewrite Hs.
Defined.

(** ** App.tsx and SettingsCard.tsx: the settings *)

(** X13. Both power toggles end with the power flag flipped exactly when
    the service accepted the request, and both ask for the opposite of
    the current flag.  The page flips its flag after the answer: while
    the request is in flight the flag is the old one.  The settings
    card flips it before the request, so that while the request is in
    flight the flag is already the new one, and flips it back when the
    request fails; the store it embeds is never touched.  The toast
    names the new state on success. *)
Theorem power_toggles_flip_on_success b :
  (forall parse_coords w,
      connected (App.status (store w)) = true ->
      let wanted := negb (App.isPowered (store w)) in
      let started := advance (App.handler parse_coords (store w) App.SetPower) w in
      let result := App.submit parse_coords b App.SetPower w in
      (exists k, started.1 = Pending (POST_panel_power {| on := wanted |}) k) /\
      App.isPowered (store started.2) = App.isPowered (store w) /\
      calls result.2 = calls w ++ [POST_panel_power {| on := wanted |}] /\
      match delivered (b (calls w) (POST_panel_power {| on := wanted |})) with
      | Some _ =>
          App.isPowered (store result.2) = wanted /\
          toasts result.2
          = toasts w ++ [toast_success (if wanted then "Power ON" else "Power OFF")]
      | None =>
          App.isPowered (store result.2) = App.isPowered (store w) /\
          toasts result.2 = toasts w ++ [toast_error "Failed to toggle power"]
      end) /\
  (forall w,
      connected (AppContext.status (SettingsCard.ctx (store w))) = true ->
      let wanted := negb (SettingsCard.isPowered (store w)) in
      let started := advance (SettingsCard.handlePowerToggle (store w)) w in
      let result := run b (SettingsCard.handlePowerToggle (store w)) w in
      (exists k, started.1 = Pending (POST_panel_power {| on := wanted |}) k) /\
      SettingsCard.isPowered (store started.2) = wanted /\
      calls result.2 = calls w ++ [POST_panel_power {| on := wanted |}] /\
      SettingsCard.ctx (store result.2) = SettingsCard.ctx (store w) /\
      match delivered (b (calls w) (POST_panel_power {| on := wanted |})) with
      | Some _ =>
          SettingsCard.isPowered (store result.2) = wanted /\
          toasts result.2
          = toasts w ++ [toast_success (if wanted then "Power ON" else "Power OFF")]
      | None =>
          SettingsCard.isPowered (store result.2) = SettingsCard.isPowered (store w) /\
          toasts result.2 = toasts w ++ [toast_error "Failed to toggle power"]
      end).
Proof.
  split.
  - intros pc w Hon. unfold App.submit. cbn. autounfold with methods.
    rewrite Hon. cbn. split; [eexists; reflexivity|]. split; [reflexivity|].
    destruct (b (calls w) _) as [[[] ? [] [[|?|? ?|?|?|?]|?]]|?]; cbn;
      destruct (App.isPowered (store w)); repeat split; reflexivity.
  - intros w Hon. unfold SettingsCard.handlePowerToggle. rewrite Hon. cbn.
    split; [eexists; reflexivity|]. split; [reflexivity|].
    destruct (b (calls w) _) as [[[] ? [] [[|?|? ?|?|?|?]|?]]|?]; cbn;
      destruct (SettingsCard.isPowered (store w)); repeat split; reflexivity.
Qed.

Lemma power_toggles_flip_on_success_witness :
  connected (App.status (store Sample.page_connected)) = true /\
  App.isPowered (store Sample.page_connected) = true /\
  App.isPowered
    (store (App.submit Sample.parse_coords Sample.panel App.SetPower
              Sample.page_connected).2) = false.
Proof.
  split; [reflexivity|]. split; [reflexivity|].
  pose proof (proj1 (power_toggles_flip_on_success Sample.panel) Sample.parse_coords
                Sample.page_connected eq_refl) as H.
  cbv zeta in H. destruct H as (_ & _ & _ & H). exact (proj1 H).
Defined.

(** X14. The sliders record every value.  On the page and on the
    settings card, the brightness and orientation handlers store the
    chosen value locally whether or not a panel is connected and whether
    or not the service accepts it: a refused value stays displayed.  The
    page's brightness handler shows no toast in any case, and none of
    them throws. *)
Theorem sliders_record_every_value b value :
  (forall parse_coords w,
      let result := App.submit parse_coords b (App.SetBrightness value) w in
      result.1 = Returned tt /\
      App.brightness (store result.2) = value /\
      toasts result.2 = toasts w) /\
  (forall parse_coords w,
      let result := App.submit parse_coords b (App.SetOrientation value) w in
      result.1 = Returned tt /\
      App.orientation (store result.2) = value) /\
  (forall w,
      let result := run b (SettingsCard.handleBrightnessChange (store w) value) w in
      result.1 = Returned tt /\
      SettingsCard.brightness (store result.2) = value) /\
  (forall w,
      let result := run b (SettingsCard.handleOrientationChange (store w) value) w in
      result.1 = Returned tt /\
      SettingsCard.orientation (store result.2) = value).
Proof.
  split; [|split; [|split]].
  - intros pc w. unfold App.submit. cbn. autounfold with methods. cbn.
    destruct (connected (App.status (store w))); cbn; [|repeat split; reflexivity].
    destruct (b _ _) as [[[] ? [] [[|?|? ?|?|?|?]|?]]|?]; cbn; repeat split; reflexivity.
  - intros pc w. unfold App.submit. cbn. autounfold with methods. cbn.
    destruct (connected (App.status (store w))); cbn; [|repeat split; reflexivity].
    destruct (b _ _) as [[[] ? [] [[|?|? ?|?|?|?]|?]]|?]; cbn; repeat split; reflexivity.
  - intros w. unfold SettingsCard.handleBrightnessChange. cbn.
    destruct (connected (AppContext.status (SettingsCard.ctx (store w)))); cbn;
      [|repeat split; reflexivity].
    destruct (b _ _) as [[[] ? [] [[|?|? ?|?|?|?]|?]]|?]; cbn; repeat split; reflexivity.
  - intros w. unfold SettingsCard.handleOrientationChange. cbn.
    destruct (connected (AppContext.status (SettingsCard.ctx (store w)))); cbn;
      [|repeat split; reflexivity].
    destruct (b _ _) as [[[] ? [] [[|?|? ?|?|?|?]|?]]|?]; cbn; repeat split; reflexivity.
Qed.

(** ** App.tsx: sending the pixels *)

(** X15. Sending a grid that has pixels, on the connected page.  The DIY
    mode is requested first, and the pixels are never sent unless that
    request went through.  When it did, exactly one pixel request
    follows: it carries, in some order, one entry per key of the grid,
    each with the coordinates read from its key and the colour of that
    key without its first '#'.  The toast counts the keys of the grid.
    The grid itself is kept. *)
Theorem handleSendPixels_sends_the_grid parse_coords b w :
  connected (App.status (store w)) = true ->
  App.pixelGrid (store w) <> ∅ ->
  let grid := App.pixelGrid (store w) in
  let pixels :=
    (fun '(coords, color) =>
       {| x := (parse_coords coords).1; y := (parse_coords coords).2;
          px_color := replace_hash color |}) <$> map_to_list grid in
  let result := App.submit parse_coords b App.SendPixels w in
  length pixels = size grid /\
  App.pixelGrid (store result.2) = grid /\
  match delivered (b (calls w) (POST_panel_mode diy)) with
  | None =>
      calls result.2 = calls w ++ [POST_panel_mode diy] /\
      toasts result.2 = toasts w ++ [toast_error "Failed to send pixels"]
  | Some _ =>
      exists sent,
        sent ≡ₚ pixels /\
        calls result.2 = (calls w ++ [POST_panel_mode diy]) ++ [POST_panel_pixels sent] /\
        toasts result.2
        = toasts w ++
          [match delivered (b (calls w ++ [POST_panel_mode diy])
                              (POST_panel_pixels sent)) with
           | Some _ => toast_success (pretty (size grid) +:+ " pixels sent!")
           | None => toast_error "Failed to send pixels"
           end]
  end.
Proof.
  intros Hon Hne grid pixels.
  assert ((fun '(coords, color) =>
             let '(x, y) := parse_coords coords in
             {| x := x; y := y; px_color := replace_hash color |})
            <$> map_to_list grid = pixels) as Hpixels.
  { subst pixels. apply list_fmap_ext. intros _ [coords color] _.
    by destruct (parse_coords coords). }
  split; [subst pixels; by rewrite length_fmap, length_map_to_list|].
  unfold App.submit. cbn. autounfold with methods. rewrite Hon. cbn.
  fold grid. destruct (decide (size grid = 0%nat)) as [Hz|Hz].
  { apply map_size_empty_iff in Hz. contradiction. }
  cbn. rewrite Hpixels.
  destruct (b (calls w) (POST_panel_mode diy)) as [[[] ? [] [[|?|? ?|?|?|?]|?]]|?]; cbn;
    try (repeat split; reflexivity).
  all: split; [|exists pixels; split; [reflexivity|]].
  all: destruct (b (calls w ++ [POST_panel_mode diy]) (POST_panel_pixels pixels))
         as [[[] ? [] [[|?|? ?|?|?|?]|?]]|?]; cbn; repeat split; reflexivity.
Qed.

Lemma handleSendPixels_sends_the_grid_witness :
  let w := (run Sample.panel (App.handlePixelClick (store Sample.page_connected) 1 2)
              Sample.page_connected).2 in
  connected (App.status (store w)) = true /\
  App.pixelGrid (store w) <> ∅ /\
  exists sent,
    sent ≡ₚ [{| x := 1; y := 2; px_color := "FF00FF" |}] /\
    calls (App.submit Sample.parse_coords Sample.panel App.SendPixels w).2
    = [POST_panel_mode diy; POST_panel_pixels sent].
Proof.
  assert (App.pixelGrid
            (store (run Sample.panel (App.handlePixelClick (store Sample.page_connected) 1 2)
                      Sample.page_connected).2) <> ∅) as Hne.
  { intros Hempty. apply (f_equal (fun g => g !! App.key 1 2)) in Hempty.
    discriminate Hempty. }
  split; [reflexivity|]. split; [exact Hne|].
  pose proof (handleSendPixels_sends_the_grid Sample.parse_coords Sample.panel
                (run Sample.panel (App.handlePixelClick (store Sample.page_connected) 1 2)
                   Sample.page_connected).2 eq_refl Hne) as H.
  cbv zeta in H. destruct H as (_ & _ & H).
  change (delivered (Sample.panel _ (POST_panel_mode diy)))
    with (Some {| status := "ok" |}) in H.
  destruct H as (sent & Hperm & Hcalls & _). exists sent. split; [exact Hperm|exact Hcalls].
Defined.

(** ** App.tsx: the keys of the grid *)

(** X16. Two cells have the same key only if they are the same cell: the
    key ["x,y"] determines x and y, so no two cells of the grid collide. *)
Theorem key_determines_cell x y x' y' :
  App.key x y = App.key x' y' <-> x = x' /\ y = y'.
Proof.
  split.
  - apply key_inj.
  - by intros [-> ->].
Qed.

(** ** App.tsx: drawing *)

Lemma clicks_cons x y cells w :
  clicks ((x, y) :: cells) w
  = clicks cells (advance (App.handlePixelClick (store w) x y) w).2.
Proof. reflexivity. Qed.

Lemma click_grid x y w :
  App.pixelGrid (store (advance (App.handlePixelClick (store w) x y) w).2)
  = App.toggle (App.key x y) (App.pixelColor (store w)) (App.pixelGrid (store w)).
Proof. reflexivity. Qed.

Lemma click_color x y w :
  App.pixelColor (store (advance (App.handlePixelClick (store w) x y) w).2)
  = App.pixelColor (store w).
Proof. reflexivity. Qed.

Lemma two_clicks_grid x y x' y' w :
  App.pixelGrid (store (clicks [(x, y); (x', y')] w))
  = App.toggle (App.key x' y') (App.pixelColor (store w))
      (App.toggle (App.key x y) (App.pixelColor (store w)) (App.pixelGrid (store w))).
Proof. reflexivity. Qed.

(** X17. Two clicks on the same cell with the same colour selected.
    Every other key holds what it held.  The clicked cell holds the
    selected colour if it held it before, and is unset otherwise.  So
    every key holds what it held before the two clicks exactly when the
    cell was unset or already held that colour; on a cell that held
    another colour the two clicks leave the cell unset. *)
Theorem second_click_undoes_first x y w :
  let g := App.pixelGrid (store w) in
  let c := App.pixelColor (store w) in
  let g2 := App.pixelGrid (store (clicks [(x, y); (x, y)] w)) in
  (forall k, k <> App.key x y -> g2 !! k = g !! k) /\
  g2 !! App.key x y = (if decide (g !! App.key x y = Some c) then Some c else None) /\
  ((forall k, g2 !! k = g !! k)
   <-> g !! App.key x y = None \/ g !! App.key x y = Some c) /\
  (forall c', g !! App.key x y = Some c' -> c' <> c -> g2 !! App.key x y = None).
Proof.
  cbn zeta. rewrite two_clicks_grid.
  set (g := App.pixelGrid (store w)). set (c := App.pixelColor (store w)).
  set (k := App.key x y). unfold App.toggle. cbn zeta.
  destruct (decide (g !! k = Some c)) as [Hc|Hc].
  - rewrite lookup_delete_eq. rewrite decide_False by done.
    rewrite insert_delete_eq.
    split; [intros k' Hk'; by rewrite lookup_insert_ne|].
    split; [apply lookup_insert_eq|].
    split; [|intros c' Hc' Hne; congruence].
    split; [auto|]. intros _ k'.
    destruct (decide (k' = k)) as [->|Hk'].
    + by rewrite lookup_insert_eq.
    + by rewrite lookup_insert_ne.
  - rewrite lookup_insert_eq. rewrite decide_True by done.
    rewrite delete_insert_eq.
    split; [intros k' Hk'; by rewrite lookup_delete_ne|].
    split; [apply lookup_delete_eq|].
    split; [|intros c' Hc' Hne; apply lookup_delete_eq].
    split.
    + intros Hg. left. rewrite <- Hg. apply lookup_delete_eq.
    + intros [Hn|Hs] k'; [|done].
      destruct (decide (k' = k)) as [->|Hk'].
      * by rewrite lookup_delete_eq.
      * by rewrite lookup_delete_ne.
Qed.

Lemma second_click_undoes_first_witness :
  let w := clicks [(1, 2)]
             (advance (App.setPixelColor "#00FF00") (new_world App.initial)).2 in
  App.pixelColor (store w) = "#00FF00" /\
  App.pixelGrid (store w) !! App.key 1 2 = Some "#00FF00" /\
  App.pixelGrid
    (store (clicks [(1, 2); (1, 2)]
              (advance (App.setPixelColor "#FF00FF") w).2)) !! App.key 1 2 = None.
Proof.
  cbv zeta. split; [reflexivity|]. split; [reflexivity|].
  refine (proj2 (proj2 (proj2 (second_click_undoes_first 1 2 _))) "#00FF00" _ _).
  - reflexivity.
  - discriminate.
Defined.

(** X18. Clicks on two different cells commute as far as the colours
    go: after both clicks every key holds the same colour, or none,
    whichever click came first. *)
Theorem clicks_on_different_cells_commute x y x' y' w :
  (x, y) <> (x', y') ->
  forall k,
    App.pixelGrid (store (clicks [(x, y); (x', y')] w)) !! k
    = App.pixelGrid (store (clicks [(x', y'); (x, y)] w)) !! k.
Proof.
  intros Hne k0. rewrite !two_clicks_grid.
  set (g := App.pixelGrid (store w)). set (c := App.pixelColor (store w)).
  assert (App.key x y <> App.key x' y') as Hk.
  { intros [-> ->]%key_inj. done. }
  set (k := App.key x y) in *. set (k' := App.key x' y') in *.
  unfold App.toggle. cbn zeta.
  destruct (decide (g !! k = Some c)) as [Hc|Hc];
    destruct (decide (g !! k' = Some c)) as [Hc'|Hc'];
    repeat first [ rewrite lookup_delete_ne by congruence
                 | rewrite lookup_insert_ne by congruence
                 | rewrite decide_True by done
                 | rewrite decide_False by done ].
  - by rewrite delete_delete.
  - by rewrite delete_insert_ne by congruence.
  - by rewrite delete_insert_ne by congruence.
  - by rewrite insert_insert_ne by congruence.
Qed.

Lemma clicks_on_different_cells_commute_witness :
  (1, 2) <> (2, 1) /\
  App.pixelGrid (store (clicks [(1, 2); (2, 1)] (new_world App.initial))) !! App.key 1 2
  = Some "#FF00FF" /\
  App.pixelGrid (store (clicks [(2, 1); (1, 2)] (new_world App.initial))) !! App.key 1 2
  = Some "#FF00FF".
Proof.
  assert ((1, 2) <> (2, 1)) as Hne by discriminate.
  split; [exact Hne|]. split; [reflexivity|].
  rewrite <- (clicks_on_different_cells_commute 1 2 2 1 (new_world App.initial) Hne).
  reflexivity.
Defined.

Lemma toggle_keys_are_cells x y c g :
  keys_are_cells g -> keys_are_cells (App.toggle (App.key x y) c g).
Proof.
  intros Hcells k [c' Hkc]. unfold App.toggle in Hkc. cbn zeta in Hkc.
  destruct (decide (k = App.key x y)) as [->|Hne]; [eauto|].
  apply Hcells. case_decide.
  - rewrite lookup_delete_ne in Hkc by done. eauto.
  - rewrite lookup_insert_ne in Hkc by done. eauto.
Qed.

Lemma clicks_keys_are_cells cells : forall w,
  keys_are_cells (App.pixelGrid (store w)) ->
  keys_are_cells (App.pixelGrid (store (clicks cells w))).
Proof.
  induction cells as [|[x y] cells IH]; intros w Hw; [done|].
  rewrite clicks_cons. apply IH. rewrite click_grid. by apply toggle_keys_are_cells.
Qed.

(** X19. Drawing only draws.  Whatever cells are clicked, in whatever
    order, no request is sent and nothing is shown; the selected colour,
    the status and the capabilities stay as they were; every key of the
    grid still names a cell; and a grid whose cells all held the
    selected colour still does. *)
Theorem clicks_only_draw cells : forall w,
  let w' := clicks cells w in
  calls w' = calls w /\ toasts w' = toasts w /\
  App.pixelColor (store w') = App.pixelColor (store w) /\
  App.status (store w') = App.status (store w) /\
  App.deviceInfo (store w') = App.deviceInfo (store w) /\
  (keys_are_cells (App.pixelGrid (store w)) ->
   keys_are_cells (App.pixelGrid (store w'))) /\
  ((forall k c, App.pixelGrid (store w) !! k = Some c -> c = App.pixelColor (store w)) ->
   forall k c, App.pixelGrid (store w') !! k = Some c -> c = App.pixelColor (store w)).
Proof.
  induction cells as [|[x y] cells IH]; intros w; cbn zeta.
  - repeat split; auto.
  - rewrite clicks_cons.
    set (w1 := (advance (App.handlePixelClick (store w) x y) w).2).
    specialize (IH w1). cbn zeta in IH.
    destruct IH as (Hc & Ht & Hp & Hs & Hi & Hk & Hcol).
    assert (App.pixelGrid (store w1)
            = App.toggle (App.key x y) (App.pixelColor (store w)) (App.pixelGrid (store w)))
      as Hg by apply click_grid.
    repeat split; try (etrans; [eassumption|reflexivity]).
    + intros Hcells. apply Hk. rewrite Hg. unfold App.toggle. cbn zeta.
      intros k [c Hkc]. case_decide.
      * apply Hcells. destruct (decide (k = App.key x y)) as [->|Hne].
        -- by rewrite lookup_delete_eq in Hkc.
        -- rewrite lookup_delete_ne in Hkc by done. eauto.
      * destruct (decide (k = App.key x y)) as [->|Hne]; [eauto|].
        apply Hcells. rewrite lookup_insert_ne in Hkc by done. eauto.
    + intros Hall k c Hkc. change (App.pixelColor (store w)) with (App.pixelColor (store w1)).
      apply (Hcol) with (k := k); [|exact Hkc].
      intros k0 c0. rewrite Hg. unfold App.toggle. cbn zeta. case_decide.
      * destruct (decide (k0 = App.key x y)) as [->|Hne].
        -- by rewrite lookup_delete_eq.
        -- rewrite lookup_delete_ne by done. apply Hall.
      * destruct (decide (k0 = App.key x y)) as [->|Hne].
        -- rewrite lookup_insert_eq. by intros [= <-].
        -- rewrite lookup_insert_ne by done. apply Hall.
Qed.

(** X20. What is sent is what was drawn.  If every key of the grid names
    a cell, and reading a key gives back its cell, then the pixel list
    the page builds for the service has exactly one entry per drawn
    cell: each drawn cell is in it with its coordinates and its colour
    without the first '#', every entry is a drawn cell, and no two
    entries have the same coordinates. *)
Theorem pixels_are_the_drawn_cells parse_coords (grid : gmap string string) :
  (forall x y, parse_coords (App.key x y) = (x, y)) ->
  keys_are_cells grid ->
  let pixels :=
    (fun '(coords, color) =>
       {| x := (parse_coords coords).1; y := (parse_coords coords).2;
          px_color := replace_hash color |}) <$> map_to_list grid in
  (forall x y c, grid !! App.key x y = Some c ->
     {| x := x; y := y; px_color := replace_hash c |} ∈ pixels) /\
  (forall p, p ∈ pixels ->
     exists c, grid !! App.key (x p) (y p) = Some c /\ px_color p = replace_hash c) /\
  NoDup ((fun p => (x p, y p)) <$> pixels).
Proof.
  intros Hparse Hcells pixels. split; [|split].
  - intros x0 y0 c Hc. apply list_elem_of_fmap.
    exists (App.key x0 y0, c). rewrite Hparse. split; [done|].
    by apply elem_of_map_to_list.
  - intros p [[coords color] [-> Hin]]%list_elem_of_fmap.
    apply elem_of_map_to_list in Hin.
    destruct (Hcells coords) as (x0 & y0 & ->); [eauto|].
    rewrite Hparse. cbn. eauto.
  - subst pixels. rewrite <- list_fmap_compose.
    apply NoDup_fmap_2_strong; [|apply NoDup_map_to_list].
    intros [k1 c1] [k2 c2] Hin1%elem_of_map_to_list Hin2%elem_of_map_to_list Heq.
    destruct (Hcells k1) as (x1 & y1 & ->); [eauto|].
    destruct (Hcells k2) as (x2 & y2 & ->); [eauto|].
    cbn in Heq. rewrite !Hparse in Heq. cbn in Heq. injection Heq as -> ->.
    congruence.
Qed.

Lemma pixels_are_the_drawn_cells_witness :
  let grid := App.pixelGrid (store (clicks [(1, 2); (0, 0)] (new_world App.initial))) in
  (forall x y, Sample.parse_coords (App.key x y) = (x, y)) /\
  keys_are_cells grid /\
  {| x := 1; y := 2; px_color := "FF00FF" |}
    ∈ (fun '(coords, color) =>
         {| x := (Sample.parse_coords coords).1; y := (Sample.parse_coords coords).2;
            px_color := replace_hash color |}) <$> map_to_list grid.
Proof.
  assert (keys_are_cells
            (App.pixelGrid (store (clicks [(1, 2); (0, 0)] (new_world App.initial)))))
    as Hcells.
  { apply (clicks_keys_are_cells [(1, 2); (0, 0)] (new_world App.initial)).
    intros k [c Hc]. change (App.pixelGrid (store (new_world App.initial)))
      with (∅ : gmap string string) in Hc. by rewrite lookup_empty in Hc. }
  split; [exact parse_coords_of_key|]. split; [exact Hcells|].
  apply (proj1 (pixels_are_the_drawn_cells Sample.parse_coords _
                  parse_coords_of_key Hcells) 1 2 "#FF00FF").
  reflexivity.
Defined.

(** ** App.tsx: the canvas *)

Lemma cell_in_range info index :
  0 < width info -> 0 <= index ->
  PixelCanvas.cell info index = (index `mod` width info, index `div` width info).
Proof.
  intros Hw Hi. unfold PixelCanvas.cell. by rewrite Z.rem_mod_nonneg by lia.
Qed.

(** X21. The canvas draws every cell of the panel once and nothing else:
    for a panel of positive width and non-negative height, a cell (x, y)
    is drawn exactly when 0 <= x < width and 0 <= y < height, no cell is
    drawn twice, and position [y * width + x] is where it is drawn. *)
Theorem canvas_draws_each_cell_once info :
  0 < width info -> 0 <= height info ->
  let cells := PixelCanvas.cell info <$> PixelCanvas.indices info in
  NoDup cells /\
  (forall x y, (x, y) ∈ cells <-> 0 <= x < width info /\ 0 <= y < height info) /\
  (forall x y, 0 <= x < width info -> 0 <= y < height info ->
     PixelCanvas.cell info (y * width info + x) = (x, y)) /\
  length (PixelCanvas.canvas info ∅) = Z.to_nat (width info * height info).
Proof.
  intros Hw Hh cells.
  assert (forall x y, 0 <= x < width info -> 0 <= y < height info ->
            PixelCanvas.cell info (y * width info + x) = (x, y)) as Hcell.
  { intros x y Hx Hy. rewrite cell_in_range by nia. f_equal.
    - rewrite Z.add_comm, Z.mod_add by lia. by apply Z.mod_small.
    - rewrite Z.add_comm, Z.div_add by lia. rewrite Z.div_small by done. lia. }
  split; [|split; [|split]].
  - apply NoDup_fmap_2_strong; [|apply NoDup_seqZ].
    intros i j [Hi _]%elem_of_seqZ [Hj _]%elem_of_seqZ Heq.
    rewrite !cell_in_range in Heq by lia. injection Heq as Hm Hd.
    rewrite (Z.div_mod i (width info)), (Z.div_mod j (width info)) by lia.
    by rewrite Hm, Hd.
  - intros x y. split.
    + intros [i [Heq [Hi Hlt]%elem_of_seqZ]]%list_elem_of_fmap.
      rewrite cell_in_range in Heq by lia. injection Heq as -> ->.
      pose proof (Z.mod_pos_bound i (width info) Hw).
      split; [done|]. split; [by apply Z.div_pos|].
      apply Z.div_lt_upper_bound; lia.
    + intros [Hx Hy]. apply list_elem_of_fmap. exists (y * width info + x).
      split; [by rewrite Hcell|]. apply elem_of_seqZ. nia.
  - exact Hcell.
  - unfold PixelCanvas.canvas, PixelCanvas.indices.
    by rewrite length_fmap, length_seqZ.
Qed.

Lemma canvas_draws_each_cell_once_witness :
  0 < width Sample.info /\ 0 <= height Sample.info /\
  NoDup (PixelCanvas.cell Sample.info <$> PixelCanvas.indices Sample.info) /\
  PixelCanvas.cell Sample.info (2 * 16 + 1) = (1, 2).
Proof.
  assert (0 < width Sample.info) as Hw by (cbn; lia).
  assert (0 <= height Sample.info) as Hh by (cbn; lia).
  split; [exact Hw|]. split; [exact Hh|].
  pose proof (canvas_draws_each_cell_once Sample.info Hw Hh) as H.
  cbv zeta in H. destruct H as (Hnodup & _ & Hcell & _).
  split; [exact Hnodup|]. apply (Hcell 1 2); cbn; lia.
Defined.

(** X22. A click repaints one cell.  After a click on (x, y) with the
    colour c selected, every other cell is drawn in the colour it had.
    The clicked cell is drawn black if it held c, and otherwise in c
    (black again if c is the empty string). *)
Theorem click_repaints_one_cell x y w :
  let c := App.pixelColor (store w) in
  let g := App.pixelGrid (store w) in
  let g' := App.pixelGrid (store (clicks [(x, y)] w)) in
  (forall x' y', (x', y') <> (x, y) ->
     PixelCanvas.shown g' (x', y') = PixelCanvas.shown g (x', y')) /\
  PixelCanvas.shown g' (x, y)
  = if decide (g !! App.key x y = Some c) then "#000000" else or_else (Some c) "#000000".
Proof.
  cbn zeta. change (App.pixelGrid (store (clicks [(x, y)] w)))
    with (App.toggle (App.key x y) (App.pixelColor (store w)) (App.pixelGrid (store w))).
  set (g := App.pixelGrid (store w)). set (c := App.pixelColor (store w)).
  unfold PixelCanvas.shown, App.toggle. cbn [fst snd]. cbn zeta. split.
  - intros x' y' Hne.
    assert (App.key x y <> App.key x' y') as Hk.
    { intros [-> ->]%key_inj. done. }
    case_decide; [by rewrite lookup_delete_ne | by rewrite lookup_insert_ne].
  - destruct (decide (g !! App.key x y = Some c)).
    + by rewrite lookup_delete_eq.
    + by rewrite lookup_insert_eq.
Qed.

Lemma click_repaints_one_cell_witness :
  (0, 0) <> (1, 2) /\
  PixelCanvas.shown (App.pixelGrid (store (clicks [(1, 2)] (new_world App.initial)))) (0, 0)
  = "#000000" /\
  PixelCanvas.shown (App.pixelGrid (store (clicks [(1, 2)] (new_world App.initial)))) (1, 2)
  = "#FF00FF".
Proof.
  assert ((0, 0) <> (1, 2)) as Hne by discriminate.
  split; [exact Hne|].
  pose proof (click_repaints_one_cell 1 2 (new_world App.initial)) as H.
  cbv zeta in H. destruct H as [Hother Hthis].
  split; [by rewrite (Hother 0 0 Hne) | by rewrite Hthis].
Defined.

(** ** App.tsx: the saved designs *)

Section SavedDesigns.

Variable trim : string -> string.
Variable stringify : list Designs.Design -> string.

Lemma acts_app l1 l2 (w : World Designs.State) :
  Designs.acts trim stringify (l1 ++ l2) w
  = Designs.acts trim stringify l2 (Designs.acts trim stringify l1 w).
Proof. unfold Designs.acts. by rewrite foldl_app. Qed.

Lemma acts_snoc l a (w : World Designs.State) :
  Designs.acts trim stringify (l ++ [a]) w
  = Designs.act trim stringify (Designs.acts trim stringify l w) a.
Proof. unfold Designs.acts. by rewrite foldl_app. Qed.

(** What one action does to the list and to the storage: a save that
    passes both checks appends, a delete filters, both then write the
    storage; everything else leaves the two alone. *)
Lemma act_savedDesigns w a :
  let w' := Designs.act trim stringify w a in
  let s := store w in
  (Designs.savedDesigns (store w') = Designs.savedDesigns s /\
   Designs.pixelDesigns (store w') = Designs.pixelDesigns s) \/
  (Designs.synced stringify (store w') /\
   ((a = Designs.SaveDesign /\ trim (Designs.designName s) <> "" /\
     Designs.pixelGrid s <> ∅ /\
     Designs.savedDesigns (store w')
     = Designs.savedDesigns s
       ++ [{| Designs.name := Designs.designName s; Designs.grid := Designs.pixelGrid s |}]) \/
    (exists n, a = Designs.DeleteDesign n /\
       Designs.savedDesigns (store w')
       = filter (fun d => Designs.name d ≠ n) (Designs.savedDesigns s)))).
Proof.
  destruct w as [s cs ts co]. destruct a as [|d|n|n|g]; cbn zeta; cbn [store].
  - unfold Designs.act, Designs.handler, Designs.handleSaveDesign. cbn [store].
    unfold truthy_str. destruct (String.eqb_spec (trim (Designs.designName s)) "") as [He|Hne].
    { left. done. }
    cbn [negb]. case_decide as Hsz.
    { left. done. }
    right. split; [done|]. left. split; [done|]. split; [done|]. split; [|done].
    intros Hg. apply Hsz. by rewrite Hg.
  - left. done.
  - right. split; [done|]. right. by exists n.
  - left. done.
  - left. done.
Qed.

(** X23. Whatever the user does, in any order, every design on the list
    has a name that is not blank and a grid with at least one pixel, if
    the designs the page started with do. *)
Theorem saved_designs_are_named_and_drawn l w :
  Forall (Designs.storable trim) (Designs.savedDesigns (store w)) ->
  Forall (Designs.storable trim)
         (Designs.savedDesigns (store (Designs.acts trim stringify l w))).
Proof.
  intros Hw. induction l as [|a l IH] using rev_ind; [done|].
  rewrite acts_snoc. set (w1 := Designs.acts trim stringify l w) in *.
  destruct (act_savedDesigns w1 a) as [[-> _]|[_ [(_ & Hn & Hg & ->)|(n & _ & ->)]]].
  - done.
  - apply Forall_app. split; [done|]. by apply Forall_singleton.
  - apply Forall_forall. intros d [_ Hd]%list_elem_of_filter.
    by eapply Forall_forall in Hd.
Qed.

Lemma acts_storage l w :
  let w' := Designs.acts trim stringify l w in
  (Designs.savedDesigns (store w') = Designs.savedDesigns (store w) /\
   Designs.pixelDesigns (store w') = Designs.pixelDesigns (store w)) \/
  Designs.synced stringify (store w').
Proof.
  cbn zeta. induction l as [|a l IH] using rev_ind; [by left|].
  rewrite acts_snoc. set (w1 := Designs.acts trim stringify l w) in *.
  destruct (act_savedDesigns w1 a) as [[Hl Hs]|[Hsync _]]; [|by right].
  destruct IH as [[Hl' Hs']|Hsync].
  - left. by rewrite Hl, Hs.
  - right. unfold Designs.synced in *. by rewrite Hl, Hs.
Qed.

Lemma synced_acts l w :
  Designs.synced stringify (store w) ->
  Designs.synced stringify (store (Designs.acts trim stringify l w)).
Proof.
  intros Hw. destruct (acts_storage l w) as [[Hl Hs]|H]; [|done].
  unfold Designs.synced in *. by rewrite Hl, Hs.
Qed.

(** X24. The storage follows the list.  After any run, either the list
    and the storage are both as they were at the start, or the storage
    holds the text of the list on the page; and once it holds it, it
    holds it after every later action. *)
Theorem storage_follows_the_list l w :
  let w' := Designs.acts trim stringify l w in
  ((Designs.savedDesigns (store w') = Designs.savedDesigns (store w) /\
    Designs.pixelDesigns (store w') = Designs.pixelDesigns (store w)) \/
   Designs.synced stringify (store w')) /\
  forall l', Designs.synced stringify (store w') ->
    Designs.synced stringify (store (Designs.acts trim stringify l' w')).
Proof.
  cbn zeta. split; [apply acts_storage|]. intros l'. apply synced_acts.
Qed.

Lemma save_appends n g w :
  trim n <> "" -> g <> ∅ ->
  Designs.savedDesigns (store (Designs.acts trim stringify
    [Designs.TypeName n; Designs.Draw g; Designs.SaveDesign] w))
  = Designs.savedDesigns (store w) ++ [{| Designs.name := n; Designs.grid := g |}].
Proof.
  intros Hn Hg. destruct w as [s cs ts co].
  unfold Designs.acts, Designs.act. cbn [foldl Designs.handler store].
  unfold Designs.handleSaveDesign, truthy_str. cbn.
  apply String.eqb_neq in Hn. rewrite Hn. cbn.
  by destruct (decide (size g = 0%nat)) as [?%map_size_empty_iff|_].
Qed.

Lemma delete_filters n w :
  let w' := Designs.act trim stringify w (Designs.DeleteDesign n) in
  Designs.savedDesigns (store w')
  = filter (fun d => Designs.name d ≠ n) (Designs.savedDesigns (store w)) /\
  Designs.synced stringify (store w').
Proof. by destruct w. Qed.

(** X25. Two designs may carry one name, and one delete removes both.
    Saving under a name that is already on the list appends a second
    design and keeps the first; deleting that name then removes every
    design that carries it and leaves the others in their order. *)
Theorem one_delete_removes_every_design_of_the_name n g1 g2 w :
  trim n <> "" -> g1 <> ∅ -> g2 <> ∅ ->
  let save g := [Designs.TypeName n; Designs.Draw g; Designs.SaveDesign] in
  let w2 := Designs.acts trim stringify (save g1 ++ save g2) w in
  let w3 := Designs.act trim stringify w2 (Designs.DeleteDesign n) in
  Designs.savedDesigns (store w2)
  = Designs.savedDesigns (store w)
    ++ [{| Designs.name := n; Designs.grid := g1 |};
        {| Designs.name := n; Designs.grid := g2 |}] /\
  Designs.savedDesigns (store w3)
  = filter (fun d => Designs.name d ≠ n) (Designs.savedDesigns (store w)) /\
  Designs.synced stringify (store w3).
Proof.
  intros Hn Hg1 Hg2. cbv zeta.
  assert (Designs.savedDesigns (store (Designs.acts trim stringify
            ([Designs.TypeName n; Designs.Draw g1; Designs.SaveDesign]
             ++ [Designs.TypeName n; Designs.Draw g2; Designs.SaveDesign]) w))
          = Designs.savedDesigns (store w)
            ++ [{| Designs.name := n; Designs.grid := g1 |};
                {| Designs.name := n; Designs.grid := g2 |}]) as H2.
  { rewrite acts_app.
    rewrite (save_appends n g2 _ Hn Hg2), (save_appends n g1 _ Hn Hg1).
    by rewrite <- app_assoc. }
  split; [exact H2|].
  destruct (delete_filters n (Designs.acts trim stringify
            ([Designs.TypeName n; Designs.Draw g1; Designs.SaveDesign]
             ++ [Designs.TypeName n; Designs.Draw g2; Designs.SaveDesign]) w))
    as [Hd Hs].
  split; [|exact Hs]. rewrite Hd, H2, filter_app. cbn.
  rewrite !decide_False by (cbn; tauto). cbn. by rewrite app_nil_r.
Qed.

Section Mount.

Variable parse : string -> Json (list Designs.Design).

(** X26. The designs survive a reload.  From a page whose storage
    holds the text of its list, after any run, if the text written is
    not empty and parses back to the list, the mount effect of the
    reloaded page puts the same list on the page, throws nothing and
    logs nothing. *)
Theorem designs_survive_a_reload l w :
  Designs.synced stringify (store w) ->
  stringify (Designs.savedDesigns (store (Designs.acts trim stringify l w))) <> "" ->
  parse (stringify (Designs.savedDesigns (store (Designs.acts trim stringify l w))))
  = Parsed (Designs.savedDesigns (store (Designs.acts trim stringify l w))) ->
  let w' := Designs.acts trim stringify l w in
  let m := Designs.mount parse (Designs.reload w') in
  m.1 = Finished (Returned tt) /\
  Designs.savedDesigns (store m.2) = Designs.savedDesigns (store w') /\
  Designs.pixelDesigns (store m.2) = Designs.pixelDesigns (store w') /\
  console m.2 = [] /\ toasts m.2 = [].
Proof.
  intros Hw Hne Hparse. cbn zeta.
  pose proof (synced_acts l _ Hw) as Hs.
  set (w' := Designs.acts trim stringify l w) in *.
  unfold Designs.mount, Designs.reload, Designs.loadSavedDesigns. cbn [store new_world].
  unfold Designs.synced in Hs. cbn [Designs.pixelDesigns]. rewrite Hs.
  unfold truthy_str. apply String.eqb_neq in Hne. rewrite Hne. cbn [negb].
  rewrite Hparse. cbn. done.
Qed.

(** X27. A stored text that cannot be parsed is logged and ignored:
    the mount effect throws nothing, shows no toast, leaves the page
    and the storage as they are, and writes one line to the console. *)
Theorem unreadable_storage_is_logged_and_ignored t e w :
  Designs.pixelDesigns (store w) = Some t -> t <> "" -> parse t = Unparsable e ->
  Designs.mount parse w
  = (Finished (Returned tt),
     {| store := store w; calls := calls w; toasts := toasts w;
        console := console w ++ [("Failed to load saved designs:", e)] |}).
Proof.
  intros Ht Hne He. unfold Designs.mount, Designs.loadSavedDesigns.
  rewrite Ht. unfold truthy_str. apply String.eqb_neq in Hne. rewrite Hne. cbn [negb].
  rewrite He. by destruct w.
Qed.

End Mount.

End SavedDesigns.

Lemma saved_designs_are_named_and_drawn_witness :
  Forall (Designs.storable SampleDesigns.trim)
         (Designs.savedDesigns (store SampleDesigns.page)) /\
  Forall (Designs.storable SampleDesigns.trim)
         (Designs.savedDesigns (store
            (Designs.acts SampleDesigns.trim SampleDesigns.stringify
               [Designs.TypeName "heart"; Designs.Draw SampleDesigns.dot; Designs.SaveDesign]
               SampleDesigns.page))).
Proof.
  assert (Forall (Designs.storable SampleDesigns.trim)
            (Designs.savedDesigns (store SampleDesigns.page))) as H
    by apply Forall_nil_2.
  split; [exact H|].
  exact (saved_designs_are_named_and_drawn SampleDesigns.trim SampleDesigns.stringify _ _ H).
Defined.

Lemma storage_follows_the_list_witness :
  Designs.synced SampleDesigns.stringify
    (store (Designs.acts SampleDesigns.trim SampleDesigns.stringify
              [Designs.TypeName "heart"; Designs.Draw SampleDesigns.dot; Designs.SaveDesign]
              SampleDesigns.page)) /\
  Designs.synced SampleDesigns.stringify
    (store (Designs.acts SampleDesigns.trim SampleDesigns.stringify
              [Designs.Draw ∅]
              (Designs.acts SampleDesigns.trim SampleDesigns.stringify
                 [Designs.TypeName "heart"; Designs.Draw SampleDesigns.dot; Designs.SaveDesign]
                 SampleDesigns.page))).
Proof.
  assert (Designs.synced SampleDesigns.stringify
    (store (Designs.acts SampleDesigns.trim SampleDesigns.stringify
              [Designs.TypeName "heart"; Designs.Draw SampleDesigns.dot; Designs.SaveDesign]
              SampleDesigns.page))) as H by reflexivity.
  split; [exact H|].
  exact (proj2 (storage_follows_the_list SampleDesigns.trim SampleDesigns.stringify
                  [Designs.TypeName "heart"; Designs.Draw SampleDesigns.dot; Designs.SaveDesign]
                  SampleDesigns.page) [Designs.Draw ∅] H).
Defined.

Lemma one_delete_removes_every_design_of_the_name_witness :
  SampleDesigns.trim "heart" <> "" /\ SampleDesigns.dot <> ∅ /\
  Designs.savedDesigns (store
    (Designs.acts SampleDesigns.trim SampleDesigns.stringify
       [Designs.TypeName "heart"; Designs.Draw SampleDesigns.dot; Designs.SaveDesign;
        Designs.TypeName "heart"; Designs.Draw SampleDesigns.dot; Designs.SaveDesign;
        Designs.DeleteDesign "heart"]
       SampleDesigns.page))
  = [].
Proof.
  assert (SampleDesigns.trim "heart" <> "") as Hn by discriminate.
  assert (SampleDesigns.dot <> ∅) as Hg by apply insert_non_empty.
  split; [exact Hn|]. split; [exact Hg|].
  exact (proj1 (proj2 (one_delete_removes_every_design_of_the_name
    SampleDesigns.trim SampleDesigns.stringify "heart" SampleDesigns.dot SampleDesigns.dot
    SampleDesigns.page Hn Hg Hg))).
Defined.

Lemma designs_survive_a_reload_witness :
  let saved := Designs.acts SampleDesigns.trim SampleDesigns.stringify
                 [Designs.TypeName "heart"; Designs.Draw SampleDesigns.dot;
                  Designs.SaveDesign]
                 SampleDesigns.empty_page in
  let mounted := Designs.mount SampleDesigns.parse (Designs.reload saved) in
  Designs.synced SampleDesigns.stringify (store SampleDesigns.empty_page) /\
  Designs.savedDesigns (store saved) = [SampleDesigns.heart] /\
  Designs.savedDesigns (store (Designs.reload saved)) = [] /\
  mounted.1 = Finished (Returned tt) /\
  Designs.savedDesigns (store mounted.2) = [SampleDesigns.heart].
Proof.
  assert (Designs.synced SampleDesigns.stringify (store SampleDesigns.empty_page))
    as H by reflexivity.
  cbv zeta. split; [exact H|]. split; [reflexivity|]. split; [reflexivity|].
  pose proof (designs_survive_a_reload SampleDesigns.trim SampleDesigns.stringify
    SampleDesigns.parse
    [Designs.TypeName "heart"; Designs.Draw SampleDesigns.dot; Designs.SaveDesign]
    SampleDesigns.empty_page H ltac:(discriminate) eq_refl) as Hreload.
  cbv zeta in Hreload. destruct Hreload as (Hdone & Hsame & _).
  split; [exact Hdone|]. rewrite Hsame. reflexivity.
Defined.

Lemma unreadable_storage_is_logged_and_ignored_witness :
  console (Designs.mount SampleDesigns.parse
    (new_world {| Designs.pixelGrid := ∅; Designs.savedDesigns := [];
                  Designs.designName := ""; Designs.pixelDesigns := Some "[{" |})).2
  = [("Failed to load saved designs:", JsError "Unexpected token")].
Proof.
  by rewrite (unreadable_storage_is_logged_and_ignored SampleDesigns.parse "[{"
    (JsError "Unexpected token")
    (new_world {| Designs.pixelGrid := ∅; Designs.savedDesigns := [];
                  Designs.designName := ""; Designs.pixelDesigns := Some "[{" |})
    eq_refl ltac:(discriminate) eq_refl).
Defined.

(** ** services/api.ts: more of the push channel *)

Section PushChannel.

Import ws.
Variable accepts : string -> bool.

Lemma invoked_callbacks message (l : list Callback) :
  invoked ((fun callback => Invoked callback message) <$> l) = l.
Proof. induction l as [|c l IH]; [done|]. cbn. unfold invoked in IH. by rewrite IH. Qed.

Lemma remove_first_count c cb (l : list Callback) :
  length (filter (eq c) (remove_first cb l))
  = (length (filter (eq c) l) - (if decide (c = cb) then 1 else 0))%nat.
Proof.
  induction l as [|a l IH]; [done|]. cbn [remove_first].
  destruct (decide (a = cb)) as [->|Ha].
  - rewrite filter_cons. repeat case_decide; try congruence; cbn; lia.
  - rewrite !filter_cons. revert IH.
    repeat case_decide; try congruence; cbn; intros ->; try lia.
Qed.

Lemma remove_first_here cb (before after : list Callback) :
  cb ∉ before -> remove_first cb (before ++ cb :: after) = before ++ after.
Proof.
  induction before as [|a before IH]; intros Hnot; cbn.
  - by rewrite decide_True.
  - apply not_elem_of_cons in Hnot as [Hne Hnot].
    rewrite decide_False by done. by rewrite IH.
Qed.

Lemma remove_first_absent cb (l : list Callback) :
  cb ∉ l -> remove_first cb l = l.
Proof.
  induction l as [|a l IH]; intros Hnot; cbn; [done|].
  apply not_elem_of_cons in Hnot as [Hne Hnot].
  rewrite decide_False by done. by rewrite IH.
Qed.

(** X28. Removing a callback removes its first registration, and only
    that one.  On an open socket, a frame that arrives after
    [removeStatusCallback(cb)] is handed to the callbacks that were
    registered before the first cb and to those registered after it, in
    that order: a second registration of cb further down the list
    stays where it is.  So cb is invoked once less than it would have
    been and every other callback as often as before; and when cb was
    not registered nothing changes. *)
Theorem removeStatusCallback_removes_the_first cb i s message rt :
  sockets rt !! i = Some s -> readyState s = OPEN ->
  let heard :=
    (steps accepts [Call_removeStatusCallback cb; Receives i (Some message)] rt).2 in
  (forall before after,
      statusCallbacks (this rt) = before ++ cb :: after -> cb ∉ before ->
      invoked heard = before ++ after) /\
  (cb ∉ statusCallbacks (this rt) -> invoked heard = statusCallbacks (this rt)) /\
  (forall c,
      times c heard
      = (times c (steps accepts [Receives i (Some message)] rt).2
         - (if decide (c = cb) then 1 else 0))%nat).
Proof.
  intros Hs Hopen. unfold times. cbn. rewrite Hs, !decide_True by done. cbn.
  rewrite !app_nil_r, !invoked_callbacks. split; [|split].
  - intros before after -> Hnot. by apply remove_first_here.
  - apply remove_first_absent.
  - intros c. apply remove_first_count.
Qed.

Lemma addressed_alter u f i rt :
  (forall s, url (f s) = url s) ->
  Forall (fun s => url s = u) (sockets rt) ->
  Forall (fun s => url s = u) (alter f i (sockets rt)).
Proof.
  intros Hf H. apply Forall_forall. intros s [j Hj]%list_elem_of_lookup_1.
  rewrite list_lookup_alter in Hj. case_decide.
  - apply fmap_Some in Hj as (s0 & E & ->).
    rewrite Hf. eapply Forall_lookup_1 in H; [exact H|exact E].
  - eapply Forall_lookup_1 in H; [exact H|exact Hj].
Qed.

Lemma addressed_connectWebSocket onMessage rt :
  let u := replace_http (baseUrl (this rt)) +:+ "/ws" in
  let r := connectWebSocket accepts onMessage rt in
  Forall (fun s => url s = u) (sockets rt) ->
  baseUrl (this r.1) = baseUrl (this rt) /\
  Forall (fun s => url s = u) (sockets r.1) /\
  Forall (eq u) (constructed r.2).
Proof.
  cbn zeta. intros H. unfold connectWebSocket. cbn zeta.
  case_decide; [by repeat split; cbn|].
  cbn [with_this this baseUrl set_statusCallbacks sockets].
  destruct (accepts _); cbn; repeat split; try done.
  - apply Forall_app. split; [done|]. by apply Forall_singleton.
  - by apply Forall_singleton.
Qed.

Lemma addressed_step e rt :
  let u := replace_http (baseUrl (this rt)) +:+ "/ws" in
  let r := step accepts e rt in
  Forall (fun s => url s = u) (sockets rt) ->
  baseUrl (this r.1) = baseUrl (this rt) /\
  Forall (fun s => url s = u) (sockets r.1) /\
  Forall (eq u) (constructed r.2).
Proof.
  cbn zeta. intros H. destruct e as [onMessage| |callback|i|i data|i|i|handle]; cbn [step].
  - by apply addressed_connectWebSocket.
  - unfold disconnectWebSocket.
    destruct (wsReconnectTimer (this rt)) as [h|]; [destruct (truthy_num (Some h))|];
      cbn; (destruct (ws (this rt)); cbn; repeat split; try done;
            by apply addressed_alter; [intros s0; by destruct (readyState s0)|]).
  - by repeat split.
  - destruct (sockets rt !! i) as [s|]; [|by repeat split].
    case_decide; [|by repeat split]. unfold onopen. cbn [fst snd set_socket this].
    assert (Forall (fun s => url s = replace_http (baseUrl (this rt)) +:+ "/ws")
              (alter (set_readyState OPEN) i (sockets rt))) by (by apply addressed_alter).
    destruct (wsReconnectTimer (this rt)) as [h|]; [destruct (truthy_num (Some h))|];
      by repeat split.
  - destruct (sockets rt !! i) as [s|]; [|by repeat split].
    case_decide; [|by repeat split]. destruct data; cbn; repeat split; try done.
    unfold constructed. induction (statusCallbacks (this rt)); [done|]. by cbn.
  - destruct (sockets rt !! i) as [s|]; [|by repeat split].
    case_decide; by repeat split.
  - destruct (sockets rt !! i) as [s|]; [|by repeat split].
    case_decide; [by repeat split|]. cbn. repeat split; try done.
    by apply addressed_alter.
  - destruct (list_find _ _) as [[j t]|]; [|by repeat split].
    by apply (addressed_connectWebSocket (reconnect_with t) (clearTimeout handle rt)).
Qed.

Lemma constructed_app o o' : constructed (o ++ o') = constructed o ++ constructed o'.
Proof. unfold constructed. apply omap_app. Qed.

Lemma addressed_steps es : forall rt,
  let u := replace_http (baseUrl (this rt)) +:+ "/ws" in
  let r := steps accepts es rt in
  Forall (fun s => url s = u) (sockets rt) ->
  baseUrl (this r.1) = baseUrl (this rt) /\
  Forall (fun s => url s = u) (sockets r.1) /\
  Forall (eq u) (constructed r.2).
Proof.
  induction es as [|e es IH]; intros rt; cbn zeta; intros H; [by repeat split|].
  cbn [steps]. destruct (addressed_step e rt H) as (Hb & Hs & Hc).
  destruct (step accepts e rt) as [rt1 o1]. cbn [fst snd] in *.
  specialize (IH rt1). cbn zeta in IH. rewrite Hb in IH.
  destruct (IH Hs) as (Hb' & Hs' & Hc').
  destruct (steps accepts es rt1) as [rt2 o2]. cbn [fst snd] in *.
  split; [done|]. split; [done|]. rewrite constructed_app. by apply Forall_app.
Qed.

Lemma replace_http_prefix rest : replace_http ("http" +:+ rest) = "ws" +:+ rest.
Proof.
  change ("http" +:+ rest)
    with (String "h" (String "t" (String "t" (String "p" rest)))).
  change ("ws" +:+ rest) with (String "w" (String "s" rest)).
  cbn. rewrite Nat.sub_0_r.
  replace (String.prefix "" rest) with true by (by destruct rest).
  change ("ws" +:+ ?r) with (String "w" (String "s" r)). f_equal. f_equal.
  induction rest as [|c rest IH]; [done|]. cbn. by rewrite IH.
Qed.

(** X29. The push channel has one address.  For a client made with a
    base URL that starts with "http", whatever the application and the
    browser do, every socket the client ever constructs is opened at
    the base URL with that "http" replaced by "ws" and "/ws" appended
    (so "https://host" gives "wss://host/ws"), and the base URL never
    changes. *)
Theorem every_socket_has_the_ws_address rest es :
  let r := steps accepts es (create ("http" +:+ rest)) in
  let u := "ws" +:+ rest +:+ "/ws" in
  baseUrl (this r.1) = "http" +:+ rest /\
  Forall (fun s => url s = u) (sockets r.1) /\
  Forall (eq u) (constructed r.2).
Proof.
  cbn zeta. pose proof (addressed_steps es (create ("http" +:+ rest))) as H.
  cbn zeta in H. cbn [create this baseUrl sockets] in H.
  rewrite replace_http_prefix in H. apply H. constructor.
Qed.

(** X30. An opening socket cancels the remembered reconnect.  When a
    socket opens while the client remembers a timeout handle, that
    timeout is cleared and forgotten, the other pending timeouts stay,
    and the cleared one no longer fires. *)
Theorem open_cancels_the_remembered_reconnect i s handle rt :
  sockets rt !! i = Some s -> readyState s = CONNECTING ->
  wsReconnectTimer (this rt) = Some handle -> handle <> 0 ->
  let rt' := (step accepts (Opens i) rt).1 in
  wsReconnectTimer (this rt') = None /\
  timeouts rt' = filter (fun t => id t ≠ handle) (timeouts rt) /\
  step accepts (Fires handle) rt' = (rt', []).
Proof.
  intros Hs Hc Hh Hne. cbn zeta. cbn [step]. rewrite Hs, decide_True by done.
  unfold onopen. cbn [fst set_socket this]. rewrite Hh.
  unfold truthy_num. apply Z.eqb_neq in Hne. rewrite Hne. cbn [negb].
  split; [done|]. split; [done|]. cbn [step].
  set (rt' := with_this _ _).
  destruct (list_find _ (timeouts rt')) as [[j t]|] eqn:E; [|done].
  apply list_find_Some in E as (Hj & Ht & _).
  apply list_elem_of_lookup_2 in Hj. cbn in Hj.
  apply list_elem_of_filter in Hj as [Hj _]. done.
Qed.

End PushChannel.

Lemma removeStatusCallback_removes_the_first_witness :
  let rt := (Sample.client_after
               [ws.Call_connectWebSocket 7%nat; ws.Call_connectWebSocket 8%nat;
                ws.Call_connectWebSocket 7%nat; ws.Opens 2%nat]).1 in
  let off := {| type := "status"; ws_connected := false; ws_device_address := None |} in
  ws.statusCallbacks (ws.this rt) = [7; 8; 7]%nat /\
  invoked (ws.steps (fun _ => true)
             [ws.Call_removeStatusCallback 7%nat; ws.Receives 2%nat (Some off)] rt).2
  = [8; 7]%nat.
Proof.
  cbv zeta. split; [reflexivity|].
  refine (proj1 (removeStatusCallback_removes_the_first (fun _ => true) 7%nat 2%nat
    {| ws.url := "ws://127.0.0.1:8000/ws"; ws.readyState := ws.OPEN; ws.onMessage := 7%nat |}
    {| type := "status"; ws_connected := false; ws_device_address := None |}
    (Sample.client_after
       [ws.Call_connectWebSocket 7%nat; ws.Call_connectWebSocket 8%nat;
        ws.Call_connectWebSocket 7%nat; ws.Opens 2%nat]).1 eq_refl eq_refl)
    [] [8; 7]%nat eq_refl _).
  apply not_elem_of_nil.
Defined.

Lemma open_cancels_the_remembered_reconnect_witness :
  let es := [ws.Call_connectWebSocket 7%nat; ws.Closes 0%nat;
             ws.Call_connectWebSocket 7%nat] in
  ws.wsReconnectTimer (ws.this (Sample.client_after es).1) = Some 1 /\
  ws.timeouts (ws.step (fun _ => true) (ws.Opens 1%nat) (Sample.client_after es).1).1 = [].
Proof.
  cbv zeta. split; [reflexivity|].
  by rewrite (proj1 (proj2 (open_cancels_the_remembered_reconnect (fun _ => true) 1%nat
    {| ws.url := "ws://127.0.0.1:8000/ws"; ws.readyState := ws.CONNECTING;
       ws.onMessage := 7%nat |} 1
    (Sample.client_after [ws.Call_connectWebSocket 7%nat; ws.Closes 0%nat;
                          ws.Call_connectWebSocket 7%nat]).1
    eq_refl eq_refl eq_refl ltac:(discriminate)))).
Defined.

Lemma clicks_only_draw_witness :
  keys_are_cells (App.pixelGrid (store (new_world App.initial))) /\
  keys_are_cells (App.pixelGrid (store (clicks [(1, 2); (0, 0)] (new_world App.initial)))).
Proof.
  assert (keys_are_cells (App.pixelGrid (store (new_world App.initial)))) as H.
  { intros k [c Hc]. change (App.pixelGrid (store (new_world App.initial)))
      with (∅ : gmap string string) in Hc. by rewrite lookup_empty in Hc. }
  split; [exact H|].
  pose proof (clicks_only_draw [(1, 2); (0, 0)] (new_world App.initial)) as Hd.
  cbv zeta in Hd. destruct Hd as (_ & _ & _ & _ & _ & Hk & _). exact (Hk H).
Defined.
